(** * shim-mcp: session multiplexer, stdio transport adapter, process supervisor

    A shallow embedding of the concurrency/resource core of the proxy:
    - [Core]                  errors, JSON values, messages, envelopes
                              (src/core/types.ts, src/core/interfaces.ts)
    - [SessionMultiplexerImpl] src/session/SessionMultiplexerImpl.ts
    - [StdioTransportAdapter]  src/transport/StdioTransportAdapter.ts
    - [MCPProcessManager]      src/process/MCPProcessManager.ts
    - [Gateway]                the listener wiring of setTransportAdapter
    - [ShimMCPServer]          configuration and wiring of
                              src/core/ShimMCPServer.ts

    Conventions.  JavaScript numbers are integers of [Z]; [Date.now()] is an
    argument [now]; a promise is run to completion where it is awaited, its
    rejection being the [Throw] case of [Result]; a timer is an entry of a
    table of armed handles, and its firing is an operation of its own. *)

From Stdlib Require Import ZArith String Ascii List Bool Lia.
From stdpp Require Import gmap strings list fin_maps pretty.

Open Scope Z_scope.

(* ===================================================================== *)
(** ** Core types *)
(* ===================================================================== *)

Module Core.

(** The error classes of types.ts.  [NativeError] stands for the built-in
    errors ([SyntaxError], [TypeError], [new Error(..)]). *)
Inductive ShimMCPError :=
| TransportError (message : string) (sessionId : string)
| ProcessError (message : string)
| SessionError (message : string) (sessionId : string)
| NativeError (message : string).

Definition error_message (e : ShimMCPError) : string :=
  match e with
  | TransportError msg _ | ProcessError msg | SessionError msg _
  | NativeError msg => msg
  end.

(** The outcome of a call: a value, or a thrown error / rejected promise. *)
Inductive Result (A : Type) :=
| Ok (a : A)
| Throw (e : ShimMCPError).
Arguments Ok {A} a.
Arguments Throw {A} e.

Definition is_Ok {A} (r : Result A) : bool :=
  match r with Ok _ => true | Throw _ => false end.

(** Parsed JSON. *)
#[local] Set Warnings "-register-all".
Inductive json :=
| JNull
| JBool (b : bool)
| JNum (n : Z)
| JStr (s : string)
| JArr (items : list json)
| JObj (fields : list (string * json)).

(** [obj.key] for an own property; JSON.parse keeps the last duplicate. *)
Fixpoint own_property (key : string) (fields : list (string * json)) : option json :=
  match fields with
  | [] => None
  | (k, v) :: rest =>
      match own_property key rest with
      | Some v' => Some v'
      | None => if String.eqb k key then Some v else None
      end
  end.

(** Message identifiers.  The interface declares [string | number], but the
    code only tests [id !== undefined]: every other JSON value is an id as
    well, [null], a boolean, and an array or an object, which a [Map]
    compares by identity ([IdRef]: [r] is the identity of the value, [text]
    what a template literal prints for it). *)
Inductive MsgId :=
| IdStr (s : string)
| IdNum (n : Z)
| IdNull
| IdBool (b : bool)
| IdRef (r : nat) (text : string).

#[global] Instance MsgId_eq_dec : EqDecision MsgId.
Proof. solve_decision. Defined.

#[global] Instance MsgId_countable : Countable MsgId.
Proof.
  refine (inj_countable'
            (fun i => match i with
                      | IdStr s => inl (inl s)
                      | IdNum n => inl (inr n)
                      | IdNull => inr (inl tt)
                      | IdBool b => inr (inr (inl b))
                      | IdRef r text => inr (inr (inr (r, text)))
                      end)
            (fun x => match x with
                      | inl (inl s) => IdStr s
                      | inl (inr n) => IdNum n
                      | inr (inl _) => IdNull
                      | inr (inr (inl b)) => IdBool b
                      | inr (inr (inr (r, text))) => IdRef r text
                      end) _).
  by intros [].
Defined.

(** [String(v)] for a parsed JSON value: an array joins its elements with
    commas, [null] elements printing as nothing; an object prints as
    [[object Object]]. *)
Fixpoint json_text (v : json) : string :=
  match v with
  | JNull => "null"
  | JBool b => if b then "true" else "false"
  | JNum n => pretty n
  | JStr s => s
  | JArr items =>
      (fix join (l : list json) : string :=
         let element (x : json) :=
           match x with JNull => EmptyString | _ => json_text x end in
         match l with
         | [] => EmptyString
         | [x] => element x
         | x :: rest => element x +:+ "," +:+ join rest
         end) items
  | JObj _ => "[object Object]"
  end.

(** The id held by the property [id] of a parsed message [r]. *)
Definition as_id (r : nat) (v : json) : MsgId :=
  match v with
  | JStr s => IdStr s
  | JNum n => IdNum n
  | JNull => IdNull
  | JBool b => IdBool b
  | JArr _ | JObj _ => IdRef r (json_text v)
  end.

(** interface MCPMessage.  [ref] is the identity of the JavaScript object:
    two occurrences of a message are the same object exactly when their
    [ref] agree ([Array.prototype.indexOf] compares with [===]). *)
Record MCPMessage := {
  ref : nat;
  id : option MsgId;
  method : option string;
  params : option json;
  result : option json;
  error : option json;
}.

(** interface SessionEnvelope, over the payload type. *)
Record SessionEnvelope (P : Type) := {
  sessionId : string;
  sequence : Z;
  payload : P;
  timestamp : Z;
}.
Arguments sessionId {P} _.
Arguments sequence {P} _.
Arguments payload {P} _.
Arguments timestamp {P} _.


(** interface TransportAdapter, as seen by the multiplexer. *)
Class TransportAdapter (T : Type) := {
  sendToClient : Z -> string -> MCPMessage -> T -> T * Result unit;
  sendToBackend : Z -> SessionEnvelope MCPMessage -> T -> T * Result unit;
}.

(** Constants of types.ts. *)
Definition DEFAULT_SESSION_IDLE_TIMEOUT : Z := 600000.
Definition DEFAULT_HEALTH_CHECK_INTERVAL : Z := 5000.
Definition DEFAULT_MAX_RESTART_ATTEMPTS : Z := 3.
Definition DEFAULT_STDIO_BUFFER_SIZE : Z := 8192.
Definition DEFAULT_MAX_CONCURRENT_SESSIONS : Z := 50.

End Core.
Import Core.

(* ===================================================================== *)
(** ** SessionMultiplexerImpl *)
(* ===================================================================== *)

Module SessionMultiplexerImpl.

(** interface SessionMultiplexerConfig: every field optional. *)
Record SessionMultiplexerConfig := {
  cfg_maxConcurrentSessions : option Z;
  cfg_sessionIdleTimeout : option Z;
  cfg_flowControlWindowSize : option Z;
  cfg_enableFlowControl : option bool;
}.

(** [this.config] once the constructor has merged the defaults. *)
Record Config := {
  maxConcurrentSessions : Z;
  sessionIdleTimeout : Z;
  flowControlWindowSize : Z;
  enableFlowControl : bool;
}.

Definition merge_config (config : SessionMultiplexerConfig) : Config :=
  {| maxConcurrentSessions :=
       default DEFAULT_MAX_CONCURRENT_SESSIONS (cfg_maxConcurrentSessions config);
     sessionIdleTimeout :=
       default DEFAULT_SESSION_IDLE_TIMEOUT (cfg_sessionIdleTimeout config);
     flowControlWindowSize := default 10 (cfg_flowControlWindowSize config);
     enableFlowControl := default true (cfg_enableFlowControl config) |}.

Definition no_overrides : SessionMultiplexerConfig :=
  {| cfg_maxConcurrentSessions := None; cfg_sessionIdleTimeout := None;
     cfg_flowControlWindowSize := None; cfg_enableFlowControl := None |}.

(** Handles returned by [setTimeout]. *)
Definition TimerId := nat.

Record PendingRequest := {
  pr_timestamp : Z;
  pr_timeout : TimerId;
}.

(** interface ActiveSession extends SessionInfo. *)
Record ActiveSession := {
  session_id : string;
  clientPid : Z;
  startTime : Z;
  lastActivity : Z;
  isActive : bool;
  pendingRequests : gmap MsgId PendingRequest;
  messageQueue : list MCPMessage;
  lastSequence : Z;
  flowControlWindow : Z;
  backpressure : bool;
}.

Definition set_lastActivity (v : Z) (s : ActiveSession) : ActiveSession :=
  {| session_id := session_id s; clientPid := clientPid s; startTime := startTime s;
     lastActivity := v; isActive := isActive s;
     pendingRequests := pendingRequests s; messageQueue := messageQueue s;
     lastSequence := lastSequence s; flowControlWindow := flowControlWindow s;
     backpressure := backpressure s |}.

Definition set_pendingRequests (v : gmap MsgId PendingRequest) (s : ActiveSession)
  : ActiveSession :=
  {| session_id := session_id s; clientPid := clientPid s; startTime := startTime s;
     lastActivity := lastActivity s; isActive := isActive s;
     pendingRequests := v; messageQueue := messageQueue s;
     lastSequence := lastSequence s; flowControlWindow := flowControlWindow s;
     backpressure := backpressure s |}.

Definition set_messageQueue (v : list MCPMessage) (s : ActiveSession) : ActiveSession :=
  {| session_id := session_id s; clientPid := clientPid s; startTime := startTime s;
     lastActivity := lastActivity s; isActive := isActive s;
     pendingRequests := pendingRequests s; messageQueue := v;
     lastSequence := lastSequence s; flowControlWindow := flowControlWindow s;
     backpressure := backpressure s |}.

Definition set_lastSequence (v : Z) (s : ActiveSession) : ActiveSession :=
  {| session_id := session_id s; clientPid := clientPid s; startTime := startTime s;
     lastActivity := lastActivity s; isActive := isActive s;
     pendingRequests := pendingRequests s; messageQueue := messageQueue s;
     lastSequence := v; flowControlWindow := flowControlWindow s;
     backpressure := backpressure s |}.

(** The two flow-control fields are always written together or one after
    the other; [set_flow] writes both. *)
Definition set_flow (w : Z) (bp : bool) (s : ActiveSession) : ActiveSession :=
  {| session_id := session_id s; clientPid := clientPid s; startTime := startTime s;
     lastActivity := lastActivity s; isActive := isActive s;
     pendingRequests := pendingRequests s; messageQueue := messageQueue s;
     lastSequence := lastSequence s; flowControlWindow := w;
     backpressure := bp |}.

(** interface SessionInfo, and the object literal that getSession and
    getAllSessions build from a session. *)
Record SessionInfo := {
  info_id : string;
  info_clientPid : Z;
  info_startTime : Z;
  info_lastActivity : Z;
  info_isActive : bool;
}.

Definition session_info (s : ActiveSession) : SessionInfo :=
  {| info_id := session_id s; info_clientPid := clientPid s;
     info_startTime := startTime s; info_lastActivity := lastActivity s;
     info_isActive := isActive s |}.

(** Events emitted by the multiplexer. *)
Inductive Event :=
| SESSION_CREATED (sessionId : string)
| SESSION_DESTROYED (sessionId : string)
| ERROR (e : ShimMCPError).

(** The callback a [setTimeout] was given. *)
Inductive TimerCallback :=
| RequestTimeout (sessionId : string) (messageId : MsgId).

Section Multiplexer.

Context {T : Type} `{!TransportAdapter T}.

(** The private fields of the class.  [timers] is the table of armed
    timeouts and [nextTimer] the next unused handle.  [outbox] is ghost
    state: the envelopes handed to [transportAdapter.sendToBackend], in
    call order. *)
Record State := {
  config : Config;
  sessions : gmap string ActiveSession;
  transportAdapter : option T;
  cleanupInterval : bool;
  messageRoutes : gmap MsgId string;
  timers : gmap TimerId TimerCallback;
  nextTimer : TimerId;
  emitted : list Event;
  outbox : list (SessionEnvelope MCPMessage);
}.

Definition set_sessions (v : gmap string ActiveSession) (m : State) : State :=
  {| config := config m; sessions := v; transportAdapter := transportAdapter m;
     cleanupInterval := cleanupInterval m; messageRoutes := messageRoutes m;
     timers := timers m; nextTimer := nextTimer m; emitted := emitted m;
     outbox := outbox m |}.

Definition set_transportAdapter (v : option T) (m : State) : State :=
  {| config := config m; sessions := sessions m; transportAdapter := v;
     cleanupInterval := cleanupInterval m; messageRoutes := messageRoutes m;
     timers := timers m; nextTimer := nextTimer m; emitted := emitted m;
     outbox := outbox m |}.

Definition set_cleanupInterval (v : bool) (m : State) : State :=
  {| config := config m; sessions := sessions m; transportAdapter := transportAdapter m;
     cleanupInterval := v; messageRoutes := messageRoutes m;
     timers := timers m; nextTimer := nextTimer m; emitted := emitted m;
     outbox := outbox m |}.

Definition set_messageRoutes (v : gmap MsgId string) (m : State) : State :=
  {| config := config m; sessions := sessions m; transportAdapter := transportAdapter m;
     cleanupInterval := cleanupInterval m; messageRoutes := v;
     timers := timers m; nextTimer := nextTimer m; emitted := emitted m;
     outbox := outbox m |}.

Definition set_timers (v : gmap TimerId TimerCallback) (n : TimerId) (m : State) : State :=
  {| config := config m; sessions := sessions m; transportAdapter := transportAdapter m;
     cleanupInterval := cleanupInterval m; messageRoutes := messageRoutes m;
     timers := v; nextTimer := n; emitted := emitted m;
     outbox := outbox m |}.

Definition set_outbox (v : list (SessionEnvelope MCPMessage)) (m : State) : State :=
  {| config := config m; sessions := sessions m; transportAdapter := transportAdapter m;
     cleanupInterval := cleanupInterval m; messageRoutes := messageRoutes m;
     timers := timers m; nextTimer := nextTimer m; emitted := emitted m;
     outbox := v |}.

(** [this.emit(..)]: events are kept in emission order. *)
Definition emit (e : Event) (m : State) : State :=
  {| config := config m; sessions := sessions m; transportAdapter := transportAdapter m;
     cleanupInterval := cleanupInterval m; messageRoutes := messageRoutes m;
     timers := timers m; nextTimer := nextTimer m; emitted := emitted m ++ [e];
     outbox := outbox m |}.

(** A write through the session object stored under [sessionId]. *)
Definition with_session (sessionId : string) (f : ActiveSession -> ActiveSession)
  (m : State) : State :=
  set_sessions (alter f sessionId (sessions m)) m.

Definition setTimeout (cb : TimerCallback) (m : State) : TimerId * State :=
  (nextTimer m, set_timers (<[nextTimer m := cb]> (timers m)) (S (nextTimer m)) m).

Definition clearTimeout (t : TimerId) (m : State) : State :=
  set_timers (delete t (timers m)) (nextTimer m) m.

(** constructor: merges the defaults and starts the cleanup interval. *)
Definition new (config : SessionMultiplexerConfig) : State :=
  {| config := merge_config config; sessions := ∅; transportAdapter := None;
     cleanupInterval := true; messageRoutes := ∅; timers := ∅; nextTimer := O;
     emitted := []; outbox := [] |}.

Definition setTransportAdapter (adapter : T) (m : State) : State :=
  set_transportAdapter (Some adapter) m.

(** createSession: [sessionId] is the value of Utils.generateSessionId(). *)
Definition createSession (clientPid : Z) (sessionId : string) (now : Z) (m : State)
  : State * Result string :=
  if Z.of_nat (size (sessions m)) >=? maxConcurrentSessions (config m) then
    (m, Throw (SessionError "Maximum concurrent sessions exceeded" EmptyString))
  else
    let session :=
      {| session_id := sessionId; clientPid := clientPid; startTime := now;
         lastActivity := now; isActive := true; pendingRequests := ∅;
         messageQueue := []; lastSequence := 0;
         flowControlWindow := flowControlWindowSize (config m);
         backpressure := false |} in
    (emit (SESSION_CREATED sessionId)
          (set_sessions (<[sessionId := session]> (sessions m)) m),
     Ok sessionId).

Definition destroySession (sessionId : string) (m : State) : State :=
  match sessions m !! sessionId with
  | None => m
  | Some session =>
      let m := map_fold (fun _ p acc => clearTimeout (pr_timeout p) acc) m
                 (pendingRequests session) in
      let m := set_messageRoutes
                 (filter (fun kv => kv.2 ≠ sessionId) (messageRoutes m)) m in
      emit (SESSION_DESTROYED sessionId)
           (set_sessions (delete sessionId (sessions m)) m)
  end.

Definition updateSessionActivity (sessionId : string) (now : Z) (m : State) : State :=
  with_session sessionId (set_lastActivity now) m.

Definition setupRequestTimeout (sessionId : string) (messageId : MsgId) (now : Z)
  (m : State) : State :=
  match sessions m !! sessionId with
  | None => m
  | Some _ =>
      let '(timeout, m) := setTimeout (RequestTimeout sessionId messageId) m in
      with_session sessionId
        (fun s => set_pendingRequests
                    (<[messageId := {| pr_timestamp := now; pr_timeout := timeout |}]>
                       (pendingRequests s)) s) m
  end.

Definition clearRequestTimeout (sessionId : string) (messageId : MsgId) (m : State)
  : State :=
  match sessions m !! sessionId with
  | None => m
  | Some session =>
      match pendingRequests session !! messageId with
      | None => m
      | Some pending =>
          with_session sessionId
            (fun s => set_pendingRequests (delete messageId (pendingRequests s)) s)
            (clearTimeout (pr_timeout pending) m)
      end
  end.

(** The flow-control step of routeToBackend:
    [window--; if (window <= 0) backpressure = true]. *)
Definition consume_credit (s : ActiveSession) : ActiveSession :=
  let w := flowControlWindow s - 1 in
  set_flow w (if w <=? 0 then true else backpressure s) s.

(** The catch block of routeToBackend:
    [window++; backpressure = window <= 0]. *)
Definition restore_credit (s : ActiveSession) : ActiveSession :=
  let w := flowControlWindow s + 1 in
  set_flow w (w <=? 0) s.

(** routeToBackend, block by block.

    "Track request-response mapping if message has ID" *)
Definition track_request (sessionId : string) (message : MCPMessage) (now : Z)
  (m : State) : State :=
  match id message with
  | Some messageId =>
      setupRequestTimeout sessionId messageId now
        (set_messageRoutes (<[messageId := sessionId]> (messageRoutes m)) m)
  | None => m
  end.

(** "Apply flow control" *)
Definition apply_flow_control (sessionId : string) (m : State) : State :=
  if enableFlowControl (config m) then with_session sessionId consume_credit m else m.

(** "Send to backend": the envelope takes the next sequence of the session,
    and a failed send restores the credit. *)
Definition send_envelope (session : ActiveSession) (adapter : T) (sessionId : string)
  (message : MCPMessage) (now : Z) (m : State) : State * Result unit :=
  let envelope :=
    {| sessionId := sessionId; sequence := lastSequence session + 1;
       payload := message; timestamp := now |} in
  let m := with_session sessionId (set_lastSequence (lastSequence session + 1)) m in
  let m := set_outbox (outbox m ++ [envelope]) m in
  let '(adapter, r) := sendToBackend now envelope adapter in
  let m := set_transportAdapter (Some adapter) m in
  match r with
  | Ok _ => (m, Ok tt)
  | Throw e =>
      (if enableFlowControl (config m)
       then with_session sessionId restore_credit m else m,
       Throw (SessionError
                ("Failed to route message to backend: " +:+ error_message e)
                sessionId))
  end.

(** [session.messageQueue.push(message)] *)
Definition enqueue (sessionId : string) (message : MCPMessage) (m : State) : State :=
  with_session sessionId (fun s => set_messageQueue (messageQueue s ++ [message]) s) m.

Definition routeToBackend (sessionId : string) (message : MCPMessage) (now : Z)
  (m : State) : State * Result unit :=
  match sessions m !! sessionId with
  | None => (m, Throw (SessionError "Session not found" sessionId))
  | Some session =>
      match transportAdapter m with
      | None => (m, Throw (SessionError "Transport adapter not configured" sessionId))
      | Some adapter =>
          let m := updateSessionActivity sessionId now m in
          if enableFlowControl (config m) && backpressure session then
            (enqueue sessionId message m, Ok tt)
          else
            send_envelope session adapter sessionId message now
              (apply_flow_control sessionId (track_request sessionId message now m))
      end
  end.

(** [Array.prototype.indexOf] on message objects: the first position holding
    the same object, or -1. *)
Fixpoint indexOf (message : MCPMessage) (messages : list MCPMessage) : Z :=
  match messages with
  | [] => -1
  | x :: rest =>
      if Nat.eqb (ref x) (ref message) then 0
      else let i := indexOf message rest in if i <? 0 then -1 else i + 1
  end.

(** [Array.prototype.slice(start)]: a negative start counts from the end. *)
Definition slice {A} (start : Z) (l : list A) : list A :=
  let len := Z.of_nat (length l) in
  let k := if start <? 0 then Z.max (len + start) 0 else Z.min start len in
  drop (Z.to_nat k) l.

(** The [for (const message of messages)] loop of processQueuedMessages. *)
Fixpoint flush_loop (sessionId : string) (now : Z) (messages rest : list MCPMessage)
  (m : State) : State :=
  match rest with
  | [] => m
  | message :: rest =>
      match sessions m !! sessionId with
      | None => m
      | Some session =>
          if backpressure session then
            with_session sessionId
              (fun s => set_messageQueue
                          (slice (indexOf message messages) messages ++ messageQueue s) s)
              m
          else
            let '(m, r) := routeToBackend sessionId message now m in
            let m :=
              match r with
              | Ok _ => m
              | Throw e =>
                  emit (ERROR (SessionError
                                 ("Failed to process queued message: " +:+ error_message e)
                                 sessionId)) m
              end in
            flush_loop sessionId now messages rest m
      end
  end.

Definition processQueuedMessages (sessionId : string) (now : Z) (m : State) : State :=
  match sessions m !! sessionId with
  | None => m
  | Some session =>
      match messageQueue session with
      | [] => m
      | messages =>
          flush_loop sessionId now messages messages
            (with_session sessionId (set_messageQueue []) m)
      end
  end.

(** routeToClient, block by block.

    "Clear request tracking if this is a response" *)
Definition clear_tracking (sessionId : string) (message : MCPMessage) (m : State)
  : State :=
  match id message with
  | Some messageId =>
      let m := clearRequestTimeout sessionId messageId m in
      set_messageRoutes (delete messageId (messageRoutes m)) m
  | None => m
  end.

(** "Update flow control": one credit back, and the queue is flushed when
    that relieves backpressure. *)
Definition update_flow_control (session : ActiveSession) (sessionId : string) (now : Z)
  (m : State) : State :=
  if enableFlowControl (config m) then
    let w := flowControlWindow session + 1 in
    if backpressure session && (0 <? w) then
      processQueuedMessages sessionId now (with_session sessionId (set_flow w false) m)
    else
      with_session sessionId (set_flow w (backpressure session)) m
  else m.

(** The [try] block around [transportAdapter.sendToClient]. *)
Definition deliver (sessionId : string) (message : MCPMessage) (now : Z) (m : State)
  : State * Result unit :=
  match transportAdapter m with
  | None =>
      (m, Throw (SessionError
                   "Failed to route message to client: Cannot read properties of undefined"
                   sessionId))
  | Some adapter =>
      let '(adapter, r) := sendToClient now sessionId message adapter in
      let m := set_transportAdapter (Some adapter) m in
      match r with
      | Ok _ => (m, Ok tt)
      | Throw e =>
          (m, Throw (SessionError
                       ("Failed to route message to client: " +:+ error_message e)
                       sessionId))
      end
  end.

Definition routeToClient (sessionId : string) (message : MCPMessage) (now : Z)
  (m : State) : State * Result unit :=
  match sessions m !! sessionId with
  | None => (m, Throw (SessionError "Session not found" sessionId))
  | Some session =>
      match transportAdapter m with
      | None => (m, Throw (SessionError "Transport adapter not configured" sessionId))
      | Some _ =>
          let m := updateSessionActivity sessionId now m in
          let m := clear_tracking sessionId message m in
          let m := update_flow_control session sessionId now m in
          deliver sessionId message now m
      end
  end.

(** A JavaScript string is truthy when it is not empty. *)
Definition truthy (s : option string) : option string :=
  match s with
  | Some s => if String.eqb s EmptyString then None else Some s
  | None => None
  end.

(** handleInboundMessage: [sessionId] and [payload] are the two fields of
    the envelope that the handler destructures; the envelope is untyped, so
    [sessionId] may be missing. *)
Definition handleInboundMessage (sessionId : option string) (payload : MCPMessage)
  (now : Z) (m : State) : State :=
  let targetSessionId :=
    match truthy sessionId, id payload with
    | Some s, _ => Some s
    | None, Some messageId => messageRoutes m !! messageId
    | None, None => None
    end in
  match truthy targetSessionId with
  | Some target =>
      let '(m, r) := routeToClient target payload now m in
      match r with
      | Ok _ => m
      | Throw e =>
          emit (ERROR (SessionError
                         ("Failed to handle inbound message: " +:+ error_message e)
                         target)) m
      end
  | None =>
      emit (ERROR (SessionError "Unable to route inbound message - no session found"
                     (default "unknown" (truthy sessionId)))) m
  end.

Definition handleOutboundMessage (sessionId : string) (payload : MCPMessage)
  (now : Z) (m : State) : State :=
  let '(m, r) := routeToBackend sessionId payload now m in
  match r with
  | Ok _ => m
  | Throw e =>
      emit (ERROR (SessionError
                     ("Failed to handle outbound message: " +:+ error_message e)
                     sessionId)) m
  end.

(** The callback of a request timer, run when the timer [t] fires.  A
    cleared timer never fires. *)
Definition fireTimer (t : TimerId) (m : State) : State :=
  match timers m !! t with
  | None => m
  | Some (RequestTimeout sessionId messageId) =>
      let m := set_timers (delete t (timers m)) (nextTimer m) m in
      let m := clearRequestTimeout sessionId messageId m in
      emit (ERROR (SessionError
                     ("Request timeout for message " +:+
                        match messageId with
                        | IdStr s => s
                        | IdNum n => pretty n
                        | IdNull => "null"
                        | IdBool b => if b then "true" else "false"
                        | IdRef _ text => text
                        end)
                     sessionId)) m
  end.

(** cleanupIdleSessions, the body of the one-minute interval.  The sessions
    are visited in the key order of the map, not in insertion order; only
    the order of the emitted events depends on it. *)
Definition cleanupIdleSessions (now : Z) (m : State) : State :=
  foldr (fun kv acc =>
           if sessionIdleTimeout (config m) <? now - lastActivity kv.2
           then destroySession kv.1 acc else acc)
        m (map_to_list (sessions m)).

Definition destroy (m : State) : State :=
  let m := set_cleanupInterval false m in
  foldr (fun kv acc => destroySession kv.1 acc) m (map_to_list (sessions m)).

Definition getActiveSessionCount (m : State) : nat :=
  size (filter (fun kv => isActive kv.2 = true) (sessions m)).

Definition getSession (sessionId : string) (m : State) : option SessionInfo :=
  session_info <$> sessions m !! sessionId.

(** getAllSessions, in the key order of the map. *)
Definition getAllSessions (m : State) : list SessionInfo :=
  (fun kv => session_info kv.2) <$> map_to_list (sessions m).

(** *** Histories

    What can happen to a multiplexer: a call of its public interface, one
    of the two transport listeners, a request timer firing, a tick of the
    cleanup interval.  A transport that answers within [sendToBackend] (the
    HTTP mode of the stdio adapter) has its inbound event handled as the
    [OpInbound] that follows. *)
Inductive Op :=
| OpSetTransportAdapter (adapter : T)
| OpCreateSession (clientPid : Z) (sessionId : string) (now : Z)
| OpDestroySession (sessionId : string)
| OpRouteToBackend (sessionId : string) (message : MCPMessage) (now : Z)
| OpRouteToClient (sessionId : string) (message : MCPMessage) (now : Z)
| OpInbound (sessionId : option string) (payload : MCPMessage) (now : Z)
| OpOutbound (sessionId : string) (payload : MCPMessage) (now : Z)
| OpTimer (t : TimerId)
| OpCleanup (now : Z)
| OpDestroy.

Definition apply (m : State) (op : Op) : State :=
  match op with
  | OpSetTransportAdapter adapter => setTransportAdapter adapter m
  | OpCreateSession clientPid sessionId now => (createSession clientPid sessionId now m).1
  | OpDestroySession sessionId => destroySession sessionId m
  | OpRouteToBackend sessionId message now => (routeToBackend sessionId message now m).1
  | OpRouteToClient sessionId message now => (routeToClient sessionId message now m).1
  | OpInbound sessionId payload now => handleInboundMessage sessionId payload now m
  | OpOutbound sessionId payload now => handleOutboundMessage sessionId payload now m
  | OpTimer t => fireTimer t m
  | OpCleanup now => cleanupIdleSessions now m
  | OpDestroy => destroy m
  end.

Definition run (ops : list Op) (m : State) : State := foldl apply m ops.

(** The payloads handed to the transport, in order. *)
Definition sent (m : State) : list MCPMessage := payload <$> outbox m.

End Multiplexer.

Arguments State T : clear implicits.
Arguments Op T : clear implicits.

(** A transport that accepts every message: what a backend that is up and a
    client that is reading look like from the multiplexer. *)
#[export] Instance reliable_transport : TransportAdapter unit :=
  {| sendToClient := fun _ _ _ t => (t, Ok tt);
     sendToBackend := fun _ _ t => (t, Ok tt) |}.

(** *** Observations used by the invariants

    [ready]: a transport adapter has been set.  [flows]: the two
    flow-control fields of every session. *)
Definition ready {T} (m : State T) : bool :=
  match transportAdapter m with Some _ => true | None => false end.

Definition flow (s : ActiveSession) : Z * bool :=
  (flowControlWindow s, backpressure s).

Definition flows {T} (m : State T) : gmap string (Z * bool) :=
  flow <$> sessions m.

Definition sessions_satisfy {T} (P : bool -> Z -> bool -> Prop) (m : State T) : Prop :=
  forall sessionId w b, flows m !! sessionId = Some (w, b) -> P (ready m) w b.

(** [m'] keeps the configuration, the readiness and the flow-control fields
    of [m]. *)
Definition same_flow {T} (m m' : State T) : Prop :=
  config m' = config m /\ ready m' = ready m /\ flows m' = flows m.

(** A property [P ready window backpressure] holds of every session of a
    multiplexer configured with [cfg]. *)
Definition session_invariant {T} (cfg : Config) (P : bool -> Z -> bool -> Prop)
  (m : State T) : Prop :=
  config m = cfg /\ sessions_satisfy P m.

(** The invariant of section 8 of the specification, as it is worded:
    the flag mirrors the window, and the window stays within
    [0, configuredWindowSize]. *)
Definition window_invariant_as_specified {T} (m : State T) : Prop :=
  forall sessionId session,
    sessions m !! sessionId = Some session ->
    backpressure session = (flowControlWindow session <=? 0)
    /\ 0 <= flowControlWindow session <= flowControlWindowSize (config m).

End SessionMultiplexerImpl.

(* ===================================================================== *)
(** ** Utils.isValidMCPMessage *)
(* ===================================================================== *)

Module Utils.

(** Truthiness of a parsed JSON value. *)
Definition json_truthy (j : json) : bool :=
  match j with
  | JNull => false
  | JBool b => b
  | JNum n => negb (n =? 0)
  | JStr s => negb (String.eqb s EmptyString)
  | JArr _ | JObj _ => true
  end.

(** isValidMCPMessage.  [obj.hasOwnProperty] is looked up on the object
    itself first: an own property of that name, which JSON never makes a
    function, shadows [Object.prototype.hasOwnProperty] and the call throws
    a TypeError. *)
Definition isValidMCPMessage (obj : json) : Result bool :=
  match obj with
  | JObj fields =>
      let hasMethod :=
        match own_property "method" fields with
        | Some (JStr _) => true
        | _ => false
        end in
      match own_property "hasOwnProperty" fields with
      | Some _ => Throw (NativeError "obj.hasOwnProperty is not a function")
      | None =>
          let hasResult := bool_decide (is_Some (own_property "result" fields)) in
          let hasError := bool_decide (is_Some (own_property "error" fields)) in
          Ok (hasMethod || hasResult || hasError)
      end
  | JArr _ => Ok false
  | JNull | JBool _ | JNum _ | JStr _ => Ok false
  end.

(** What becomes of a promise: resolved, rejected, or never settled. *)
Inductive Settlement (A : Type) :=
| Resolved (a : A)
| Rejected (e : ShimMCPError)
| Pending.
Arguments Resolved {A} a.
Arguments Rejected {A} e.
Arguments Pending {A}.

(** The [for (attempt = ..; attempt <= maxAttempts; attempt++)] loop of
    retryWithBackoff from [attempt] on, [iterations] being the number of
    iterations left before the loop condition fails.  [fn k] is the outcome
    of the [k]-th call of the retried function.  Beside the settlement of
    the promise: the number of calls made, and the delays slept. *)
Fixpoint retry_from {A} (fn : Z -> Result A) (iterations : nat)
  (attempt maxAttempts baseDelayMs backoffFactor : Z) : Settlement A * nat * list Z :=
  match iterations with
  | O => (Pending, O, [])
  | S iterations =>
      match fn attempt with
      | Ok result => (Resolved result, 1%nat, [])
      | Throw lastError =>
          if attempt =? maxAttempts then (Rejected lastError, 1%nat, [])
          else
            let delay := baseDelayMs * backoffFactor ^ (attempt - 1) in
            let '(s, calls, delays) :=
              retry_from fn iterations (attempt + 1) maxAttempts baseDelayMs
                backoffFactor in
            (s, S calls, delay :: delays)
      end
  end.

(** retryWithBackoff(fn, maxAttempts, baseDelayMs, backoffFactor). *)
Definition retryWithBackoff {A} (fn : Z -> Result A)
  (maxAttempts baseDelayMs backoffFactor : Z) : Settlement A * nat * list Z :=
  retry_from fn (Z.to_nat maxAttempts) 1 maxAttempts baseDelayMs backoffFactor.

End Utils.

(* ===================================================================== *)
(** ** StdioTransportAdapter *)
(* ===================================================================== *)

Module StdioTransportAdapter.

(** ['http' | 'websocket'] *)
Inductive BackendType := HTTP | WEBSOCKET.

(** [this.config] with the defaults of the constructor merged in. *)
Record StdioTransportConfig := {
  bufferSize : Z;
  backendUrl : string;
  backendType : BackendType;
  timeout : Z;
  retryAttempts : Z;
  retryDelay : Z;
}.

(** The envelope of a [message.inbound] event: the sequence is whatever the
    backend declared (absent for a frame without one). *)
Record InboundEnvelope := {
  in_sessionId : string;
  in_sequence : option json;
  in_payload : json;
  in_timestamp : Z;
}.

Inductive Event :=
| TRANSPORT_CONNECTED
| TRANSPORT_DISCONNECTED
| client_disconnected (sessionId : string)
| message_outbound (envelope : SessionEnvelope json)
| message_inbound (envelope : InboundEnvelope)
| ERROR (e : ShimMCPError).

Definition TimerId := nat.

(** The fields of the class.  Strings are sequences of code units below
    256.  [timers] maps an armed [setTimeout] handle to the sequence its
    callback closes over; [stdout] is what was written to the client and
    [stdout_error] an error the stream reports on write, if any. *)
Record State := {
  config : StdioTransportConfig;
  isStarted : bool;
  backendConnected : bool;
  sessionId : string;
  clientPid : Z;
  messageBuffer : string;
  websocket : option bool;
  outboundSequence : Z;
  pendingRequests : gmap Z TimerId;
  timers : gmap TimerId Z;
  nextTimer : TimerId;
  stdout : list string;
  stdout_error : option string;
  emitted : list Event;
}.

Definition set_started (started connected : bool) (ws : option bool) (a : State) : State :=
  {| config := config a; isStarted := started; backendConnected := connected;
     sessionId := sessionId a; clientPid := clientPid a;
     messageBuffer := messageBuffer a; websocket := ws;
     outboundSequence := outboundSequence a; pendingRequests := pendingRequests a;
     timers := timers a; nextTimer := nextTimer a; stdout := stdout a;
     stdout_error := stdout_error a; emitted := emitted a |}.

Definition set_messageBuffer (v : string) (a : State) : State :=
  {| config := config a; isStarted := isStarted a;
     backendConnected := backendConnected a;
     sessionId := sessionId a; clientPid := clientPid a;
     messageBuffer := v; websocket := websocket a;
     outboundSequence := outboundSequence a; pendingRequests := pendingRequests a;
     timers := timers a; nextTimer := nextTimer a; stdout := stdout a;
     stdout_error := stdout_error a; emitted := emitted a |}.

Definition set_outboundSequence (v : Z) (a : State) : State :=
  {| config := config a; isStarted := isStarted a;
     backendConnected := backendConnected a;
     sessionId := sessionId a; clientPid := clientPid a;
     messageBuffer := messageBuffer a; websocket := websocket a;
     outboundSequence := v; pendingRequests := pendingRequests a;
     timers := timers a; nextTimer := nextTimer a; stdout := stdout a;
     stdout_error := stdout_error a; emitted := emitted a |}.

Definition set_pending (p : gmap Z TimerId) (t : gmap TimerId Z) (n : TimerId)
  (a : State) : State :=
  {| config := config a; isStarted := isStarted a;
     backendConnected := backendConnected a;
     sessionId := sessionId a; clientPid := clientPid a;
     messageBuffer := messageBuffer a; websocket := websocket a;
     outboundSequence := outboundSequence a; pendingRequests := p;
     timers := t; nextTimer := n; stdout := stdout a;
     stdout_error := stdout_error a; emitted := emitted a |}.

Definition set_stdout (v : list string) (a : State) : State :=
  {| config := config a; isStarted := isStarted a;
     backendConnected := backendConnected a;
     sessionId := sessionId a; clientPid := clientPid a;
     messageBuffer := messageBuffer a; websocket := websocket a;
     outboundSequence := outboundSequence a; pendingRequests := pendingRequests a;
     timers := timers a; nextTimer := nextTimer a; stdout := v;
     stdout_error := stdout_error a; emitted := emitted a |}.

Definition emit (e : Event) (a : State) : State :=
  {| config := config a; isStarted := isStarted a;
     backendConnected := backendConnected a;
     sessionId := sessionId a; clientPid := clientPid a;
     messageBuffer := messageBuffer a; websocket := websocket a;
     outboundSequence := outboundSequence a; pendingRequests := pendingRequests a;
     timers := timers a; nextTimer := nextTimer a; stdout := stdout a;
     stdout_error := stdout_error a; emitted := emitted a ++ [e] |}.

(** constructor; [sessionId] is the value of Utils.generateSessionId(). *)
Definition new (url : string) (type : BackendType) (sessionId : string) (clientPid : Z)
  : State :=
  {| config := {| bufferSize := DEFAULT_STDIO_BUFFER_SIZE; backendUrl := url;
                  backendType := type; timeout := 30000; retryAttempts := 3;
                  retryDelay := 1000 |};
     isStarted := false; backendConnected := false; sessionId := sessionId;
     clientPid := clientPid; messageBuffer := EmptyString; websocket := None;
     outboundSequence := 0; pendingRequests := ∅; timers := ∅; nextTimer := O;
     stdout := []; stdout_error := None; emitted := [] |}.

(** *** Text helpers *)

Definition newline : ascii := "010"%char.

(** [String.prototype.split('\n')]: never empty. *)
Fixpoint split_lines (s : string) : list string :=
  match s with
  | EmptyString => [EmptyString]
  | String c rest =>
      if Ascii.eqb c newline then EmptyString :: split_lines rest
      else match split_lines rest with
           | [] => [String c EmptyString]
           | line :: lines => String c line :: lines
           end
  end.

(** WhiteSpace and LineTerminator code units below 256. *)
Definition is_space (c : ascii) : bool :=
  let n := N_of_ascii c in
  ((9 <=? n) && (n <=? 13) || (n =? 32) || (n =? 160))%N.

Fixpoint trim_start (s : string) : string :=
  match s with
  | EmptyString => EmptyString
  | String c rest => if is_space c then trim_start rest else s
  end.

Fixpoint trim_end (s : string) : string :=
  match s with
  | EmptyString => EmptyString
  | String c rest =>
      match trim_end rest with
      | EmptyString => if is_space c then EmptyString else String c EmptyString
      | kept => String c kept
      end
  end.

(** [String.prototype.trim]. *)
Definition trim (s : string) : string := trim_end (trim_start s).

Section Adapter.

(** The platform and the remote end.
    - [JSON_parse], [JSON_stringify], [JSON_stringify_envelope]: the JSON
      built-ins, on text, on a message and on an envelope;
    - [fetch_mcp]: the POST of sendViaHttp awaited to its parsed body,
      [Throw] for a network error, a timeout, a non-2xx status or a body
      that is not JSON;
    - [websocket_send]: the completion callback of [websocket.send];
    - [connect]: the outcome of connectToBackend. *)
Variable JSON_parse : string -> Result json.
Variable JSON_stringify : MCPMessage -> string.
Variable fetch_mcp : SessionEnvelope MCPMessage -> Result json.
Variable websocket_send : SessionEnvelope MCPMessage -> Result unit.
Variable connect : BackendType -> Result unit.

Definition start (a : State) : State * Result unit :=
  if isStarted a then (a, Ok tt)
  else
    match connect (backendType (config a)) with
    | Ok _ =>
        let ws := match backendType (config a) with
                  | WEBSOCKET => Some true
                  | HTTP => websocket a
                  end in
        (emit TRANSPORT_CONNECTED (set_started true true ws a), Ok tt)
    | Throw e =>
        let ws := match backendType (config a) with
                  | WEBSOCKET => Some false
                  | HTTP => websocket a
                  end in
        (set_started false false ws a,
         Throw (TransportError
                  ("Failed to start transport: " +:+ error_message e)
                  (sessionId a)))
    end.

Definition stop (a : State) : State :=
  if negb (isStarted a) then a
  else
    let cleared := map_fold (fun _ t acc => delete t acc) (timers a) (pendingRequests a) in
    emit TRANSPORT_DISCONNECTED
      (set_started false false None (set_pending ∅ cleared (nextTimer a) a)).

Definition writeToStdout (message : string) (a : State) : State * Result unit :=
  match stdout_error a with
  | Some err => (a, Throw (NativeError err))
  | None => (set_stdout (stdout a ++ [message]) a, Ok tt)
  end.

Definition sendToClient (to : string) (data : MCPMessage) (a : State)
  : State * Result unit :=
  if negb (isStarted a) || negb (String.eqb to (sessionId a)) then
    (a, Throw (TransportError "Transport not started or session mismatch" to))
  else
    let '(a, r) := writeToStdout (JSON_stringify data +:+ String newline EmptyString) a in
    match r with
    | Ok _ => (a, Ok tt)
    | Throw e =>
        (a, Throw (TransportError ("Failed to send to client: " +:+ error_message e) to))
    end.

(** handleBackendResponse(sequence, payload). *)
Definition handleBackendResponse (sequence : option json) (payload : json) (now : Z)
  (a : State) : State :=
  let pending :=
    match sequence with
    | Some (JNum n) => (fun t => (n, t)) <$> pendingRequests a !! n
    | _ => None
    end in
  let a :=
    match pending with
    | Some (n, t) =>
        set_pending (delete n (pendingRequests a)) (delete t (timers a)) (nextTimer a) a
    | None => a
    end in
  emit (message_inbound {| in_sessionId := sessionId a; in_sequence := sequence;
                           in_payload := payload; in_timestamp := now |}) a.

(** setResponseTimeout(sequence): arms a timer and records its handle. *)
Definition setResponseTimeout (sequence : Z) (a : State) : State :=
  set_pending (<[sequence := nextTimer a]> (pendingRequests a))
              (<[nextTimer a := sequence]> (timers a)) (S (nextTimer a)) a.

(** The callback of a response timer, run when the armed timer [t] fires. *)
Definition fireTimer (t : TimerId) (a : State) : State :=
  match timers a !! t with
  | None => a
  | Some sequence =>
      emit (ERROR (TransportError
                     ("Request timeout for sequence " +:+ pretty sequence)
                     (sessionId a)))
           (set_pending (delete sequence (pendingRequests a)) (delete t (timers a))
                        (nextTimer a) a)
  end.

Definition sendViaWebSocket (envelope : SessionEnvelope MCPMessage) (a : State)
  : State * Result unit :=
  match websocket a with
  | Some true =>
      match websocket_send envelope with
      | Ok _ => (a, Ok tt)
      | Throw e =>
          (a, Throw (TransportError "WebSocket send failed" (Core.sessionId envelope)))
      end
  | _ => (a, Throw (TransportError "WebSocket not connected" (Core.sessionId envelope)))
  end.

Definition sendViaHttp (now : Z) (envelope : SessionEnvelope MCPMessage) (a : State)
  : State * Result unit :=
  match fetch_mcp envelope with
  | Ok responseData =>
      (handleBackendResponse (Some (JNum (sequence envelope))) responseData now a, Ok tt)
  | Throw e =>
      (a, Throw (TransportError ("HTTP request failed: " +:+ error_message e)
                   (Core.sessionId envelope)))
  end.

Definition sendToBackend (now : Z) (envelope : SessionEnvelope MCPMessage) (a : State)
  : State * Result unit :=
  if negb (backendConnected a) then
    (a, Throw (TransportError "Backend not connected" (Core.sessionId envelope)))
  else
    let '(a, r) :=
      match backendType (config a), websocket a with
      | WEBSOCKET, Some _ => sendViaWebSocket envelope a
      | _, _ => sendViaHttp now envelope a
      end in
    match r with
    | Ok _ => (setResponseTimeout (sequence envelope) a, Ok tt)
    | Throw e =>
        (a, Throw (TransportError ("Failed to send to backend: " +:+ error_message e)
                     (Core.sessionId envelope)))
    end.

(** processIncomingMessage(message). *)
Definition processIncomingMessage (message : string) (now : Z) (a : State) : State :=
  let failed (e : ShimMCPError) :=
    emit (ERROR (TransportError
                   ("Failed to process incoming message: " +:+ error_message e)
                   (sessionId a))) a in
  match JSON_parse message with
  | Throw e => failed e
  | Ok mcpMessage =>
      match Utils.isValidMCPMessage mcpMessage with
      | Throw e => failed e
      | Ok false => failed (NativeError "Invalid MCP message format")
      | Ok true =>
          let a := set_outboundSequence (outboundSequence a + 1) a in
          emit (message_outbound
                  {| Core.sessionId := sessionId a; sequence := outboundSequence a;
                     payload := mcpMessage; timestamp := now |}) a
      end
  end.

(** The body of the [for (const line of lines)] loop of handleStdinData. *)
Definition process_line (now : Z) (a : State) (line : string) : State :=
  match trim line with
  | EmptyString => a
  | trimmed => processIncomingMessage trimmed now a
  end.

(** handleStdinData(chunk). *)
Definition handleStdinData (chunk : string) (now : Z) (a : State) : State :=
  let lines := split_lines (messageBuffer a +:+ chunk) in
  let a := set_messageBuffer (List.last lines EmptyString) a in
  foldl (process_line now) a (removelast lines).

(** handleBackendMessage(message), the WebSocket [message] listener. *)
Definition handleBackendMessage (message : string) (now : Z) (a : State) : State :=
  let failed (e : ShimMCPError) :=
    emit (ERROR (TransportError
                   ("Failed to parse backend message: " +:+ error_message e)
                   (sessionId a))) a in
  match JSON_parse message with
  | Throw e => failed e
  | Ok JNull => failed (NativeError "Cannot read properties of null")
  | Ok (JObj fields as data) =>
      match own_property "sessionId" fields, own_property "payload" fields with
      | Some sid, Some payload =>
          if Utils.json_truthy sid && Utils.json_truthy payload then
            handleBackendResponse (own_property "sequence" fields) payload now a
          else
            emit (message_inbound {| in_sessionId := sessionId a;
                                     in_sequence := Some (JNum 0);
                                     in_payload := data; in_timestamp := now |}) a
      | _, _ =>
          emit (message_inbound {| in_sessionId := sessionId a;
                                   in_sequence := Some (JNum 0);
                                   in_payload := data; in_timestamp := now |}) a
      end
  | Ok data =>
      emit (message_inbound {| in_sessionId := sessionId a;
                               in_sequence := Some (JNum 0);
                               in_payload := data; in_timestamp := now |}) a
  end.

Definition isConnected (a : State) : bool := isStarted a && backendConnected a.

Definition getSessionId (a : State) : string := sessionId a.

(** The [close] listener of the WebSocket. *)
Definition on_websocket_close (a : State) : State :=
  emit TRANSPORT_DISCONNECTED (set_started (isStarted a) false (websocket a) a).

(** The [end] listener of stdin. *)
Definition on_stdin_end (a : State) : State :=
  emit (client_disconnected (sessionId a)) a.

(** The adapter as the multiplexer sees it. *)
Definition transport : TransportAdapter State :=
  {| Core.sendToClient := fun _ to data a => sendToClient to data a;
     Core.sendToBackend := sendToBackend |}.

End Adapter.

End StdioTransportAdapter.

(* ===================================================================== *)
(** ** MCPProcessManager *)
(* ===================================================================== *)

Module MCPProcessManager.

(** ProcessStatus['status'] *)
Inductive Status := STOPPED | STARTING | RUNNING | STOPPING | CRASHED.

#[global] Instance Status_eq_dec : EqDecision Status.
Proof. solve_decision. Defined.

(** ['always' | 'on-failure' | 'never'] *)
Inductive RestartPolicy := ALWAYS | ON_FAILURE | NEVER.

#[global] Instance RestartPolicy_eq_dec : EqDecision RestartPolicy.
Proof. solve_decision. Defined.

(** interface ProcessManagerConfig. *)
Record ProcessManagerConfig := {
  command : list string;
  workingDirectory : option string;
  healthCheckUrl : option string;
  restartPolicy : option RestartPolicy;
  maxRestartAttempts : option Z;
  healthCheckInterval : option Z;
  idleTimeout : option Z;
}.

(** The object literal of [start]: defaults first, then the caller's
    fields. *)
Definition merge_config (config : ProcessManagerConfig) : ProcessManagerConfig :=
  {| command := command config;
     workingDirectory := workingDirectory config;
     healthCheckUrl := healthCheckUrl config;
     restartPolicy := Some (default ON_FAILURE (restartPolicy config));
     maxRestartAttempts :=
       Some (default DEFAULT_MAX_RESTART_ATTEMPTS (maxRestartAttempts config));
     healthCheckInterval :=
       Some (default DEFAULT_HEALTH_CHECK_INTERVAL (healthCheckInterval config));
     idleTimeout := Some (default DEFAULT_SESSION_IDLE_TIMEOUT (idleTimeout config)) |}.

(** interface ProcessStatus. *)
Record ProcessStatus := {
  pid : option Z;
  status : Status;
  startTime : option Z;
  restartCount : Z;
  lastError : option string;
  isHealthy : bool;
}.

Record ChildProcess := {
  child_pid : Z;
  killed : bool;
  exitCode : option Z;
}.

Inductive Event :=
| BACKEND_STARTED (pid : Z)
| BACKEND_STOPPED
| BACKEND_CRASHED (e : ShimMCPError).

(** The fields of the class, and around them: [lockFile] is the content of
    the file at [lockFilePath] if it exists; [backoff] holds the delays, in
    milliseconds, of the [Utils.sleep] calls of attemptRestart that have
    not elapsed yet; [spawned] is ghost state, the commands given to
    [spawn] so far. *)
Record State := {
  config : option ProcessManagerConfig;
  process : option ChildProcess;
  processStatus : ProcessStatus;
  healthCheckTimer : bool;
  idleTimer : bool;
  lockFile : option string;
  lastActivity : Z;
  backoff : list Z;
  spawned : list (list string);
  emitted : list Event;
}.

Definition set_config (v : option ProcessManagerConfig) (pm : State) : State :=
  {| config := v; process := process pm; processStatus := processStatus pm;
     healthCheckTimer := healthCheckTimer pm; idleTimer := idleTimer pm;
     lockFile := lockFile pm; lastActivity := lastActivity pm;
     backoff := backoff pm; spawned := spawned pm; emitted := emitted pm |}.

Definition set_process (v : option ChildProcess) (pm : State) : State :=
  {| config := config pm; process := v; processStatus := processStatus pm;
     healthCheckTimer := healthCheckTimer pm; idleTimer := idleTimer pm;
     lockFile := lockFile pm; lastActivity := lastActivity pm;
     backoff := backoff pm; spawned := spawned pm; emitted := emitted pm |}.

Definition set_processStatus (v : ProcessStatus) (pm : State) : State :=
  {| config := config pm; process := process pm; processStatus := v;
     healthCheckTimer := healthCheckTimer pm; idleTimer := idleTimer pm;
     lockFile := lockFile pm; lastActivity := lastActivity pm;
     backoff := backoff pm; spawned := spawned pm; emitted := emitted pm |}.

Definition set_timers (health idle : bool) (pm : State) : State :=
  {| config := config pm; process := process pm; processStatus := processStatus pm;
     healthCheckTimer := health; idleTimer := idle;
     lockFile := lockFile pm; lastActivity := lastActivity pm;
     backoff := backoff pm; spawned := spawned pm; emitted := emitted pm |}.

Definition set_lockFile (v : option string) (pm : State) : State :=
  {| config := config pm; process := process pm; processStatus := processStatus pm;
     healthCheckTimer := healthCheckTimer pm; idleTimer := idleTimer pm;
     lockFile := v; lastActivity := lastActivity pm;
     backoff := backoff pm; spawned := spawned pm; emitted := emitted pm |}.

Definition set_backoff (v : list Z) (pm : State) : State :=
  {| config := config pm; process := process pm; processStatus := processStatus pm;
     healthCheckTimer := healthCheckTimer pm; idleTimer := idleTimer pm;
     lockFile := lockFile pm; lastActivity := lastActivity pm;
     backoff := v; spawned := spawned pm; emitted := emitted pm |}.

Definition set_spawned (v : list (list string)) (pm : State) : State :=
  {| config := config pm; process := process pm; processStatus := processStatus pm;
     healthCheckTimer := healthCheckTimer pm; idleTimer := idleTimer pm;
     lockFile := lockFile pm; lastActivity := lastActivity pm;
     backoff := backoff pm; spawned := v; emitted := emitted pm |}.

Definition emit (e : Event) (pm : State) : State :=
  {| config := config pm; process := process pm; processStatus := processStatus pm;
     healthCheckTimer := healthCheckTimer pm; idleTimer := idleTimer pm;
     lockFile := lockFile pm; lastActivity := lastActivity pm;
     backoff := backoff pm; spawned := spawned pm; emitted := emitted pm ++ [e] |}.

(** constructor; [lock] is what the file system holds at the lock path. *)
Definition new (lock : option string) (now : Z) : State :=
  {| config := None; process := None;
     processStatus := {| pid := None; status := STOPPED; startTime := None;
                         restartCount := 0; lastError := None; isHealthy := false |};
     healthCheckTimer := false; idleTimer := false; lockFile := lock;
     lastActivity := now; backoff := []; spawned := []; emitted := [] |}.

(** updateStatus(status, pid?, startTime?) *)
Definition updateStatus (st : Status) (p : option Z) (t : option Z) (pm : State) : State :=
  let s := processStatus pm in
  set_processStatus
    {| pid := match p with Some _ => p | None => pid s end;
       status := st;
       startTime := match t with Some _ => t | None => startTime s end;
       restartCount := restartCount s;
       lastError := lastError s;
       isHealthy := match st with CRASHED => false | _ => isHealthy s end |} pm.

Definition clearTimers (pm : State) : State := set_timers false false pm.

(** cleanup(): timers, the process handle and the lock file. *)
Definition cleanup (pm : State) : State :=
  set_lockFile None (set_process None (clearTimers pm)).

(** startHealthCheck(): the interval is armed when the configuration has a
    health check URL and a non-zero interval.  Like resetIdleTimer it reads
    [this.config], and throws when there is none. *)
Definition startHealthCheck (pm : State) : State * Result unit :=
  match config pm with
  | Some c =>
      match healthCheckUrl c, healthCheckInterval c with
      | Some _, Some i =>
          if i =? 0 then (pm, Ok tt) else (set_timers true (idleTimer pm) pm, Ok tt)
      | _, _ => (pm, Ok tt)
      end
  | None =>
      (pm, Throw (NativeError
                    "Cannot read properties of undefined (reading 'healthCheckUrl')"))
  end.

(** resetIdleTimer(): the armed timer is cleared, then [this.config] is
    read.  Before [start] has stored a configuration that read throws the
    [TypeError] of a property access on [undefined]. *)
Definition resetIdleTimer (pm : State) : State * Result unit :=
  match config pm with
  | Some c =>
      match idleTimeout c with
      | Some i => (set_timers (healthCheckTimer pm) (negb (i =? 0)) pm, Ok tt)
      | None => (set_timers (healthCheckTimer pm) false pm, Ok tt)
      end
  | None =>
      (set_timers (healthCheckTimer pm) false pm,
       Throw (NativeError "Cannot read properties of undefined (reading 'idleTimeout')"))
  end.

(** [`${code}`] and [`${signal}`] of the exit listener: [null] when absent. *)
Definition show_code (code : option Z) : string :=
  match code with Some c => pretty c | None => "null" end.
Definition show_signal (signal : option string) : string :=
  default "null" signal.

Definition set_lastActivity (v : Z) (pm : State) : State :=
  {| config := config pm; process := process pm; processStatus := processStatus pm;
     healthCheckTimer := healthCheckTimer pm; idleTimer := idleTimer pm;
     lockFile := lockFile pm; lastActivity := v;
     backoff := backoff pm; spawned := spawned pm; emitted := emitted pm |}.

Definition getStatus (pm : State) : ProcessStatus := processStatus pm.

Definition isRunning (pm : State) : bool :=
  bool_decide (status (processStatus pm) = RUNNING)
  && match process pm with
     | Some child => negb (killed child)
     | None => false
     end.

Definition updateActivity (now : Z) (pm : State) : State * Result unit :=
  resetIdleTimer (set_lastActivity now pm).

Inductive Signal := SIGTERM | SIGKILL.

(** How a call ends: its promise settles, or an exception escapes a timer
    callback and nothing is settled. *)
Inductive Completion (A : Type) :=
| Settled (r : Result A)
| Uncaught (e : ShimMCPError).
Arguments Settled {A} r.
Arguments Uncaught {A} e.

Section Supervisor.

(** The platform.
    - [JSON_parse], [JSON_stringify]: the JSON built-ins;
    - [process_pid]: [process.pid] of the supervisor itself;
    - [process_kill0 v]: whether [process.kill(v, 0)] returns normally, where
      [v] is the value read from [lockData.pid] ([None] for [undefined]);
      it does when the signal can be delivered, that is when a process
      with that pid is alive;
    - [spawn]: child_process.spawn, giving the child or throwing;
    - [waitForProcessReady]: the outcome of the readiness wait for a
      child. *)
Variable JSON_parse : string -> Result json.
Variable JSON_stringify : json -> string.
Variable process_pid : Z.
Variable process_kill0 : option json -> bool.
Variable spawn : list string -> Result ChildProcess.
Variable waitForProcessReady : ChildProcess -> Result unit.

(** isAnotherInstanceRunning(): the answer, and the lock file afterwards. *)
Definition isAnotherInstanceRunning (pm : State) : State * bool :=
  match lockFile pm with
  | None => (pm, false)
  | Some content =>
      match JSON_parse content with
      | Throw _ => (set_lockFile None pm, false)
      | Ok JNull => (set_lockFile None pm, false)
      | Ok lockData =>
          let pid :=
            match lockData with
            | JObj fields => own_property "pid" fields
            | _ => None
            end in
          if process_kill0 pid then (pm, true)
          else (set_lockFile None pm, false)
      end
  end.

(** createLockFile(): the record holds [this.config.command], and reading
    it throws when there is no configuration. *)
Definition createLockFile (now : Z) (pm : State) : State * Result unit :=
  match config pm with
  | Some c =>
      (set_lockFile
         (Some (JSON_stringify
                  (JObj [("pid", JNum process_pid); ("startTime", JNum now);
                         ("command", JArr (JStr <$> command c))]))) pm,
       Ok tt)
  | None =>
      (pm, Throw (NativeError "Cannot read properties of undefined (reading 'command')"))
  end.

(** startProcess(). *)
Definition startProcess (now : Z) (pm : State) : State * Result unit :=
  match process pm with
  | Some _ => (pm, Throw (ProcessError "Process is already running"))
  | None =>
      let pm := updateStatus STARTING None None pm in
      let failed (e : ShimMCPError) (pm : State) :=
        (cleanup pm,
         Throw (ProcessError ("Failed to start process: " +:+ error_message e))) in
      let '(pm, locked) := createLockFile now pm in
      match locked, config pm with
      | Throw e, _ => failed e pm
      | Ok _, None =>
          failed (NativeError "Cannot read properties of undefined (reading 'command')") pm
      | Ok _, Some c =>
          let pm := set_spawned (spawned pm ++ [command c]) pm in
          match spawn (command c) with
          | Throw e => failed e pm
          | Ok child =>
              let pm := set_process (Some child) pm in
              match waitForProcessReady child with
              | Throw e => failed e pm
              | Ok _ =>
                  let pm := updateStatus RUNNING (Some (child_pid child)) (Some now) pm in
                  let '(pm, checked) := startHealthCheck pm in
                  match checked with
                  | Throw e => failed e pm
                  | Ok _ =>
                      let '(pm, armed) := resetIdleTimer pm in
                      match armed with
                      | Throw e => failed e pm
                      | Ok _ => (emit (BACKEND_STARTED (child_pid child)) pm, Ok tt)
                      end
                  end
              end
          end
      end
  end.

(** start(config). *)
Definition start (config : ProcessManagerConfig) (now : Z) (pm : State)
  : State * Result unit :=
  let pm := set_config (Some (merge_config config)) pm in
  let '(pm, running) := isAnotherInstanceRunning pm in
  if running then
    (pm, Throw (ProcessError "Another MCP process instance is already running"))
  else startProcess now pm.

(** attemptRestart() up to its first [await]: the policy and the cap are
    checked, the counter is incremented and the backoff sleep is started. *)
Definition attemptRestart (pm : State) : State :=
  match config pm with
  | None => pm
  | Some c =>
      if decide (restartPolicy c = Some NEVER) then pm
      else
        let s := processStatus pm in
        let cap := match maxRestartAttempts c with
                   | Some n => n
                   | None => 0
                   end in
        if restartCount s >=? cap then pm
        else
          let count := restartCount s + 1 in
          let pm :=
            set_processStatus
              {| pid := pid s; status := status s; startTime := startTime s;
                 restartCount := count; lastError := lastError s;
                 isHealthy := isHealthy s |} pm in
          set_backoff (backoff pm ++ [2 ^ count * 1000]) pm
  end.

(** attemptRestart() after its sleep: [startProcess], whose failure is
    logged and swallowed. *)
Definition attemptRestart_resume (now : Z) (pm : State) : State :=
  match backoff pm with
  | [] => pm
  | _ :: rest => (startProcess now (set_backoff rest pm)).1
  end.

(** The [exit] listener installed by setupProcessHandlers. *)
Definition on_exit (code : option Z) (signal : option string) (pm : State) : State :=
  let isIntentionalExit := bool_decide (status (processStatus pm) = STOPPING) in
  let pm :=
    if isIntentionalExit then
      emit BACKEND_STOPPED (updateStatus STOPPED None None pm)
    else
      let pm := updateStatus CRASHED None None pm in
      let error :=
        ProcessError ("Process exited unexpectedly with code " +:+ show_code code
                        +:+ ", signal " +:+ show_signal signal) in
      attemptRestart (emit (BACKEND_CRASHED error) pm) in
  cleanup pm.

(** The [error] listener installed by setupProcessHandlers. *)
Definition on_error (message : string) (pm : State) : State :=
  let pm := updateStatus CRASHED None None pm in
  cleanup (emit (BACKEND_CRASHED (ProcessError ("Process error: " +:+ message))) pm).

(** [kill child signal]: [child.kill(signal)], which may throw. *)
Variable kill : ChildProcess -> Signal -> Result unit.

(** stop(force).  [exit] is the exit of the child, with its code and
    signal, if it is observed within the five seconds of the graceful
    wait: the [exit] listener of setupProcessHandlers runs before the wait
    resolves.  Without it the timer callback sends SIGKILL; an exception of
    that call is not caught. *)
Definition stop (force : bool) (exit : option (option Z * option string)) (pm : State)
  : State * Completion unit :=
  let pm := clearTimers pm in
  match process pm with
  | None => (updateStatus STOPPED None None pm, Settled (Ok tt))
  | Some child =>
      let pm := updateStatus STOPPING None None pm in
      let failed (e : ShimMCPError) :=
        (cleanup pm,
         Settled (Throw (ProcessError ("Failed to stop process: " +:+ error_message e)))) in
      if force then
        match kill child SIGKILL with
        | Throw e => failed e
        | Ok _ => (cleanup pm, Settled (Ok tt))
        end
      else
        match kill child SIGTERM with
        | Throw e => failed e
        | Ok _ =>
            match exit with
            | Some (code, signal) => (cleanup (on_exit code signal pm), Settled (Ok tt))
            | None =>
                match kill child SIGKILL with
                | Throw e => (pm, Uncaught e)
                | Ok _ => (cleanup pm, Settled (Ok tt))
                end
            end
        end
  end.

(** *** Histories

    What happens to a supervisor once [start] was called: the child exits
    or reports an error, a backoff sleep of attemptRestart elapses, the
    owner calls stop or updateActivity. *)
Inductive Op :=
| OpExit (code : option Z) (signal : option string)
| OpError (message : string)
| OpBackoffElapsed (now : Z)
| OpStop (force : bool) (exit : option (option Z * option string))
| OpUpdateActivity (now : Z).

Definition apply (pm : State) (op : Op) : State :=
  match op with
  | OpExit code signal => on_exit code signal pm
  | OpError message => on_error message pm
  | OpBackoffElapsed now => attemptRestart_resume now pm
  | OpStop force exit => (stop force exit pm).1
  | OpUpdateActivity now => (updateActivity now pm).1
  end.

Definition run (ops : list Op) (pm : State) : State := foldl apply pm ops.

End Supervisor.

End MCPProcessManager.

(* ===================================================================== *)
(** ** Gateway: the listeners that tie adapter and multiplexer together *)
(* ===================================================================== *)

Module Gateway.

Import SessionMultiplexerImpl.

(** The [as MCPMessage] view of a parsed value, [r] being the identity of
    the object.  The cast checks nothing: whatever value the property [id]
    holds is the id of the message, and only a missing property reads as
    [undefined].  The multiplexer never looks at [method]; the record keeps
    it when it is a string. *)
Definition as_MCPMessage (r : nat) (data : json) : MCPMessage :=
  match data with
  | JObj fields =>
      {| ref := r;
         id := as_id r <$> own_property "id" fields;
         method := match own_property "method" fields with
                   | Some (JStr s) => Some s
                   | _ => None
                   end;
         params := own_property "params" fields;
         result := own_property "result" fields;
         error := own_property "error" fields |}
  | _ => {| ref := r; id := None; method := None; params := None;
            result := None; error := None |}
  end.

Section Wiring.

Variable JSON_parse : string -> Result json.
Variable JSON_stringify : MCPMessage -> string.
Variable fetch_mcp : SessionEnvelope MCPMessage -> Result json.
Variable websocket_send : SessionEnvelope MCPMessage -> Result unit.

#[local] Instance stdio : TransportAdapter StdioTransportAdapter.State :=
  StdioTransportAdapter.transport JSON_stringify fetch_mcp websocket_send.

(** The ['message.inbound'] listener of setTransportAdapter. *)
Definition inbound_listener (r : nat) (now : Z)
  (m : State StdioTransportAdapter.State) (e : StdioTransportAdapter.Event)
  : State StdioTransportAdapter.State :=
  match e with
  | StdioTransportAdapter.message_inbound envelope =>
      handleInboundMessage (Some (StdioTransportAdapter.in_sessionId envelope))
        (as_MCPMessage r (StdioTransportAdapter.in_payload envelope)) now m
  | _ => m
  end.

(** A WebSocket frame arrives from the backend: the adapter's
    handleBackendMessage runs, and the listener runs on what it emits. *)
Definition on_backend_message (frame : string) (r : nat) (now : Z)
  (m : State StdioTransportAdapter.State) : State StdioTransportAdapter.State :=
  match transportAdapter m with
  | None => m
  | Some a =>
      let a' := StdioTransportAdapter.handleBackendMessage JSON_parse frame now a in
      let fresh := drop (length (StdioTransportAdapter.emitted a))
                        (StdioTransportAdapter.emitted a') in
      foldl (inbound_listener r now) (set_transportAdapter (Some a') m) fresh
  end.

End Wiring.

End Gateway.

(* ===================================================================== *)
(** ** ShimMCPServer: configuration and wiring of the components *)
(* ===================================================================== *)

Module ShimMCPServer.

Import SessionMultiplexerImpl.

Inductive LogLevel := debug | info | warn | error.

(** interface ShimMCPConfig.  [backend] is absent when the caller gave no
    backend or a backend without command. *)
Record ShimMCPConfig := {
  stdioBufferSize : option Z;
  httpPort : option Z;
  httpHost : option string;
  backend : option MCPProcessManager.ProcessManagerConfig;
  sessionIdleTimeout : option Z;
  maxConcurrentSessions : option Z;
  backendAdapter : option json;
  logLevel : option LogLevel;
  logFile : option string;
}.

(** [value || fallback] on an optional number and on an optional string. *)
Definition number_or (fallback : Z) (value : option Z) : Z :=
  match value with
  | Some n => if n =? 0 then fallback else n
  | None => fallback
  end.

Definition string_or (fallback : string) (value : option string) : string :=
  match value with
  | Some s => if String.eqb s EmptyString then fallback else s
  | None => fallback
  end.

Definition DEFAULT_HTTP_PORT : Z := 3000.
Definition DEFAULT_HTTP_HOST : string := "127.0.0.1".

(** The outcome of validateAndNormalizeConfig: the normalized
    configuration, or the ShimMCPError with code INVALID_CONFIG. *)
Inductive Validated :=
| Normalized (config : ShimMCPConfig)
| INVALID_CONFIG (message : string).

Definition validateAndNormalizeConfig (config : ShimMCPConfig) : Validated :=
  match backend config with
  | None => INVALID_CONFIG "Backend command is required"
  | Some b =>
      Normalized
         {| stdioBufferSize :=
              Some (number_or DEFAULT_STDIO_BUFFER_SIZE (stdioBufferSize config));
            httpPort := Some (number_or DEFAULT_HTTP_PORT (httpPort config));
            httpHost := Some (string_or DEFAULT_HTTP_HOST (httpHost config));
            backend := Some (MCPProcessManager.merge_config b);
            sessionIdleTimeout :=
              Some (number_or DEFAULT_SESSION_IDLE_TIMEOUT (sessionIdleTimeout config));
            maxConcurrentSessions :=
              Some (number_or DEFAULT_MAX_CONCURRENT_SESSIONS
                      (maxConcurrentSessions config));
            backendAdapter := backendAdapter config;
            logLevel := Some (default info (logLevel config));
            logFile := logFile config |}
  end.

(** buildBackendUrl: [`http://${host}:${port}`]. *)
Definition buildBackendUrl (config : ShimMCPConfig) : string :=
  "http://" +:+ default "undefined" (httpHost config) +:+ ":"
    +:+ match httpPort config with Some p => pretty p | None => "undefined" end.

(** initializeSessionMultiplexer: the multiplexer of the server.  Here and
    below [config] is [this.config], the result of
    validateAndNormalizeConfig, in which the session cap, the idle
    timeout, the buffer size, the host and the port are defined. *)
Definition initializeSessionMultiplexer {T} (config : ShimMCPConfig) : State T :=
  new {| cfg_maxConcurrentSessions := maxConcurrentSessions config;
         cfg_sessionIdleTimeout := sessionIdleTimeout config;
         cfg_flowControlWindowSize := None;
         cfg_enableFlowControl := Some true |}.

(** initializeTransportAdapter: the adapter of the server, [sessionId]
    being the id its constructor generates. *)
Definition initializeTransportAdapter (config : ShimMCPConfig) (sessionId : string)
  (clientPid : Z) : StdioTransportAdapter.State :=
  {| StdioTransportAdapter.config :=
       {| StdioTransportAdapter.bufferSize :=
            default DEFAULT_STDIO_BUFFER_SIZE (stdioBufferSize config);
          StdioTransportAdapter.backendUrl := buildBackendUrl config;
          StdioTransportAdapter.backendType := StdioTransportAdapter.HTTP;
          StdioTransportAdapter.timeout := 30000;
          StdioTransportAdapter.retryAttempts := 3;
          StdioTransportAdapter.retryDelay := 1000 |};
     StdioTransportAdapter.isStarted := false;
     StdioTransportAdapter.backendConnected := false;
     StdioTransportAdapter.sessionId := sessionId;
     StdioTransportAdapter.clientPid := clientPid;
     StdioTransportAdapter.messageBuffer := EmptyString;
     StdioTransportAdapter.websocket := None;
     StdioTransportAdapter.outboundSequence := 0;
     StdioTransportAdapter.pendingRequests := ∅;
     StdioTransportAdapter.timers := ∅;
     StdioTransportAdapter.nextTimer := O;
     StdioTransportAdapter.stdout := [];
     StdioTransportAdapter.stdout_error := None;
     StdioTransportAdapter.emitted := [] |}.

(** initializeProcessManager: a supervisor that [start] has not configured
    yet; [lock] is what the file system holds at the lock path. *)
Definition initializeProcessManager (lock : option string) (now : Z)
  : MCPProcessManager.State :=
  MCPProcessManager.new lock now.

(** The components of the server that wireComponents works on. *)
Record Components := {
  sessionMultiplexer : State StdioTransportAdapter.State;
  processManager : MCPProcessManager.State;
}.

(** The SESSION_CREATED listener of initializeSessionMultiplexer: it tells
    the process manager of the activity.  [emit] runs its listeners before
    it returns, so what the listener throws is thrown out of [emit]. *)
Definition on_session_created (now : Z) (pm : MCPProcessManager.State)
  : MCPProcessManager.State * Result unit :=
  MCPProcessManager.updateActivity now pm.

(** wireComponents: the adapter is set and a session is created for the
    client, [sessionId] being the id createSession generates.
    createSession emits SESSION_CREATED once the session is stored, and the
    listener above runs inside that [emit]: when it throws, createSession
    and wireComponents throw the same error and the session stays in the
    table.  The two listeners that wireComponents adds to the adapter are
    added after createSession has returned. *)
Definition wireComponents (adapter : StdioTransportAdapter.State) (clientPid : Z)
  (sessionId : string) (now : Z) (s : Components) : Components * Result unit :=
  let m := setTransportAdapter adapter (sessionMultiplexer s) in
  let '(m, created) := createSession clientPid sessionId now m in
  match created with
  | Throw e => ({| sessionMultiplexer := m; processManager := processManager s |}, Throw e)
  | Ok _ =>
      let '(pm, told) := on_session_created now (processManager s) in
      ({| sessionMultiplexer := m; processManager := pm |}, told)
  end.

End ShimMCPServer.

(* ===================================================================== *)
(** ** Scenarios and specification-level predicates *)
(* ===================================================================== *)

Module MultiplexerScenarios.

Import SessionMultiplexerImpl.

(** What holds of the two flow-control fields of a session. *)
Definition flag_mirrors_window (_ : bool) (w : Z) (b : bool) : Prop :=
  b = (w <=? 0) /\ 0 <= w.

(** A configuration that only sets the window size. *)
Definition window_of (n : Z) : SessionMultiplexerConfig :=
  {| cfg_maxConcurrentSessions := None; cfg_sessionIdleTimeout := None;
     cfg_flowControlWindowSize := Some n; cfg_enableFlowControl := None |}.

(** A server-initiated message for a session that has not sent anything. *)
Definition notification : MCPMessage :=
  {| ref := 0; id := None; method := Some "notifications/progress";
     params := None; result := None; error := None |}.

(** A session is created with the default window of 10 and a message is
    routed to its client. *)
Definition credit_without_request : list (Op unit) :=
  [OpSetTransportAdapter tt;
   OpCreateSession 4242 "session-1-a" 1;
   OpRouteToClient "session-1-a" notification 2].

(** A session that is backpressured has flow control enabled and a
    transport adapter set. *)
Definition queues_when_backpressured (cfg : Config) (r : bool) (_ : Z) (b : bool)
  : Prop :=
  b = true -> enableFlowControl cfg = true /\ r = true.

(** A configuration that only sets the session cap. *)
Definition cap_of (n : Z) : SessionMultiplexerConfig :=
  {| cfg_maxConcurrentSessions := Some n; cfg_sessionIdleTimeout := None;
     cfg_flowControlWindowSize := None; cfg_enableFlowControl := None |}.

(** Scenario C of the specification: a cap of two sessions. *)
Definition one_of_two : State unit :=
  run [OpCreateSession 4242 "session-1-a" 1] (new (cap_of 2)).

Definition two_of_two : State unit :=
  run [OpCreateSession 4243 "session-2-b" 2] one_of_two.

(** A request, a ping without id, and the response to the request. *)
Definition request1 : MCPMessage :=
  {| ref := 1; id := Some (IdNum 1); method := Some "tools/call";
     params := None; result := None; error := None |}.

Definition ping : MCPMessage :=
  {| ref := 2; id := None; method := Some "ping";
     params := None; result := None; error := None |}.

Definition response1 : MCPMessage :=
  {| ref := 3; id := Some (IdNum 1); method := None;
     params := None; result := Some (JObj []); error := None |}.

(** With a window of one: a request takes the credit, the caller routes the
    same [ping] object twice while the session is backpressured, and the
    response to the request brings the credit back. *)
Definition same_object_queued_twice : list (Op unit) :=
  [OpSetTransportAdapter tt;
   OpCreateSession 4242 "session-1-a" 1;
   OpRouteToBackend "session-1-a" request1 2;
   OpRouteToBackend "session-1-a" ping 3;
   OpRouteToBackend "session-1-a" ping 4;
   OpRouteToClient "session-1-a" response1 5].

(** A transport adapter is set and has the property [Q]. *)
Definition transport_satisfies {T} (Q : T -> Prop) (m : State T) : Prop :=
  exists adapter, transportAdapter m = Some adapter /\ Q adapter.

(** The queues of all sessions. *)
Definition queues {T} (m : State T) : gmap string (list MCPMessage) :=
  messageQueue <$> sessions m.

(** [m'] has handed nothing more to the transport than [m] and holds the
    same queues. *)
Definition same_traffic {T} (m m' : State T) : Prop :=
  ready m' = ready m /\ outbox m' = outbox m /\ queues m' = queues m.

(** The queue of a session, if the session exists. *)
Definition queue_of {T} (sessionId : string) (m : State T) : option (list MCPMessage) :=
  messageQueue <$> sessions m !! sessionId.

(** The scenario before the second routing of [ping], and at its end. *)
Definition backpressured_with_ping : State unit :=
  run (take 4 same_object_queued_twice) (new (window_of 1)).

Definition after_requeue : State unit :=
  run same_object_queued_twice (new (window_of 1)).





End MultiplexerScenarios.

(** *** Framing of stdin *)

Module AdapterScenarios.

Import StdioTransportAdapter.

(** The complete lines of a text, and the partial line that follows them. *)
Definition complete_lines (text : string) : list string :=
  removelast (split_lines text).

Definition partial_line (text : string) : string :=
  List.last (split_lines text) EmptyString.

(** A Message: an object whose [method] is a string, or that has its own
    [result], or its own [error]. *)
Definition is_message (j : json) : bool :=
  match j with
  | JObj fields =>
      match own_property "method" fields with
      | Some (JStr _) => true
      | _ => false
      end
      || bool_decide (is_Some (own_property "result" fields))
      || bool_decide (is_Some (own_property "error" fields))
  | _ => false
  end.





(** What an event shows of an outbound envelope, and of an error. *)
Definition outbound_of (events : list Event) : list (Z * json) :=
  omap (fun e => match e with
                 | message_outbound envelope => Some (sequence envelope, payload envelope)
                 | _ => None
                 end) events.

Definition errors_of (events : list Event) : list ShimMCPError :=
  omap (fun e => match e with ERROR err => Some err | _ => None end) events.

(** An event that, if it is an inbound message, bears the session id
    [sessionId]. *)
Definition bears_session (sessionId : string) (e : Event) : Prop :=
  match e with
  | message_inbound envelope => in_sessionId envelope = sessionId
  | _ => True
  end.


Section Lines.

Variable JSON_parse : string -> Result json.





End Lines.


(** *** Sample inputs *)

(** A double quote, and a word between double quotes. *)
Definition dq : string := String "034"%char EmptyString.
Definition quoted (s : string) : string := dq +:+ s +:+ dq.
Definition nl : string := String newline EmptyString.

(** Four lines of JSON text and the values JSON.parse gives for them. *)
Definition ping_text : string := "{" +:+ quoted "method" +:+ ":" +:+ quoted "ping" +:+ "}".
Definition ping_value : json := JObj [("method", JStr "ping")].

Definition result_text : string :=
  "{" +:+ quoted "id" +:+ ":1," +:+ quoted "result" +:+ ":{}}".
Definition result_value : json := JObj [("id", JNum 1); ("result", JObj [])].

Definition numeric_method_text : string := "{" +:+ quoted "method" +:+ ":42}".
Definition numeric_method_value : json := JObj [("method", JNum 42)].

Definition shadowing_text : string :=
  "{" +:+ quoted "result" +:+ ":1," +:+ quoted "hasOwnProperty" +:+ ":2}".
Definition shadowing_value : json :=
  JObj [("result", JNum 1); ("hasOwnProperty", JNum 2)].

Definition stale_id_text : string :=
  "{" +:+ quoted "id" +:+ ":99," +:+ quoted "result" +:+ ":1}".
Definition stale_id_value : json := JObj [("id", JNum 99); ("result", JNum 1)].

(** JSON.parse on the texts above; any other text of the samples is not
    JSON. *)
Definition sample_parse (text : string) : Result json :=
  if String.eqb text ping_text then Ok ping_value
  else if String.eqb text result_text then Ok result_value
  else if String.eqb text numeric_method_text then Ok numeric_method_value
  else if String.eqb text shadowing_text then Ok shadowing_value
  else if String.eqb text stale_id_text then Ok stale_id_value
  else Throw (NativeError "Unexpected token in JSON").

Definition sample_stringify (message : MCPMessage) : string :=
  match id message with
  | Some (IdNum n) => "{" +:+ quoted "id" +:+ ":" +:+ pretty n +:+ "}"
  | Some (IdStr s) => "{" +:+ quoted "id" +:+ ":" +:+ quoted s +:+ "}"
  | Some IdNull => "{" +:+ quoted "id" +:+ ":null}"
  | Some (IdBool b) =>
      "{" +:+ quoted "id" +:+ ":" +:+ (if b then "true" else "false") +:+ "}"
  | Some (IdRef _ text) => "{" +:+ quoted "id" +:+ ":[" +:+ text +:+ "]}"
  | None => "{}"
  end.

(** A new adapter for an HTTP backend. *)
Definition fresh_adapter : State :=
  new "http://127.0.0.1:3000" HTTP "session-9-z" 77.




Definition after_shadowing : State :=
  handleStdinData sample_parse (shadowing_text +:+ nl) 10 fresh_adapter.

(** The adapter once started against a backend that is up. *)
Definition started_adapter : State :=
  (start (fun _ => Ok tt) fresh_adapter).1.

(** The request [tools/list] with id 1, as the first envelope of the
    session, and a backend that answers every POST with the result. *)
Definition tools_list : MCPMessage :=
  {| ref := 1; id := Some (IdNum 1); method := Some "tools/list";
     params := None; result := None; error := None |}.

Definition first_envelope : SessionEnvelope MCPMessage :=
  {| Core.sessionId := "session-9-z"; sequence := 1; payload := tools_list;
     timestamp := 20 |}.

Definition answering_backend (_ : SessionEnvelope MCPMessage) : Result json :=
  Ok result_value.

Definition unused_websocket (_ : SessionEnvelope MCPMessage) : Result unit :=
  Throw (NativeError "no socket").

(** The first envelope is sent and the backend answers. *)
Definition answered : State * Result unit :=
  sendToBackend answering_backend unused_websocket 20 first_envelope started_adapter.

End AdapterScenarios.

(** *** The supervisor *)

Module SupervisorScenarios.

Import MCPProcessManager.

(** The conflict error of [start]. *)
Definition conflict : ShimMCPError :=
  ProcessError "Another MCP process instance is already running".

(** The pid a lock record holds. *)
Definition recorded_pid (lockData : json) : option json :=
  match lockData with
  | JObj fields => own_property "pid" fields
  | _ => None
  end.

Section Lock.

Variable JSON_parse : string -> Result json.
Variable process_kill0 : option json -> bool.

(** A lock file exists, holds a record, and signal 0 can be delivered to
    the pid of the record. *)
Definition lock_held (pm : State) : bool :=
  match lockFile pm with
  | None => false
  | Some content =>
      match JSON_parse content with
      | Ok JNull => false
      | Ok lockData => process_kill0 (recorded_pid lockData)
      | Throw _ => false
      end
  end.

End Lock.

(** Whether a crash observed in [pm] is followed by a restart: the policy
    is not 'never' and the counter is below the cap. *)
Definition restart_allowed (pm : State) : bool :=
  match config pm with
  | Some c =>
      bool_decide (restartPolicy c <> Some NEVER)
      && (restartCount (processStatus pm) <? default 0 (maxRestartAttempts c))
  | None => false
  end.

(** The error of the crash event. *)
Definition exit_error (code : option Z) (signal : option string) : ShimMCPError :=
  ProcessError ("Process exited unexpectedly with code " +:+ show_code code
                  +:+ ", signal " +:+ show_signal signal).

(** Sample platform: the lock record of pid 4321 parses, pid 4321 is alive
    and pid 1234 is not; spawn gives child 5000, which becomes ready. *)
Definition live_lock_text : string := "lock of 4321".
Definition stale_lock_text : string := "lock of 1234".

Definition lock_parse (text : string) : Result json :=
  if String.eqb text live_lock_text then Ok (JObj [("pid", JNum 4321)])
  else if String.eqb text stale_lock_text then Ok (JObj [("pid", JNum 1234)])
  else Throw (NativeError "Unexpected token in JSON").

Definition lock_stringify (_ : json) : string := "lock of 777".

Definition sample_kill0 (pid : option json) : bool :=
  match pid with
  | Some (JNum n) => n =? 4321
  | _ => false
  end.

Definition sample_spawn (_ : list string) : Result ChildProcess :=
  Ok {| child_pid := 5000; killed := false; exitCode := None |}.

Definition sample_ready (_ : ChildProcess) : Result unit := Ok tt.

Definition sample_config : ProcessManagerConfig :=
  {| command := ["node"; "server.js"]; workingDirectory := None;
     healthCheckUrl := None; restartPolicy := None; maxRestartAttempts := None;
     healthCheckInterval := None; idleTimeout := None |}.

(** A supervisor whose backend runs: started at time 100 without a lock
    file in the way. *)
Definition running_supervisor : State :=
  (start lock_parse lock_stringify 777 sample_kill0 sample_spawn sample_ready
         sample_config 100 (new None 0)).1.

(** The exit of the running backend with code 1 is observed. *)
Definition crashed_once : State := on_exit (Some 1) None running_supervisor.

End SupervisorScenarios.

(** *** Adapter and multiplexer wired together *)

Module GatewayScenarios.

Import SessionMultiplexerImpl.
Import AdapterScenarios.

(** The sample adapter as a transport. *)
Definition sample_stdio : TransportAdapter StdioTransportAdapter.State :=
  Gateway.stdio sample_stringify answering_backend unused_websocket.

(** A multiplexer over the started sample adapter, with the session that
    createSession made for the client: the adapter drew the id
    "session-9-z", createSession the id "session-1-a". *)
Definition wired : State StdioTransportAdapter.State :=
  @run _ sample_stdio
    [OpSetTransportAdapter started_adapter;
     OpCreateSession 77 "session-1-a" 2]
    (@new _ no_overrides).

(** What the adapter of a multiplexer has written to its client. *)
Definition written (m : State StdioTransportAdapter.State) : list string :=
  match transportAdapter m with
  | Some a => StdioTransportAdapter.stdout a
  | None => []
  end.

(** The delivery of section 4.3 of the specification, as it is worded: a
    bare backend message whose id is not in the routing table is reported
    as unroutable and nothing is written to the client. *)
Definition unroutable_as_specified (m m' : State StdioTransportAdapter.State) : Prop :=
  written m' = written m
  /\ emitted m'
     = emitted m
       ++ [ERROR (SessionError "Unable to route inbound message - no session found"
                    "unknown")].

(** A WebSocket backend that takes every frame, and the sample adapter for
    it, started. *)
Definition delivering_websocket (_ : SessionEnvelope MCPMessage) : Result unit := Ok tt.

Definition socket_stdio : TransportAdapter StdioTransportAdapter.State :=
  Gateway.stdio sample_stringify answering_backend delivering_websocket.

Definition socket_adapter : StdioTransportAdapter.State :=
  (StdioTransportAdapter.start (fun _ => Ok tt)
     (StdioTransportAdapter.new "ws://127.0.0.1:3000" StdioTransportAdapter.WEBSOCKET
        "session-9-z" 77)).1.

(** A multiplexer over the started adapter: the adapter drew the id
    "session-9-z", createSession drew "session-1-a" for the session, and
    the request [tools/list] with id 1 was routed for this session. *)
Definition wired_apart : State StdioTransportAdapter.State :=
  @run _ socket_stdio
    [OpSetTransportAdapter socket_adapter;
     OpCreateSession 77 "session-1-a" 1;
     OpRouteToBackend "session-1-a" tools_list 2]
    (@new _ no_overrides).

(** The adapter of the multiplexer, after the request was sent. *)
Definition wired_adapter : StdioTransportAdapter.State :=
  default socket_adapter (transportAdapter wired_apart).

(** The backend sends the bare reply to the request 1, and the bare frame
    with the id 99, which was never routed. *)
Definition after_bare_reply : State StdioTransportAdapter.State :=
  Gateway.on_backend_message sample_parse sample_stringify answering_backend
    delivering_websocket result_text 5 40 wired_apart.

Definition after_stale_reply : State StdioTransportAdapter.State :=
  Gateway.on_backend_message sample_parse sample_stringify answering_backend
    delivering_websocket stale_id_text 6 41 wired_apart.

(** The bare frame with the id 99, as the multiplexer receives it. *)
Definition stale_response : MCPMessage := Gateway.as_MCPMessage 6 stale_id_value.

(** The error that handleInboundMessage emits when routeToClient does not
    find the session. *)
Definition session_not_found (sessionId : string) : Event :=
  ERROR (SessionError "Failed to handle inbound message: Session not found" sessionId).

End GatewayScenarios.

(* ===================================================================== *)
(** ** Observations on the session table *)
(* ===================================================================== *)

Module SessionTable.

Import SessionMultiplexerImpl.

(** The fields of a session that are written once, by createSession. *)
Definition identity (s : ActiveSession) : string * Z * Z * bool :=
  (session_id s, clientPid s, startTime s, isActive s).

Definition identities {T} (m : State T) : gmap string (string * Z * Z * bool) :=
  identity <$> sessions m.

(** [m'] has the configuration and the sessions of [m], up to the fields
    that change with traffic, and every routing entry of [m'] is one of [m]
    or points to a session of [m]. *)
Definition steady {T} (m m' : State T) : Prop :=
  config m' = config m /\ identities m' = identities m
  /\ forall messageId sessionId,
       messageRoutes m' !! messageId = Some sessionId ->
       messageRoutes m !! messageId = Some sessionId
       \/ is_Some (sessions m !! sessionId).

(** Every routing entry points to a session of the table; a session is
    stored under its own id and is active; the table is within the cap. *)
Definition table_invariant {T} (m : State T) : Prop :=
  (forall messageId sessionId,
     messageRoutes m !! messageId = Some sessionId -> is_Some (sessions m !! sessionId))
  /\ (forall sessionId s,
        sessions m !! sessionId = Some s -> session_id s = sessionId /\ isActive s = true)
  /\ Z.of_nat (size (sessions m)) <= Z.max 0 (maxConcurrentSessions (config m)).

(** The sequence numbers of the envelopes handed to the transport for a
    session, in order. *)
Definition sequences_of {T} (sessionId : string) (m : State T) : list Z :=
  sequence <$> filter (fun e => Core.sessionId e = sessionId) (outbox m).

(** [m'] has handed nothing more to the transport than [m], and its
    sessions are at the same sequence numbers. *)
Definition same_numbering {T} (m m' : State T) : Prop :=
  lastSequence <$> sessions m' = lastSequence <$> sessions m
  /\ outbox m' = outbox m.

(** The last envelopes of every session are numbered 1, 2, ... up to the
    [lastSequence] of the session. *)
Definition numbered_from_one {T} (m : State T) : Prop :=
  forall sessionId s,
    sessions m !! sessionId = Some s ->
    0 <= lastSequence s
    /\ seqZ 1 (lastSequence s) `suffix_of` sequences_of sessionId m.

(** Whether cleanupIdleSessions finds a session idle at [now]. *)
Definition idle (timeout now : Z) (s : ActiveSession) : bool :=
  timeout <? now - lastActivity s.

End SessionTable.

(** *** Sample transports and states of the multiplexer *)

Module TableScenarios.

Import SessionMultiplexerImpl.
Import MultiplexerScenarios.

(** A transport whose backend is down: a send to the backend fails, a send
    to the client succeeds. *)
Inductive Outage := outage.

Definition backend_down_error : ShimMCPError :=
  TransportError "Backend not connected" "session-1-a".

#[export] Instance backend_down : TransportAdapter Outage :=
  {| sendToClient := fun _ _ _ (t : Outage) => (t, Ok tt);
     sendToBackend := fun _ _ (t : Outage) => (t, Throw backend_down_error) |}.

(** One session over the transport that is down. *)
Definition session_without_backend : State Outage :=
  run [OpSetTransportAdapter outage; OpCreateSession 4242 "session-1-a" 1]
      (new no_overrides).

(** With a window of one: a request takes the credit, and a ping and a
    notification are queued behind it. *)
Definition two_queued : State unit :=
  run [OpSetTransportAdapter tt;
       OpCreateSession 4242 "session-1-a" 1;
       OpRouteToBackend "session-1-a" request1 2;
       OpRouteToBackend "session-1-a" ping 3;
       OpRouteToBackend "session-1-a" notification 4]
      (new (window_of 1)).

(** The caller routes a second request with the id of [request1] while the
    first is pending; the window is large enough for both. *)
Definition request1_again : MCPMessage :=
  {| ref := 5; id := Some (IdNum 1); method := Some "tools/call";
     params := None; result := None; error := None |}.

Definition one_pending : State unit :=
  run [OpSetTransportAdapter tt;
       OpCreateSession 4242 "session-1-a" 1;
       OpRouteToBackend "session-1-a" request1 2]
      (new no_overrides).

(** The text of a message id in an error message. *)
Definition show_id (messageId : MsgId) : string :=
  match messageId with
  | IdStr s => s
  | IdNum n => pretty n
  | IdNull => "null"
  | IdBool b => if b then "true" else "false"
  | IdRef _ text => text
  end.

(** The timeout error of a request. *)
Definition request_timeout_error (sessionId : string) (messageId : MsgId) : Event :=
  ERROR (SessionError ("Request timeout for message " +:+ show_id messageId) sessionId).

End TableScenarios.

(** *** Sample adapters *)

Module LifecycleScenarios.

Import StdioTransportAdapter.
Import AdapterScenarios.

(** A backend that accepts every connection. *)
Definition reachable_backend (_ : BackendType) : Result unit := Ok tt.

(** An adapter started over a WebSocket. *)
Definition started_socket_adapter : State :=
  (start reachable_backend (new "ws://127.0.0.1:3000" WEBSOCKET "session-9-z" 77)).1.

(** The beginning of a line, without newline. *)
Definition partial_chunk : string := "{" +:+ quoted "method".

(** What handleStdinData reads of the adapter: the buffer, the sequence
    counter and the session id. *)
Definition stdin_state (a : State) : string * Z * string :=
  (messageBuffer a, outboundSequence a, sessionId a).

(** The events that handleStdinData emits for a chunk. *)
Definition stdin_events (JSON_parse : string -> Result json) (chunk : string) (now : Z)
  (a : State) : list Event :=
  drop (length (emitted a)) (emitted (handleStdinData JSON_parse chunk now a)).

End LifecycleScenarios.

(** *** The restart budget of the supervisor *)

Module SupervisorHistories.

Import MCPProcessManager.
Import SupervisorScenarios.

(** The cap on restarts that [start] configures. *)
Definition restart_cap (config : ProcessManagerConfig) : Z :=
  Z.max 0 (default DEFAULT_MAX_RESTART_ATTEMPTS (maxRestartAttempts config)).

(** The supervisor is configured with [c]; its restart counter is within
    [cap]; and every spawn but the first, done or still to come after a
    backoff, was counted. *)
Definition within_budget (c : ProcessManagerConfig) (cap : Z) (pm : State) : Prop :=
  config pm = Some c
  /\ 0 <= restartCount (processStatus pm) <= cap
  /\ Z.of_nat (length (spawned pm) + length (backoff pm))
     <= 1 + restartCount (processStatus pm).

(** The record that createLockFile writes. *)
Definition lock_record (pid now : Z) (command : list string) : json :=
  JObj [("pid", JNum pid); ("startTime", JNum now); ("command", JArr (JStr <$> command))].

(** Sample platform of a supervisor with pid 777, which is alive: every
    record is written as the same text, which parses to a record of pid
    777. *)
Definition own_lock_parse (text : string) : Result json :=
  if String.eqb text "lock of 777" then Ok (JObj [("pid", JNum 777)])
  else Throw (NativeError "Unexpected token in JSON").

Definition own_kill0 (pid : option json) : bool :=
  match pid with
  | Some (JNum n) => n =? 777
  | _ => false
  end.

(** A child that cannot be signalled, and one that can. *)
Definition kill_refused (_ : ChildProcess) (_ : Signal) : Result unit :=
  Throw (NativeError "kill EPERM").

Definition kill_delivered (_ : ChildProcess) (_ : Signal) : Result unit := Ok tt.

(** A spawn that fails. *)
Definition spawn_fails (_ : list string) : Result ChildProcess :=
  Throw (NativeError "spawn node ENOENT").

(** A new supervisor with the sample configuration, and its startProcess
    on a platform where spawn fails. *)
Definition configured_supervisor : State :=
  set_config (Some (merge_config sample_config)) (new None 0).

Definition failed_start : State * Result unit :=
  startProcess lock_stringify 777 spawn_fails sample_ready 100 configured_supervisor.

(** The child of the sample platform. *)
Definition sample_child : ChildProcess :=
  {| child_pid := 5000; killed := false; exitCode := None |}.

(** The running supervisor is stopped by force. *)
Definition forced_stop : State * Completion unit :=
  stop kill_delivered true None running_supervisor.

(** stop() is called while the restart of [crashed_once] waits for its
    backoff. *)
Definition stopped_while_waiting : State * Completion unit :=
  stop kill_delivered false None crashed_once.

(** Another supervisor finds the lock file of pid 777. *)
Definition second_supervisor : State := new (Some "lock of 777") 0.

End SupervisorHistories.

(** *** Sample inputs of the utilities and of the server *)

Module ServerScenarios.

Import SessionMultiplexerImpl.
Import AdapterScenarios.

(** The delays of retryWithBackoff before the attempts 2, ..., [k]. *)
Definition backoff_delays (baseDelayMs backoffFactor k : Z) : list Z :=
  (fun i => baseDelayMs * backoffFactor ^ i) <$> seqZ 0 (k - 1).

(** A function that fails twice and then succeeds, and one that always
    fails. *)
Definition third_time_lucky (attempt : Z) : Result string :=
  if attempt <? 3 then Throw (NativeError ("attempt " +:+ pretty attempt))
  else Ok "done".

Definition never_lucky (attempt : Z) : Result string :=
  Throw (NativeError ("attempt " +:+ pretty attempt)).

(** How validateAndNormalizeConfig fills a setting in: a number that is
    missing or 0, and a text that is missing or empty, give way to the
    default; a setting of the backend or the log level gives way only when
    it is missing. *)
Definition number_setting (fallback : Z) (given result : option Z) : Prop :=
  (forall n, given = Some n -> n <> 0 -> result = Some n)
  /\ (given = None \/ given = Some 0 -> result = Some fallback).

Definition text_setting (fallback : string) (given result : option string) : Prop :=
  (forall text, given = Some text -> text <> EmptyString -> result = Some text)
  /\ (given = None \/ given = Some EmptyString -> result = Some fallback).

Definition kept_or {A} (fallback : A) (given result : option A) : Prop :=
  (forall value, given = Some value -> result = Some value)
  /\ (given = None -> result = Some fallback).

(** The components as [start] has them when it calls wireComponents: the
    multiplexer of the configuration and a supervisor without
    configuration. *)
Definition initialized (config : ShimMCPServer.ShimMCPConfig) (lock : option string)
  (created : Z) : ShimMCPServer.Components :=
  {| ShimMCPServer.sessionMultiplexer := ShimMCPServer.initializeSessionMultiplexer config;
     ShimMCPServer.processManager := ShimMCPServer.initializeProcessManager lock created |}.

(** The TypeError of resetIdleTimer on a supervisor without configuration. *)
Definition no_configuration : ShimMCPError :=
  NativeError "Cannot read properties of undefined (reading 'idleTimeout')".

(** A configuration that names the backend command and nothing else, and
    one that sets port, session cap and restart cap to 0. *)
Definition backend_only : ShimMCPServer.ShimMCPConfig :=
  {| ShimMCPServer.stdioBufferSize := None; ShimMCPServer.httpPort := None;
     ShimMCPServer.httpHost := None;
     ShimMCPServer.backend := Some SupervisorScenarios.sample_config;
     ShimMCPServer.sessionIdleTimeout := None;
     ShimMCPServer.maxConcurrentSessions := None;
     ShimMCPServer.backendAdapter := None; ShimMCPServer.logLevel := None;
     ShimMCPServer.logFile := None |}.

Definition zeros : ShimMCPServer.ShimMCPConfig :=
  {| ShimMCPServer.stdioBufferSize := Some 0; ShimMCPServer.httpPort := Some 0;
     ShimMCPServer.httpHost := Some EmptyString;
     ShimMCPServer.backend := Some SupervisorScenarios.sample_config;
     ShimMCPServer.sessionIdleTimeout := Some 0;
     ShimMCPServer.maxConcurrentSessions := Some 0;
     ShimMCPServer.backendAdapter := None; ShimMCPServer.logLevel := None;
     ShimMCPServer.logFile := None |}.

(** The normalized sample configuration. *)
Definition normalized_backend_only : ShimMCPServer.ShimMCPConfig :=
  match ShimMCPServer.validateAndNormalizeConfig backend_only with
  | ShimMCPServer.Normalized config => config
  | ShimMCPServer.INVALID_CONFIG _ => backend_only
  end.

Definition normalized_zeros : ShimMCPServer.ShimMCPConfig :=
  match ShimMCPServer.validateAndNormalizeConfig zeros with
  | ShimMCPServer.Normalized config => config
  | ShimMCPServer.INVALID_CONFIG _ => zeros
  end.

(** wireComponents on the components of the sample configuration: the
    adapter generated the id "session-9-z", createSession the id
    "session-9-y". *)
Definition wired_server : ShimMCPServer.Components * Result unit :=
  ShimMCPServer.wireComponents
    (ShimMCPServer.initializeTransportAdapter normalized_backend_only "session-9-z" 77)
    77 "session-9-y" 9 (initialized normalized_backend_only None 8).

End ServerScenarios.

(* ===================================================================== *)
(** * Properties of the session multiplexer *)
(* ===================================================================== *)

Module MultiplexerProofs.

Import SessionMultiplexerImpl.
Import MultiplexerScenarios.

(** *** Generated session ids *)






Section Frame.
Context {T : Type} `{!TransportAdapter T}.
Implicit Types m : State T.

Lemma clear_pending_frame (p : gmap MsgId PendingRequest) m :
  let m' := map_fold (fun _ q acc => clearTimeout (pr_timeout q) acc) m p in
  config m' = config m /\ sessions m' = sessions m
  /\ transportAdapter m' = transportAdapter m
  /\ messageRoutes m' = messageRoutes m /\ emitted m' = emitted m
  /\ outbox m' = outbox m.
Proof.
  apply (map_fold_weak_ind (fun acc _ =>
    config acc = config m /\ sessions acc = sessions m
    /\ transportAdapter acc = transportAdapter m
    /\ messageRoutes acc = messageRoutes m /\ emitted acc = emitted m
    /\ outbox acc = outbox m)).
  - done.
  - intros i x p' r _ IH. exact IH.
Qed.

Lemma destroySession_sessions sid m :
  sessions (destroySession sid m) = delete sid (sessions m).
Proof.
  unfold destroySession. destruct (sessions m !! sid) as [s|] eqn:E.
  - cbn. by destruct (clear_pending_frame (pendingRequests s) m) as (_ & -> & _).
  - by rewrite delete_id.
Qed.



Lemma destroySession_config sid m : config (destroySession sid m) = config m.
Proof.
  unfold destroySession. destruct (sessions m !! sid) as [s|]; [|done].
  cbn. by destruct (clear_pending_frame (pendingRequests s) m) as (-> & _).
Qed.

End Frame.

Section Flows.
Context {T : Type} `{!TransportAdapter T}.
Implicit Types m : State T.

Lemma same_flow_refl m : same_flow m m.
Proof. by repeat split. Qed.

Lemma same_flow_trans m1 m2 m3 : same_flow m1 m2 -> same_flow m2 m3 -> same_flow m1 m3.
Proof. intros (?&?&?) (?&?&?). repeat split; congruence. Qed.

Lemma flows_with_session sid f (g : Z * bool -> Z * bool) m :
  (forall s, flow (f s) = g (flow s)) ->
  flows (with_session sid f m) = alter g sid (flows m).
Proof.
  intros Hfg. unfold flows, with_session. cbn. apply map_eq. intros k.
  rewrite lookup_fmap, !lookup_alter, !lookup_fmap.
  case_decide; [|done]. destruct (sessions m !! sid); cbn; [|done].
  by rewrite Hfg.
Qed.

Lemma same_flow_with_session sid f m :
  (forall s, flow (f s) = flow s) -> same_flow m (with_session sid f m).
Proof.
  intros Hf. repeat split.
  rewrite (flows_with_session sid f (fun x => x)) by exact Hf. apply alter_id. done.
Qed.

Lemma same_flow_setupRequestTimeout sid mid now m :
  same_flow m (setupRequestTimeout sid mid now m).
Proof.
  unfold setupRequestTimeout. destruct (sessions m !! sid); [|apply same_flow_refl].
  cbn. eapply same_flow_trans; [|by apply same_flow_with_session]. by repeat split.
Qed.

Lemma same_flow_clearRequestTimeout sid mid m :
  same_flow m (clearRequestTimeout sid mid m).
Proof.
  unfold clearRequestTimeout. destruct (sessions m !! sid) as [s|]; [|apply same_flow_refl].
  destruct (pendingRequests s !! mid); [|apply same_flow_refl].
  eapply same_flow_trans; [|by apply same_flow_with_session]. by repeat split.
Qed.

Lemma same_flow_updateSessionActivity sid now m :
  same_flow m (updateSessionActivity sid now m).
Proof. by apply same_flow_with_session. Qed.

Lemma same_flow_track_request sid msg now m : same_flow m (track_request sid msg now m).
Proof.
  unfold track_request. destruct (id msg); [|apply same_flow_refl].
  eapply same_flow_trans; [|apply same_flow_setupRequestTimeout]. by repeat split.
Qed.

Lemma same_flow_clear_tracking sid msg m : same_flow m (clear_tracking sid msg m).
Proof.
  unfold clear_tracking. destruct (id msg); [|apply same_flow_refl].
  eapply same_flow_trans; [apply same_flow_clearRequestTimeout|]. by repeat split.
Qed.

Lemma same_flow_enqueue sid msg m : same_flow m (enqueue sid msg m).
Proof. by apply same_flow_with_session. Qed.

Lemma same_flow_emit e m : same_flow m (emit e m).
Proof. by repeat split. Qed.

End Flows.

Section SessionInvariant.
Context {T : Type} `{!TransportAdapter T}.
Implicit Types m : State T.

Variable cfg : Config.
Variable P : bool -> Z -> bool -> Prop.
Hypothesis P_ready : forall w b, P false w b -> P true w b.
Hypothesis P_new : forall r, P r (flowControlWindowSize cfg) false.
Hypothesis P_consume : enableFlowControl cfg = true ->
  forall w, P true w false -> P true (w - 1) (if w - 1 <=? 0 then true else false).
Hypothesis P_restore : enableFlowControl cfg = true ->
  forall w b, P true w b -> P true (w + 1) (w + 1 <=? 0).
Hypothesis P_credit : enableFlowControl cfg = true ->
  forall w b, P true w b -> P true (w + 1) (if b && (0 <? w + 1) then false else b).

#[local] Abbreviation inv := (session_invariant cfg P).

Lemma inv_sub m m' :
  config m' = config m -> ready m' = ready m -> flows m' ⊆ flows m ->
  inv m -> inv m'.
Proof.
  intros Hc Hr Hsub [Hcfg Hsat]. split; [congruence|].
  intros sid w b Hl. rewrite Hr. eapply Hsat.
  eapply lookup_weaken; eauto.
Qed.

Lemma inv_same m m' : same_flow m m' -> inv m -> inv m'.
Proof. intros (Hc & Hr & Hf). apply inv_sub; [done..|by rewrite Hf]. Qed.

Lemma inv_alter sid f (g : Z * bool -> Z * bool) m :
  (forall s, flow (f s) = g (flow s)) ->
  (forall w b, flows m !! sid = Some (w, b) -> P (ready m) w b ->
               P (ready m) (g (w, b)).1 (g (w, b)).2) ->
  inv m -> inv (with_session sid f m).
Proof.
  intros Hfg Hg [Hcfg Hsat]. split; [done|].
  intros k w b. rewrite (flows_with_session sid f g) by exact Hfg.
  change (ready (with_session sid f m)) with (ready m).
  rewrite lookup_alter. case_decide as Hk.
  - subst k. destruct (flows m !! sid) as [[w0 b0]|] eqn:Hl; cbn; [|done].
    intros [= Heq]. specialize (Hg w0 b0 eq_refl (Hsat _ _ _ Hl)).
    rewrite Heq in Hg. exact Hg.
  - apply Hsat.
Qed.

Lemma flows_lookup sid s m :
  sessions m !! sid = Some s -> flows m !! sid = Some (flow s).
Proof. intros Hs. unfold flows. by rewrite lookup_fmap, Hs. Qed.

Lemma inv_send_envelope session adapter sid msg now m :
  ready m = true -> inv m -> inv (send_envelope session adapter sid msg now m).1.
Proof.
  intros Hr Hinv. unfold send_envelope.
  destruct (sendToBackend now _ adapter) as [adapter' r].
  set (m1 := set_transportAdapter _ _).
  assert (Hm1 : inv m1).
  { eapply inv_same; [|exact Hinv]. subst m1.
    eapply same_flow_trans; [by apply (same_flow_with_session sid (set_lastSequence (lastSequence session + 1)))|].
    repeat split. cbn. unfold ready in *. cbn. by destruct (transportAdapter m). }
  assert (Hr1 : ready m1 = true) by done.
  destruct r as [|e]; [exact Hm1|]. cbn [fst].
  destruct (enableFlowControl (config m1)) eqn:HeFC; [|exact Hm1].
  apply (inv_alter sid restore_credit
           (fun x => (x.1 + 1, x.1 + 1 <=? 0))); [done| |exact Hm1].
  intros w b _. rewrite Hr1. cbn. apply P_restore.
  destruct Hm1 as [<- _]. exact HeFC.
Qed.

Lemma inv_routeToBackend sid msg now m :
  inv m -> inv (routeToBackend sid msg now m).1.
Proof.
  intros Hinv. unfold routeToBackend.
  destruct (sessions m !! sid) as [session|] eqn:Hs; [|done].
  destruct (transportAdapter m) as [adapter|] eqn:Ha; [|done].
  assert (Hready : ready m = true) by (unfold ready; by rewrite Ha).
  cbv zeta.
  pose proof (same_flow_updateSessionActivity sid now m) as H1.
  set (m1 := updateSessionActivity sid now m) in *.
  destruct (enableFlowControl (config m1) && backpressure session) eqn:Hbp.
  - eapply inv_same; [|exact Hinv].
    eapply same_flow_trans; [exact H1|apply same_flow_enqueue].
  - pose proof (same_flow_track_request sid msg now m1) as H2.
    set (m2 := track_request sid msg now m1) in *.
    pose proof (same_flow_trans _ _ _ H1 H2) as (Hc2 & Hr2 & Hf2).
    assert (Hinv2 : inv m2) by (eapply inv_same; [|exact Hinv]; by repeat split).
    apply inv_send_envelope.
    + unfold apply_flow_control. destruct (enableFlowControl (config m2)); [|congruence].
      change (ready (with_session sid consume_credit m2)) with (ready m2). congruence.
    + unfold apply_flow_control. destruct (enableFlowControl (config m2)) eqn:HeFC; [|done].
      apply (inv_alter sid consume_credit
               (fun x => (x.1 - 1, if x.1 - 1 <=? 0 then true else x.2)));
        [done| |exact Hinv2].
      intros w b Hl _. rewrite Hf2, (flows_lookup _ _ _ Hs) in Hl.
      injection Hl as <- <-. cbn.
      destruct H1 as (Hc1 & _). rewrite Hc1, <- Hc2, HeFC in Hbp. cbn in Hbp.
      rewrite Hbp. rewrite Hr2, Hready. apply P_consume.
      * destruct Hinv2 as [<- _]. exact HeFC.
      * destruct Hinv as [_ Hsat]. rewrite <- Hbp, <- Hready.
        apply (Hsat sid). by apply flows_lookup.
Qed.


Lemma inv_flush_loop sid now messages rest m :
  inv m -> inv (flush_loop sid now messages rest m).
Proof.
  revert m. induction rest as [|message rest IH]; intros m Hinv; cbn; [done|].
  destruct (sessions m !! sid) as [session|]; [|done].
  destruct (backpressure session).
  - eapply inv_same; [|exact Hinv]. by apply same_flow_with_session.
  - pose proof (inv_routeToBackend sid message now m Hinv) as Hrtb.
    destruct (routeToBackend sid message now m) as [m' [|e]]; cbn in Hrtb; apply IH.
    + exact Hrtb.
    + eapply inv_same; [apply same_flow_emit|exact Hrtb].
Qed.

Lemma inv_processQueuedMessages sid now m :
  inv m -> inv (processQueuedMessages sid now m).
Proof.
  intros Hinv. unfold processQueuedMessages.
  destruct (sessions m !! sid) as [session|]; [|done].
  destruct (messageQueue session) as [|message rest]; [done|].
  apply inv_flush_loop. eapply inv_same; [|exact Hinv].
  by apply same_flow_with_session.
Qed.

Lemma inv_update_flow_control session sid now m :
  ready m = true -> flows m !! sid = Some (flow session) ->
  inv m -> inv (update_flow_control session sid now m).
Proof.
  intros Hr Hl Hinv. unfold update_flow_control.
  destruct (enableFlowControl (config m)) eqn:HeFC; [|done].
  assert (HeFC' : enableFlowControl cfg = true) by (destruct Hinv as [<- _]; done).
  assert (HP : P true (flowControlWindow session) (backpressure session)).
  { destruct Hinv as [_ Hsat]. rewrite <- Hr. by apply (Hsat sid). }
  pose proof (P_credit HeFC' _ _ HP) as Hcredit.
  destruct (backpressure session && (0 <? flowControlWindow session + 1)) eqn:Hrelief.
  - apply inv_processQueuedMessages.
    apply (inv_alter sid _ (fun _ => (flowControlWindow session + 1, false)));
      [done| |exact Hinv].
    intros w b _ _. rewrite Hr. exact Hcredit.
  - apply (inv_alter sid _
             (fun _ => (flowControlWindow session + 1, backpressure session)));
      [done| |exact Hinv].
    intros w b _ _. rewrite Hr. exact Hcredit.
Qed.

Lemma same_flow_deliver sid msg now m :
  ready m = true -> same_flow m (deliver sid msg now m).1.
Proof.
  intros Hr. unfold deliver. destruct (transportAdapter m) eqn:Ha; [|apply same_flow_refl].
  destruct (sendToClient now sid msg t) as [adapter' r].
  assert (same_flow m (set_transportAdapter (Some adapter') m)).
  { repeat split. unfold ready. cbn. by rewrite Ha. }
  by destruct r.
Qed.

Lemma inv_routeToClient sid msg now m :
  inv m -> inv (routeToClient sid msg now m).1.
Proof.
  intros Hinv. unfold routeToClient.
  destruct (sessions m !! sid) as [session|] eqn:Hs; [|done].
  destruct (transportAdapter m) as [adapter|] eqn:Ha; [|done].
  assert (Hready : ready m = true) by (unfold ready; by rewrite Ha).
  cbv zeta.
  pose proof (same_flow_trans _ _ _ (same_flow_updateSessionActivity sid now m)
                (same_flow_clear_tracking sid msg (updateSessionActivity sid now m)))
    as H2.
  set (m2 := clear_tracking sid msg (updateSessionActivity sid now m)) in *.
  assert (Hinv3 : inv (update_flow_control session sid now m2)).
  { destruct H2 as (Hc2 & Hr2 & Hf2). apply inv_update_flow_control.
    - congruence.
    - rewrite Hf2. by apply flows_lookup.
    - eapply inv_same; [|exact Hinv]. by repeat split. }
  destruct (ready (update_flow_control session sid now m2)) eqn:Hr3.
  - eapply inv_same; [by apply same_flow_deliver|exact Hinv3].
  - unfold deliver. unfold ready in Hr3.
    by destruct (transportAdapter (update_flow_control session sid now m2)).
Qed.

Lemma inv_createSession clientPid sid now m :
  inv m -> inv (createSession clientPid sid now m).1.
Proof.
  intros [Hcfg Hsat]. unfold createSession.
  destruct (_ >=? _); [done|]. split; [done|].
  intros k w b. unfold flows. cbn. rewrite fmap_insert, lookup_insert.
  case_decide.
  - intros [= <- <-]. rewrite Hcfg. apply P_new.
  - apply Hsat.
Qed.

Lemma inv_destroySession sid m : inv m -> inv (destroySession sid m).
Proof.
  intros Hinv. unfold destroySession. destruct (sessions m !! sid) as [s|]; [|done].
  destruct (clear_pending_frame (pendingRequests s) m) as (Hc & Hs & Ha & _).
  eapply inv_sub; [| | |exact Hinv]; cbn.
  - exact Hc.
  - unfold ready. cbn. by rewrite Ha.
  - unfold flows. cbn. rewrite Hs, fmap_delete. apply delete_subseteq.
Qed.

Lemma inv_destroy_each (f : string * ActiveSession -> bool)
  (l : list (string * ActiveSession)) m :
  inv m ->
  inv (foldr (fun kv acc => if f kv then destroySession kv.1 acc else acc) m l).
Proof.
  intros Hinv. induction l as [|kv l IH]; cbn; [done|].
  destruct (f kv); [by apply inv_destroySession|done].
Qed.

Lemma inv_cleanupIdleSessions now m : inv m -> inv (cleanupIdleSessions now m).
Proof. intros Hinv. unfold cleanupIdleSessions. by apply inv_destroy_each. Qed.

Lemma inv_destroy m : inv m -> inv (destroy m).
Proof.
  intros Hinv. unfold destroy.
  apply (inv_destroy_each (fun _ => true)).
  eapply inv_same; [|exact Hinv]. by repeat split.
Qed.

Lemma inv_fireTimer t m : inv m -> inv (fireTimer t m).
Proof.
  intros Hinv. unfold fireTimer. destruct (timers m !! t) as [[sid mid]|]; [|done].
  eapply inv_same; [|exact Hinv].
  eapply same_flow_trans; [|apply same_flow_emit].
  eapply same_flow_trans; [|apply same_flow_clearRequestTimeout]. by repeat split.
Qed.

Lemma inv_handleInboundMessage sid payload now m :
  inv m -> inv (handleInboundMessage sid payload now m).
Proof.
  intros Hinv. unfold handleInboundMessage.
  destruct (truthy _) as [target|].
  - pose proof (inv_routeToClient target payload now m Hinv) as Hrtc.
    destruct (routeToClient target payload now m) as [m' [|e]]; [done|].
    eapply inv_same; [apply same_flow_emit|exact Hrtc].
  - eapply inv_same; [apply same_flow_emit|exact Hinv].
Qed.

Lemma inv_handleOutboundMessage sid payload now m :
  inv m -> inv (handleOutboundMessage sid payload now m).
Proof.
  intros Hinv. unfold handleOutboundMessage.
  pose proof (inv_routeToBackend sid payload now m Hinv) as Hrtb.
  destruct (routeToBackend sid payload now m) as [m' [|e]]; [done|].
  eapply inv_same; [apply same_flow_emit|exact Hrtb].
Qed.

Lemma inv_setTransportAdapter adapter m : inv m -> inv (setTransportAdapter adapter m).
Proof.
  intros [Hcfg Hsat]. split; [done|]. intros sid w b Hl.
  change (ready (setTransportAdapter adapter m)) with true.
  specialize (Hsat sid w b Hl). destruct (ready m); [done|by apply P_ready].
Qed.

Lemma inv_apply m op : inv m -> inv (apply m op).
Proof.
  destruct op; cbn.
  - apply inv_setTransportAdapter.
  - apply inv_createSession.
  - apply inv_destroySession.
  - apply inv_routeToBackend.
  - apply inv_routeToClient.
  - apply inv_handleInboundMessage.
  - apply inv_handleOutboundMessage.
  - apply inv_fireTimer.
  - apply inv_cleanupIdleSessions.
  - apply inv_destroy.
Qed.

Lemma inv_run ops m : inv m -> inv (run ops m).
Proof.
  revert m. induction ops as [|op ops IH]; intros m Hinv; cbn; [done|].
  apply IH. by apply inv_apply.
Qed.

End SessionInvariant.


(** *** The flow-control invariant (C1) *)

Section FlowControl.
Context {T : Type} `{!TransportAdapter T}.
Implicit Types m : State T.

Lemma new_invariant (config : SessionMultiplexerConfig) P :
  session_invariant (merge_config config) P (new (T := T) config).
Proof. split; [done|]. intros sid w b. unfold flows. cbn. by rewrite fmap_empty. Qed.

(** C1 (amended): from a window size of at least one, after any history of
    public operations, listener calls, timer firings and cleanup ticks, the
    backpressure flag of every session equals [flowControlWindow <= 0] and
    the window is not negative. *)
Theorem flow_control_invariant (config : SessionMultiplexerConfig) (ops : list (Op T))
  (sessionId : string) (session : ActiveSession) :
  1 <= flowControlWindowSize (merge_config config) ->
  sessions (run ops (new config)) !! sessionId = Some session ->
  backpressure session = (flowControlWindow session <=? 0)
  /\ 0 <= flowControlWindow session.
Proof.
  intros Hsize Hs.
  assert (Hinv : session_invariant (merge_config config) flag_mirrors_window
                   (run ops (new config))).
  { apply inv_run; try apply new_invariant; unfold flag_mirrors_window.
    - done.
    - intros _. split; [symmetry; apply Z.leb_gt|]; lia.
    - intros _ w [Hb Hw]. symmetry in Hb. apply Z.leb_gt in Hb.
      split; [by destruct (w - 1 <=? 0)|lia].
    - intros _ w b [_ Hw]. split; [done|lia].
    - intros _ w b [Hb Hw].
      assert (Hpos : (0 <? w + 1) = true) by (apply Z.ltb_lt; lia).
      assert (Hle : (w + 1 <=? 0) = false) by (apply Z.leb_gt; lia).
      rewrite Hpos, Hle. split; [by destruct b|lia]. }
  destruct Hinv as [_ Hsat].
  apply (Hsat sessionId). by apply flows_lookup.
Qed.

End FlowControl.

(** Witness of [flow_control_invariant]: the default configuration. *)
Lemma flow_control_invariant_witness :
  exists session,
    sessions (run credit_without_request (new no_overrides)) !! "session-1-a"
      = Some session
    /\ backpressure session = (flowControlWindow session <=? 0)
    /\ 0 <= flowControlWindow session.
Proof.
  eexists. split; [vm_compute; reflexivity|].
  apply (flow_control_invariant no_overrides credit_without_request "session-1-a").
  - vm_compute. discriminate.
  - vm_compute. reflexivity.
Defined.

(** C1, as stated, fails: routeToClient adds a credit whether or not one was
    consumed, so the window of the session reaches 11 with a configured size
    of 10. *)
Lemma window_exceeds_configured_size :
  ~ window_invariant_as_specified (run credit_without_request (new no_overrides)).
Proof.
  intros H.
  destruct (sessions (run credit_without_request (new no_overrides)) !! "session-1-a")
    as [session|] eqn:Hs; [|by vm_compute in Hs].
  destruct (H _ _ Hs) as [_ [_ Hupper]].
  vm_compute in Hs. injection Hs as <-. vm_compute in Hupper. by apply Hupper.
Qed.

(** The lower part needs a window size of at least one: with a size of 0 a
    new session has no credit and is not flagged. *)
Example zero_window_session :
  exists session,
    sessions (run [OpCreateSession 4242 "session-1-a" 1]
                  (new (T := unit) (window_of 0))) !! "session-1-a"
      = Some session
    /\ flowControlWindow session = 0 /\ backpressure session = false.
Proof. eexists. split; [vm_compute; reflexivity|done]. Qed.

(** *** The session cap *)



(** *** Queueing under backpressure (C10) *)

Section Backpressured.
Context {T : Type} `{!TransportAdapter T}.
Implicit Types m : State T.

Lemma alter_lookup_insert {A} (f : A -> A) (k : string) (x : A) (M : gmap string A) :
  M !! k = Some x -> alter f k M = <[k := f x]> M.
Proof.
  intros Hk. apply map_eq. intros j. rewrite lookup_alter, lookup_insert.
  case_decide; [|done]. by rewrite Hk.
Qed.

Lemma routeToBackend_queues sid session adapter message now m :
  sessions m !! sid = Some session ->
  transportAdapter m = Some adapter ->
  enableFlowControl (config m) = true ->
  backpressure session = true ->
  routeToBackend sid message now m =
    (set_sessions
       (<[sid := set_messageQueue (messageQueue session ++ [message])
                   (set_lastActivity now session)]> (sessions m)) m,
     Ok tt).
Proof.
  intros Hs Ha HeFC Hbp. unfold routeToBackend. rewrite Hs, Ha. cbv zeta.
  change (config (updateSessionActivity sid now m)) with (config m).
  rewrite HeFC, Hbp. cbn [andb]. f_equal.
  unfold enqueue, updateSessionActivity, with_session. cbn.
  rewrite alter_alter_eq. by rewrite (alter_lookup_insert _ sid session).
Qed.

(** C10: routeToBackend on a backpressured session of any reachable
    multiplexer returns normally, appends the message to the queue of the
    session and records the activity; the window, the sequence counter and
    the pending requests of the session, the other sessions, the routing
    table, the armed timers and what was handed to the transport are
    unchanged. *)
Theorem routeToBackend_backpressured_frame (config : SessionMultiplexerConfig)
  (ops : list (Op T)) (sessionId : string) (session : ActiveSession)
  (message : MCPMessage) (now : Z) :
  let m := run ops (new config) in
  let m' := (routeToBackend sessionId message now m).1 in
  sessions m !! sessionId = Some session ->
  backpressure session = true ->
  (routeToBackend sessionId message now m).2 = Ok tt
  /\ (exists session',
        sessions m' !! sessionId = Some session'
        /\ messageQueue session' = messageQueue session ++ [message]
        /\ lastActivity session' = now
        /\ flowControlWindow session' = flowControlWindow session
        /\ backpressure session' = backpressure session
        /\ lastSequence session' = lastSequence session
        /\ pendingRequests session' = pendingRequests session)
  /\ (forall other, other <> sessionId -> sessions m' !! other = sessions m !! other)
  /\ messageRoutes m' = messageRoutes m
  /\ timers m' = timers m /\ nextTimer m' = nextTimer m
  /\ outbox m' = outbox m
  /\ emitted m' = emitted m.
Proof.
  intros m m' Hs Hbp. subst m'.
  assert (Hinv : session_invariant (merge_config config)
                   (queues_when_backpressured (merge_config config)) m).
  { apply inv_run; try apply new_invariant; unfold queues_when_backpressured.
    - intros w b H Hb. by destruct (H Hb).
    - intros r Hb. discriminate Hb.
    - intros HeFC w _ _. by split.
    - intros HeFC w b _ _. by split.
    - intros HeFC w b _ _. by split. }
  destruct Hinv as [Hcfg Hsat].
  destruct (Hsat sessionId _ _ (flows_lookup _ _ _ Hs) Hbp) as [HeFC Hready].
  unfold ready in Hready. destruct (transportAdapter m) as [adapter|] eqn:Ha; [|done].
  rewrite (routeToBackend_queues sessionId session adapter) by congruence.
  cbn. split; [done|]. split; [|split; [|done]].
  - eexists. rewrite lookup_insert_eq. by repeat split.
  - intros other Hne. by rewrite lookup_insert_ne.
Qed.

End Backpressured.

(** Witness of [routeToBackend_backpressured_frame]: the second ping of
    [same_object_queued_twice] finds the session backpressured. *)
Lemma routeToBackend_backpressured_frame_witness :
  (routeToBackend "session-1-a" ping 4 backpressured_with_ping).2 = Ok tt
  /\ queue_of "session-1-a" (routeToBackend "session-1-a" ping 4 backpressured_with_ping).1
     = Some [ping; ping]
  /\ messageRoutes (routeToBackend "session-1-a" ping 4 backpressured_with_ping).1
     = messageRoutes backpressured_with_ping
  /\ timers (routeToBackend "session-1-a" ping 4 backpressured_with_ping).1
     = timers backpressured_with_ping
  /\ outbox (routeToBackend "session-1-a" ping 4 backpressured_with_ping).1
     = outbox backpressured_with_ping.
Proof.
  unfold backpressured_with_ping.
  set (m := run (take 4 same_object_queued_twice) (new (window_of 1))).
  set (m' := (routeToBackend "session-1-a" ping 4 m).1).
  destruct (sessions m !! "session-1-a") as [session|] eqn:Hs; [|by vm_compute in Hs].
  destruct (routeToBackend_backpressured_frame (window_of 1)
              (take 4 same_object_queued_twice) "session-1-a" session ping 4 Hs)
    as (Hok & (session' & Hs' & Hq & _) & _ & Hroutes & Htimers & _ & Hout & _).
  { vm_compute in Hs. by injection Hs as <-. }
  split; [exact Hok|]. split; [|split; [exact Hroutes|split; [exact Htimers|exact Hout]]].
  unfold queue_of. fold m m' in Hs'. rewrite Hs'. cbn [fmap option_fmap option_map].
  rewrite Hq. vm_compute in Hs. injection Hs as <-. reflexivity.
Defined.

(** *** FIFO flush (C3) *)

(** C3 at the failing input: the same [ping] object is queued twice; one
    credit comes back; the flush hands the first occurrence to the transport
    and then re-queues [messages.slice(messages.indexOf(ping))], which is the
    whole list: the sent occurrence is queued again, and [ping] goes out a
    third and a fourth time with the next two credits. *)
Theorem same_object_requeued_after_send :
  sent after_requeue = [request1; ping]
  /\ queue_of "session-1-a" after_requeue = Some [ping; ping]
  /\ sent (run [OpRouteToClient "session-1-a" notification 6;
                OpRouteToClient "session-1-a" notification 7] after_requeue)
     = [request1; ping; ping; ping].
Proof. vm_compute. done. Qed.

(** *** The flush on distinct message objects

    Not a claim of its own: between objects that are pairwise distinct the
    flush is first-in first-out; only an object that is queued more than
    once is affected by the use of indexOf. *)

Section Fifo.
Context {T : Type} `{!TransportAdapter T}.
Implicit Types m : State T.

Lemma same_traffic_refl m : same_traffic m m.
Proof. by repeat split. Qed.

Lemma same_traffic_trans m1 m2 m3 :
  same_traffic m1 m2 -> same_traffic m2 m3 -> same_traffic m1 m3.
Proof. intros (?&?&?) (?&?&?). repeat split; congruence. Qed.

Lemma queues_with_session sid f (g : list MCPMessage -> list MCPMessage) m :
  (forall s, messageQueue (f s) = g (messageQueue s)) ->
  queues (with_session sid f m) = alter g sid (queues m).
Proof.
  intros Hfg. unfold queues, with_session. cbn. apply map_eq. intros k.
  rewrite lookup_fmap, !lookup_alter, !lookup_fmap.
  case_decide; [|done]. destruct (sessions m !! sid); cbn; [|done].
  by rewrite Hfg.
Qed.

Lemma same_traffic_with_session sid f m :
  (forall s, messageQueue (f s) = messageQueue s) -> same_traffic m (with_session sid f m).
Proof.
  intros Hf. repeat split.
  rewrite (queues_with_session sid f (fun x => x)) by exact Hf. by apply alter_id.
Qed.

Lemma same_traffic_setupRequestTimeout sid mid now m :
  same_traffic m (setupRequestTimeout sid mid now m).
Proof.
  unfold setupRequestTimeout. destruct (sessions m !! sid); [|apply same_traffic_refl].
  cbn. eapply same_traffic_trans; [|by apply same_traffic_with_session]. by repeat split.
Qed.

Lemma same_traffic_clearRequestTimeout sid mid m :
  same_traffic m (clearRequestTimeout sid mid m).
Proof.
  unfold clearRequestTimeout.
  destruct (sessions m !! sid) as [s|]; [|apply same_traffic_refl].
  destruct (pendingRequests s !! mid); [|apply same_traffic_refl].
  eapply same_traffic_trans; [|by apply same_traffic_with_session]. by repeat split.
Qed.

Lemma same_traffic_track_request sid msg now m :
  same_traffic m (track_request sid msg now m).
Proof.
  unfold track_request. destruct (id msg); [|apply same_traffic_refl].
  eapply same_traffic_trans; [|apply same_traffic_setupRequestTimeout]. by repeat split.
Qed.

Lemma same_traffic_clear_tracking sid msg m :
  same_traffic m (clear_tracking sid msg m).
Proof.
  unfold clear_tracking. destruct (id msg); [|apply same_traffic_refl].
  eapply same_traffic_trans; [apply same_traffic_clearRequestTimeout|]. by repeat split.
Qed.

Lemma same_traffic_apply_flow_control sid m :
  same_traffic m (apply_flow_control sid m).
Proof.
  unfold apply_flow_control. destruct (enableFlowControl (config m));
    [by apply same_traffic_with_session|apply same_traffic_refl].
Qed.

Lemma queue_of_queues sid m : queue_of sid m = queues m !! sid.
Proof. unfold queue_of, queues. by rewrite lookup_fmap. Qed.

(** The send path hands exactly the message to the transport. *)
Lemma send_envelope_traffic session adapter sid msg now m :
  ready m = true ->
  let m' := (send_envelope session adapter sid msg now m).1 in
  ready m' = true /\ sent m' = sent m ++ [msg] /\ queues m' = queues m.
Proof.
  intros Hr. unfold send_envelope.
  destruct (sendToBackend now _ adapter) as [adapter' r].
  set (m1 := set_transportAdapter _ _).
  assert (H1 : ready m1 = true /\ sent m1 = sent m ++ [msg] /\ queues m1 = queues m).
  { subst m1. split; [done|]. split.
    - unfold sent. cbn. by rewrite fmap_app.
    - change (queues (with_session sid (set_lastSequence (lastSequence session + 1)) m)
              = queues m).
      by destruct (same_traffic_with_session sid
                     (set_lastSequence (lastSequence session + 1)) m) as (_ & _ & ->). }
  destruct r as [|e]; [exact H1|]. cbn [fst].
  destruct (enableFlowControl (config m1)); [|exact H1].
  destruct H1 as (? & ? & ?).
  destruct (same_traffic_with_session sid restore_credit m1) as (Hr' & Ho & Hq); [done|].
  unfold sent. rewrite Ho, Hr', Hq. by repeat split.
Qed.

Lemma routeToBackend_traffic sid session msg now m :
  sessions m !! sid = Some session ->
  ready m = true ->
  backpressure session = false ->
  let m' := (routeToBackend sid msg now m).1 in
  ready m' = true /\ sent m' = sent m ++ [msg] /\ queues m' = queues m.
Proof.
  intros Hs Hr Hbp. unfold routeToBackend. rewrite Hs.
  unfold ready in Hr. destruct (transportAdapter m) as [adapter|] eqn:Ha; [|done].
  cbv zeta. rewrite Hbp, andb_false_r.
  pose proof (same_traffic_trans _ _ _
                (same_traffic_trans _ _ _
                   (same_traffic_with_session sid (set_lastActivity now) m
                      (fun _ => eq_refl))
                   (same_traffic_track_request sid msg now _))
                (same_traffic_apply_flow_control sid _)) as (Hr3 & Ho3 & Hq3).
  unfold updateSessionActivity.
  set (m3 := apply_flow_control sid _) in *.
  destruct (send_envelope_traffic session adapter sid msg now m3) as (? & Hsent & ?).
  { rewrite Hr3. unfold ready. by rewrite Ha. }
  repeat split; [done| |congruence].
  rewrite Hsent. unfold sent. by rewrite Ho3.
Qed.

Lemma indexOf_fresh (message : MCPMessage) (before after : list MCPMessage) :
  ref message ∉ (ref <$> before) ->
  indexOf message (before ++ message :: after) = Z.of_nat (length before).
Proof.
  induction before as [|x before IH]; intros Hfresh; cbn.
  - by rewrite Nat.eqb_refl.
  - rewrite fmap_cons in Hfresh. apply not_elem_of_cons in Hfresh as [Hne Hfresh].
    destruct (Nat.eqb_spec (ref x) (ref message)) as [Heq|_]; [by rewrite Heq in Hne|].
    rewrite (IH Hfresh).
    destruct (Z.ltb_spec (Z.of_nat (length before)) 0); lia.
Qed.

Lemma slice_app_length {A} (before after : list A) :
  slice (Z.of_nat (length before)) (before ++ after) = after.
Proof.
  unfold slice. destruct (Z.ltb_spec (Z.of_nat (length before)) 0); [lia|].
  rewrite length_app, Z.min_l by lia. rewrite Nat2Z.id. by rewrite drop_app_length.
Qed.

Lemma flush_loop_fifo sid now (sent_already rest : list MCPMessage) m :
  NoDup (ref <$> (sent_already ++ rest)) ->
  ready m = true ->
  queue_of sid m = Some [] ->
  let m' := flush_loop sid now (sent_already ++ rest) rest m in
  exists k, sent m' = sent m ++ take k rest /\ queue_of sid m' = Some (drop k rest).
Proof.
  revert sent_already m.
  induction rest as [|message rest IH]; intros sent_already m Hnodup Hr Hq; cbn.
  { exists O. by rewrite app_nil_r. }
  unfold queue_of in Hq.
  destruct (sessions m !! sid) as [session|] eqn:Hs; [|done].
  cbn in Hq. injection Hq as Hq.
  destruct (backpressure session) eqn:Hbp.
  - exists O. cbn. rewrite app_nil_r. split; [done|].
    unfold queue_of, with_session. cbn. rewrite lookup_alter_eq, Hs. cbn.
    rewrite Hq, app_nil_r. f_equal.
    rewrite indexOf_fresh; [apply slice_app_length|].
    rewrite fmap_app, fmap_cons in Hnodup.
    apply NoDup_app in Hnodup as (_ & Hdisj & _).
    intros Hin. apply (Hdisj _ Hin). by left.
  - destruct (routeToBackend_traffic sid session message now m Hs Hr Hbp)
      as (Hr' & Hsent' & Hq').
    destruct (routeToBackend sid message now m) as [m1 r]. cbn [fst] in *.
    set (m2 := match r with Ok _ => m1 | Throw e => _ end).
    assert (H2 : ready m2 = true /\ sent m2 = sent m ++ [message]
                 /\ queues m2 = queues m).
    { subst m2. by destruct r. }
    destruct H2 as (Hr2 & Hsent2 & Hq2).
    destruct (IH (sent_already ++ [message]) m2) as (k & Hk1 & Hk2).
    + by rewrite <- app_assoc.
    + exact Hr2.
    + rewrite queue_of_queues, Hq2, <- queue_of_queues.
      unfold queue_of. rewrite Hs. cbn. by rewrite Hq.
    + exists (S k). rewrite <- app_assoc in Hk1, Hk2. cbn in Hk1, Hk2.
      rewrite Hk1, Hk2, Hsent2, <- app_assoc. done.
Qed.

(** The flush hands a prefix of the queue to the transport, in queue order,
    and leaves the rest queued, in queue order. *)
Lemma processQueuedMessages_fifo sid session now m :
  sessions m !! sid = Some session ->
  NoDup (ref <$> messageQueue session) ->
  ready m = true ->
  let m' := processQueuedMessages sid now m in
  exists k,
    sent m' = sent m ++ take k (messageQueue session)
    /\ queue_of sid m' = Some (drop k (messageQueue session)).
Proof.
  intros Hs Hnodup Hr. unfold processQueuedMessages. rewrite Hs.
  destruct (messageQueue session) as [|message rest] eqn:Hq.
  { exists O. cbn. rewrite app_nil_r. unfold queue_of. rewrite Hs. cbn. by rewrite Hq. }
  destruct (flush_loop_fifo sid now [] (message :: rest)
              (with_session sid (set_messageQueue []) m)) as (k & Hk1 & Hk2);
    [done|done| |by exists k].
  unfold queue_of, with_session. cbn. by rewrite lookup_alter_eq, Hs.
Qed.

End Fifo.

(** *** The transport adapter of a multiplexer *)

Section TransportPreservation.
Context {T : Type} `{!TransportAdapter T}.
Implicit Types m : State T.

Variable Q : T -> Prop.
Hypothesis Q_backend : forall now envelope t, Q t -> Q (sendToBackend now envelope t).1.

#[local] Abbreviation ts := (transport_satisfies Q).

Lemma ts_same m m' : transportAdapter m' = transportAdapter m -> ts m -> ts m'.
Proof. intros Heq (t & Ht & HQ). exists t. by rewrite Heq. Qed.

Lemma transportAdapter_setupRequestTimeout sid mid now m :
  transportAdapter (setupRequestTimeout sid mid now m) = transportAdapter m.
Proof. unfold setupRequestTimeout. by destruct (sessions m !! sid). Qed.

Lemma transportAdapter_clearRequestTimeout sid mid m :
  transportAdapter (clearRequestTimeout sid mid m) = transportAdapter m.
Proof.
  unfold clearRequestTimeout. destruct (sessions m !! sid) as [s|]; [|done].
  by destruct (pendingRequests s !! mid).
Qed.

Lemma transportAdapter_track_request sid msg now m :
  transportAdapter (track_request sid msg now m) = transportAdapter m.
Proof.
  unfold track_request. destruct (id msg); [|done].
  by rewrite transportAdapter_setupRequestTimeout.
Qed.

Lemma transportAdapter_clear_tracking sid msg m :
  transportAdapter (clear_tracking sid msg m) = transportAdapter m.
Proof.
  unfold clear_tracking. destruct (id msg); [|done]. cbn.
  by rewrite transportAdapter_clearRequestTimeout.
Qed.

Lemma transportAdapter_apply_flow_control sid m :
  transportAdapter (apply_flow_control sid m) = transportAdapter m.
Proof. unfold apply_flow_control. by destruct (enableFlowControl (config m)). Qed.

Lemma ts_routeToBackend sid msg now m : ts m -> ts (routeToBackend sid msg now m).1.
Proof.
  intros (t & Ht & HQ). unfold routeToBackend.
  destruct (sessions m !! sid) as [session|]; [|by exists t].
  rewrite Ht. cbv zeta.
  destruct (enableFlowControl _ && backpressure session); [by exists t|].
  unfold send_envelope.
  destruct (sendToBackend now _ t) as [t' r] eqn:Hsend.
  assert (HQ' : Q t').
  { match type of Hsend with
    | sendToBackend ?n ?e ?t0 = _ => pose proof (Q_backend n e t0 HQ) as H
    end.
    by rewrite Hsend in H. }
  destruct r as [|e]; [by exists t'|]. cbn [fst].
  destruct (enableFlowControl _); by exists t'.
Qed.

Lemma ts_flush_loop sid now messages rest m :
  ts m -> ts (flush_loop sid now messages rest m).
Proof.
  revert m. induction rest as [|message rest IH]; intros m Hts; cbn; [done|].
  destruct (sessions m !! sid) as [session|]; [|done].
  destruct (backpressure session); [by eapply ts_same|].
  pose proof (ts_routeToBackend sid message now m Hts) as Hrtb.
  destruct (routeToBackend sid message now m) as [m' [|e]]; apply IH; [done|].
  by eapply ts_same.
Qed.

Lemma ts_processQueuedMessages sid now m : ts m -> ts (processQueuedMessages sid now m).
Proof.
  intros Hts. unfold processQueuedMessages.
  destruct (sessions m !! sid) as [session|]; [|done].
  destruct (messageQueue session); [done|].
  apply ts_flush_loop. by eapply ts_same.
Qed.

Lemma ts_update_flow_control session sid now m :
  ts m -> ts (update_flow_control session sid now m).
Proof.
  intros Hts. unfold update_flow_control.
  destruct (enableFlowControl (config m)); [|done].
  destruct (backpressure session && _).
  - apply ts_processQueuedMessages. by eapply ts_same.
  - by eapply ts_same.
Qed.

End TransportPreservation.

(** *** Inbound dispatch (C8, multiplexer side) *)

Section Inbound.
Context {T : Type} `{!TransportAdapter T}.
Implicit Types m : State T.

Lemma truthy_idemp (s : option string) : truthy (truthy s) = truthy s.
Proof.
  destruct s as [s|]; [|done]. cbn.
  destruct (String.eqb s EmptyString) eqn:Hs; [done|]. cbn. by rewrite Hs.
Qed.

Lemma handleInboundMessage_unroutable sessionId payload now m :
  truthy sessionId = None ->
  (id payload ≫= fun messageId => truthy (messageRoutes m !! messageId)) = None ->
  handleInboundMessage sessionId payload now m
  = emit (ERROR (SessionError "Unable to route inbound message - no session found"
                   "unknown")) m.
Proof.
  intros Hsid Hroute. unfold handleInboundMessage. rewrite Hsid.
  destruct (id payload) as [mid|]; cbn in Hroute |- *; [|done].
  by rewrite Hroute.
Qed.

Lemma handleInboundMessage_resolved sessionId payload now m target :
  truthy sessionId = None ->
  (id payload ≫= fun messageId => truthy (messageRoutes m !! messageId)) = Some target ->
  handleInboundMessage sessionId payload now m
  = handleInboundMessage (Some target) payload now m.
Proof.
  intros Hsid Hroute. unfold handleInboundMessage. rewrite Hsid.
  destruct (id payload) as [mid|]; cbn in Hroute; [|done].
  assert (Htarget : truthy (Some target) = Some target).
  { rewrite <- Hroute. apply truthy_idemp. }
  rewrite Hroute, Htarget. cbn [default]. by rewrite Htarget.
Qed.

End Inbound.
End MultiplexerProofs.

(* ===================================================================== *)
(** * Properties of the stdio transport adapter *)
(* ===================================================================== *)

Module AdapterProofs.

Import StdioTransportAdapter.
Import AdapterScenarios.

(** *** Lines *)

Lemma split_lines_nonempty (s : string) : split_lines s <> [].
Proof.
  destruct s as [|c s]; cbn; [done|].
  destruct (Ascii.eqb c newline); [done|]. by destruct (split_lines s).
Qed.

Lemma removelast_cons {A} (x : A) (l : list A) :
  l <> [] -> removelast (x :: l) = x :: removelast l.
Proof. by destruct l. Qed.

Lemma last_cons {A} (x d : A) (l : list A) :
  l <> [] -> List.last (x :: l) d = List.last l d.
Proof. by destruct l. Qed.


Lemma append_cons (c : ascii) (s1 s2 : string) :
  String c s1 +:+ s2 = String c (s1 +:+ s2).
Proof. reflexivity. Qed.

Lemma append_empty_l (s : string) : EmptyString +:+ s = s.
Proof. reflexivity. Qed.





Lemma single_of_removelast {A} (l : list A) :
  l <> [] -> removelast l = [] -> exists x, l = [x].
Proof. destruct l as [|x [|y l]]; [done|by eexists|done]. Qed.

Lemma split_lines_cons_single (c : ascii) (s x : string) :
  Ascii.eqb c newline = false -> split_lines s = [x] ->
  split_lines (String c s) = [String c x].
Proof. intros Hc Hs. cbn. by rewrite Hc, Hs. Qed.

(** What is kept in the buffer holds no complete line. *)
Lemma complete_lines_partial_line (s : string) : complete_lines (partial_line s) = [].
Proof.
  unfold complete_lines, partial_line.
  induction s as [|c s IH]; [done|].
  pose proof (split_lines_nonempty s) as Hne.
  cbn [split_lines]. destruct (Ascii.eqb c newline) eqn:Hc.
  - by rewrite last_cons.
  - destruct (split_lines s) as [|l [|l' ls]] eqn:Hs; [done| |].
    + cbn in IH |- *.
      destruct (single_of_removelast (split_lines l) (split_lines_nonempty l) IH)
        as [x Hx].
      by rewrite Hc, Hx.
    + by rewrite last_cons.
Qed.

(** A text without a complete line is its own partial line. *)
Lemma complete_lines_nil_partial (s : string) :
  complete_lines s = [] -> partial_line s = s.
Proof.
  unfold complete_lines, partial_line.
  induction s as [|c s IH]; [done|].
  pose proof (split_lines_nonempty s) as Hne.
  cbn [split_lines]. destruct (Ascii.eqb c newline) eqn:Hc.
  - by rewrite removelast_cons.
  - destruct (split_lines s) as [|l [|l' ls]] eqn:Hs; [done| |done].
    intros _. cbn in IH |- *. by rewrite IH.
Qed.



(** *** Messages *)




Section Framing.

Variable JSON_parse : string -> Result json.







End Framing.



(** A Message with a property of its own named [hasOwnProperty] is not
    valid: it is dropped with an error even when it has its own
    [result]. *)
Example own_hasOwnProperty_is_rejected :
  is_message shadowing_value = true
  /\ outbound_of (emitted after_shadowing) = []
  /\ errors_of (emitted after_shadowing)
     = [TransportError
          "Failed to process incoming message: obj.hasOwnProperty is not a function"
          "session-9-z"].
Proof. vm_compute. done. Qed.


(** *** Response timers (C2) *)

Section ResponseTimers.

Variable JSON_parse : string -> Result json.
Variable JSON_stringify : MCPMessage -> string.
Variable fetch_mcp : SessionEnvelope MCPMessage -> Result json.
Variable websocket_send : SessionEnvelope MCPMessage -> Result unit.

(** In HTTP mode the response is handled inside the awaited POST, before
    setResponseTimeout runs: the timer is armed after the round trip and
    nothing clears it, so that it fires. *)
Lemma http_timer_armed_after_response now envelope response a :
  backendConnected a = true ->
  backendType (config a) = HTTP ->
  fetch_mcp envelope = Ok response ->
  let a' := (sendToBackend fetch_mcp websocket_send now envelope a).1 in
  (sendToBackend fetch_mcp websocket_send now envelope a).2 = Ok tt
  /\ emitted a'
     = emitted a
       ++ [message_inbound {| in_sessionId := sessionId a;
                              in_sequence := Some (JNum (sequence envelope));
                              in_payload := response; in_timestamp := now |}]
  /\ (exists t, timers a' !! t = Some (sequence envelope)
        /\ emitted (fireTimer t a')
           = emitted a'
             ++ [ERROR (TransportError
                          ("Request timeout for sequence " +:+ pretty (sequence envelope))
                          (sessionId a))]).
Proof.
  intros Hconn Htype Hfetch. unfold sendToBackend, sendViaHttp.
  rewrite Hconn, Htype, Hfetch. cbn [negb fst snd].
  set (a1 := handleBackendResponse _ _ _ _).
  assert (Hs1 : sessionId a1 = sessionId a).
  { subst a1. unfold handleBackendResponse.
    by destruct (_ <$> pendingRequests a !! sequence envelope) as [[n t]|]. }
  assert (He1 : emitted a1
                = emitted a ++ [message_inbound
                                  {| in_sessionId := sessionId a;
                                     in_sequence := Some (JNum (sequence envelope));
                                     in_payload := response; in_timestamp := now |}]).
  { subst a1. unfold handleBackendResponse.
    by destruct (_ <$> pendingRequests a !! sequence envelope) as [[n t]|]. }
  clearbody a1.
  split; [done|]. split; [exact He1|].
  exists (nextTimer a1). cbn. rewrite lookup_insert_eq. split; [done|].
  unfold fireTimer. cbn. rewrite lookup_insert_eq. cbn. by rewrite Hs1.
Qed.

(** The WebSocket path does what the HTTP path misses: the send arms the
    timer, and a frame in envelope form that declares the sequence clears
    it, after which the timer cannot fire. *)
Lemma websocket_timer_cleared_by_response now now' envelope a frame fields sid payload :
  backendConnected a = true ->
  backendType (config a) = WEBSOCKET ->
  websocket a = Some true ->
  websocket_send envelope = Ok tt ->
  JSON_parse frame = Ok (JObj fields) ->
  own_property "sessionId" fields = Some sid -> Utils.json_truthy sid = true ->
  own_property "payload" fields = Some payload -> Utils.json_truthy payload = true ->
  own_property "sequence" fields = Some (JNum (sequence envelope)) ->
  let a1 := (sendToBackend fetch_mcp websocket_send now envelope a).1 in
  let a2 := handleBackendMessage JSON_parse frame now' a1 in
  timers a1 !! nextTimer a = Some (sequence envelope)
  /\ timers a2 !! nextTimer a = None
  /\ fireTimer (nextTimer a) a2 = a2.
Proof.
  intros Hconn Htype Hws Hsend Hparse Hsid Hsidt Hpayload Hpayloadt Hseq.
  unfold sendToBackend, sendViaWebSocket. rewrite Hconn, Htype, Hws, Hsend.
  cbn [negb fst snd]. split; [cbn; by rewrite lookup_insert_eq|].
  unfold handleBackendMessage. rewrite Hparse, Hsid, Hpayload, Hsidt, Hpayloadt, Hseq.
  cbn [andb]. unfold handleBackendResponse. cbn.
  rewrite lookup_insert_eq. cbn. rewrite delete_insert_eq.
  assert (Hgone : delete (nextTimer a) (timers a) !! nextTimer a = None)
    by apply lookup_delete_eq.
  split; [exact Hgone|]. unfold fireTimer. cbn. by rewrite delete_insert_eq, Hgone.
Qed.

End ResponseTimers.

(** C2 at the failing input: an HTTP backend answers the request
    [tools/list] of envelope 1.  The response is emitted inbound, so the
    round trip is complete, and the timer for sequence 1 is armed
    afterwards; when it fires, the timeout error for sequence 1 is
    emitted. *)
Theorem http_round_trip_then_timeout :
  answered.2 = Ok tt
  /\ emitted answered.1
     = [TRANSPORT_CONNECTED;
        message_inbound {| in_sessionId := "session-9-z";
                           in_sequence := Some (JNum 1);
                           in_payload := result_value; in_timestamp := 20 |}]
  /\ timers answered.1 !! 0%nat = Some 1
  /\ emitted (fireTimer 0%nat answered.1)
     = emitted answered.1
       ++ [ERROR (TransportError "Request timeout for sequence 1" "session-9-z")].
Proof. vm_compute. done. Qed.

(** *** Delivery to the client (C9, adapter side) *)

Section Delivery.

Variable JSON_stringify : MCPMessage -> string.

Lemma sendToClient_guard to data a :
  isStarted a = false \/ to <> sessionId a ->
  sendToClient JSON_stringify to data a
  = (a, Throw (TransportError "Transport not started or session mismatch" to)).
Proof.
  intros Hguard. unfold sendToClient.
  destruct (isStarted a); cbn; [|done].
  destruct Hguard as [?|Hne]; [done|].
  destruct (String.eqb_spec to (sessionId a)); [done|]. done.
Qed.

Lemma sendToClient_writes_own_session to data a :
  stdout (sendToClient JSON_stringify to data a).1 <> stdout a ->
  isStarted a = true /\ to = sessionId a.
Proof.
  intros Hwritten.
  destruct (isStarted a) eqn:Hstarted.
  - split; [done|]. destruct (decide (to = sessionId a)) as [|Hne]; [done|].
    rewrite sendToClient_guard in Hwritten by auto. done.
  - rewrite sendToClient_guard in Hwritten by auto. done.
Qed.

End Delivery.

Lemma sendViaHttp_sessionId fetch_mcp now envelope a :
  sessionId (sendViaHttp fetch_mcp now envelope a).1 = sessionId a.
Proof.
  unfold sendViaHttp. destruct (fetch_mcp envelope); [|done]. cbn [fst].
  unfold handleBackendResponse.
  by destruct (_ <$> pendingRequests a !! sequence envelope) as [[n t]|].
Qed.

Lemma sendViaWebSocket_sessionId websocket_send envelope a :
  sessionId (sendViaWebSocket websocket_send envelope a).1 = sessionId a.
Proof.
  unfold sendViaWebSocket. destruct (websocket a) as [[|]|]; [|done..].
  by destruct (websocket_send envelope).
Qed.

Lemma sendToBackend_sessionId fetch_mcp websocket_send now envelope a :
  sessionId (sendToBackend fetch_mcp websocket_send now envelope a).1 = sessionId a.
Proof.
  unfold sendToBackend. destruct (backendConnected a); [|done]. cbn [negb].
  destruct (match backendType (config a) with HTTP => _ | WEBSOCKET => _ end)
    as [a1 r] eqn:Hsend.
  assert (Hs : sessionId a1 = sessionId a).
  { replace a1 with (a1, r).1 by done. rewrite <- Hsend.
    destruct (backendType (config a)), (websocket a);
      first [apply sendViaHttp_sessionId | apply sendViaWebSocket_sessionId]. }
  by destruct r.
Qed.

(** *** Inbound events (C8, adapter side) *)

Lemma handleBackendResponse_emitted sequence payload now a :
  emitted (handleBackendResponse sequence payload now a)
  = emitted a ++ [message_inbound {| in_sessionId := sessionId a;
                                     in_sequence := sequence;
                                     in_payload := payload; in_timestamp := now |}].
Proof.
  unfold handleBackendResponse.
  by destruct (match sequence with Some (JNum n) => _ | _ => None end) as [[n t]|].
Qed.

(** Whatever the frame, handleBackendMessage emits one event: an error, or
    an inbound message that bears the adapter's own session id. *)
Lemma handleBackendMessage_event JSON_parse frame now a :
  (exists err,
     emitted (handleBackendMessage JSON_parse frame now a) = emitted a ++ [ERROR err])
  \/ (exists envelope,
        emitted (handleBackendMessage JSON_parse frame now a)
        = emitted a ++ [message_inbound envelope]
        /\ in_sessionId envelope = sessionId a).
Proof.
  unfold handleBackendMessage.
  destruct (JSON_parse frame) as [data|err]; [|left; by eexists].
  destruct data as [| | | | |fields];
    try (right; eexists; split; [reflexivity|done]);
    try (left; by eexists).
  destruct (own_property "sessionId" fields) as [sid|],
           (own_property "payload" fields) as [payload|];
    try (right; eexists; split; [reflexivity|done]).
  destruct (Utils.json_truthy sid && Utils.json_truthy payload).
  - rewrite handleBackendResponse_emitted. right. eexists. split; [reflexivity|done].
  - right. eexists. split; [reflexivity|done].
Qed.

Lemma handleBackendMessage_emitted JSON_parse frame now a :
  exists e,
    emitted (handleBackendMessage JSON_parse frame now a) = emitted a ++ [e]
    /\ bears_session (sessionId a) e.
Proof.
  destruct (handleBackendMessage_event JSON_parse frame now a)
    as [[err ->] | (envelope & -> & Hsid)]; by eexists.
Qed.

(** sendToBackend emits nothing but the inbound message of an HTTP
    response, under the adapter's own session id. *)
Lemma sendToBackend_emitted fetch_mcp websocket_send now envelope a :
  exists events,
    emitted (sendToBackend fetch_mcp websocket_send now envelope a).1
    = emitted a ++ events
    /\ Forall (bears_session (sessionId a)) events.
Proof.
  unfold sendToBackend. destruct (backendConnected a);
    [|exists []; by rewrite app_nil_r]. cbn [negb].
  assert (Hhttp : exists events,
            emitted (sendViaHttp fetch_mcp now envelope a).1 = emitted a ++ events
            /\ Forall (bears_session (sessionId a)) events).
  { unfold sendViaHttp. destruct (fetch_mcp envelope) as [response|e].
    - cbn [fst]. rewrite handleBackendResponse_emitted. eexists. split; [reflexivity|].
      by constructor.
    - exists []. by rewrite app_nil_r. }
  assert (Hws : emitted (sendViaWebSocket websocket_send envelope a).1 = emitted a).
  { unfold sendViaWebSocket. destruct (websocket a) as [[|]|]; try done.
    by destruct (websocket_send envelope). }
  destruct (match backendType (config a) with HTTP => _ | WEBSOCKET => _ end)
    as [a1 r] eqn:Hsend.
  assert (Hout : exists events,
            emitted a1 = emitted a ++ events
            /\ Forall (bears_session (sessionId a)) events).
  { replace a1 with (a1, r).1 by done. rewrite <- Hsend.
    destruct (backendType (config a)), (websocket a); try exact Hhttp.
    exists []. by rewrite app_nil_r, Hws. }
  destruct Hout as (events & Hemitted & Hall).
  exists events. split; [|exact Hall]. by destruct r.
Qed.

End AdapterProofs.

(* ===================================================================== *)
(** * Properties of adapter and multiplexer together *)
(* ===================================================================== *)

Module GatewayProofs.

Import SessionMultiplexerImpl.
Import MultiplexerScenarios.
Import AdapterScenarios.
Import GatewayScenarios.
Import MultiplexerProofs.

Section Wired.

Variable JSON_parse : string -> Result json.
Variable JSON_stringify : MCPMessage -> string.
Variable fetch_mcp : SessionEnvelope MCPMessage -> Result json.
Variable websocket_send : SessionEnvelope MCPMessage -> Result unit.

#[local] Abbreviation stdio := (Gateway.stdio JSON_stringify fetch_mcp websocket_send).
#[local] Abbreviation routeToClient' := (@routeToClient _ stdio).
#[local] Abbreviation handleInboundMessage' := (@handleInboundMessage _ stdio).
#[local] Abbreviation on_backend_message' :=
  (Gateway.on_backend_message JSON_parse JSON_stringify fetch_mcp websocket_send).

Implicit Types m : State StdioTransportAdapter.State.

(** routeToClient for a session that is not the adapter's own. *)
Lemma routeToClient_other_session sid msg now m :
  (forall a, transportAdapter m = Some a -> sid <> StdioTransportAdapter.sessionId a) ->
  exists text, (routeToClient' sid msg now m).2 = Throw (SessionError text sid).
Proof.
  intros Hother. unfold routeToClient.
  destruct (sessions m !! sid) as [session|]; [|by eexists].
  destruct (transportAdapter m) as [a|] eqn:Ha; [|by eexists].
  cbv zeta.
  set (m2 := clear_tracking sid msg (updateSessionActivity sid now m)).
  assert (H2 : transport_satisfies
                 (fun a' => StdioTransportAdapter.sessionId a'
                            = StdioTransportAdapter.sessionId a) m2).
  { exists a. split; [|done]. subst m2.
    by rewrite transportAdapter_clear_tracking. }
  assert (Hq : forall now' envelope t,
            StdioTransportAdapter.sessionId t = StdioTransportAdapter.sessionId a ->
            StdioTransportAdapter.sessionId
              (@sendToBackend _ stdio now' envelope t).1
            = StdioTransportAdapter.sessionId a).
  { intros now' envelope t <-. apply AdapterProofs.sendToBackend_sessionId. }
  destruct (@ts_update_flow_control _ stdio _ Hq session sid now m2 H2)
    as (a3 & Ha3 & Hsid3).
  unfold deliver. rewrite Ha3. cbn.
  rewrite AdapterProofs.sendToClient_guard.
  2:{ right. rewrite Hsid3. by apply Hother. }
  by eexists.
Qed.

(** C9: sendToClient throws a TransportError, and leaves the adapter as it
    is, whenever the adapter is not started or the session is not its own;
    a call that writes to stdout is for the adapter's own session on a
    started adapter; and routeToClient on a multiplexer over the adapter
    throws a SessionError for every session other than the adapter's. *)
Theorem sendToClient_own_session_only :
  (forall to data a,
     StdioTransportAdapter.isStarted a = false \/ to <> StdioTransportAdapter.sessionId a ->
     StdioTransportAdapter.sendToClient JSON_stringify to data a
     = (a, Throw (TransportError "Transport not started or session mismatch" to)))
  /\ (forall to data a,
        StdioTransportAdapter.stdout
          (StdioTransportAdapter.sendToClient JSON_stringify to data a).1
        <> StdioTransportAdapter.stdout a ->
        StdioTransportAdapter.isStarted a = true
        /\ to = StdioTransportAdapter.sessionId a)
  /\ (forall m sessionId message now,
        (forall a, transportAdapter m = Some a ->
                   sessionId <> StdioTransportAdapter.sessionId a) ->
        exists text,
          (routeToClient' sessionId message now m).2 = Throw (SessionError text sessionId)).
Proof.
  split; [|split].
  - apply AdapterProofs.sendToClient_guard.
  - apply AdapterProofs.sendToClient_writes_own_session.
  - intros m sid msg now. apply routeToClient_other_session.
Qed.

(** The listener on the one event that handleBackendMessage emits. *)
Lemma on_backend_message_event frame r now m a :
  transportAdapter m = Some a ->
  let a' := StdioTransportAdapter.handleBackendMessage JSON_parse frame now a in
  let m1 := set_transportAdapter (Some a') m in
  (exists err,
     StdioTransportAdapter.emitted a'
     = StdioTransportAdapter.emitted a ++ [StdioTransportAdapter.ERROR err]
     /\ on_backend_message' frame r now m = m1)
  \/ (exists envelope,
        StdioTransportAdapter.emitted a'
        = StdioTransportAdapter.emitted a
          ++ [StdioTransportAdapter.message_inbound envelope]
        /\ on_backend_message' frame r now m
           = handleInboundMessage' (Some (StdioTransportAdapter.sessionId a))
               (Gateway.as_MCPMessage r (StdioTransportAdapter.in_payload envelope))
               now m1).
Proof.
  intros Ha. cbv zeta. unfold Gateway.on_backend_message. rewrite Ha.
  destruct (AdapterProofs.handleBackendMessage_event JSON_parse frame now a)
    as [[err Hemitted] | (envelope & Hemitted & Hsid)].
  - left. exists err. split; [exact Hemitted|].
    by rewrite Hemitted, drop_app_length.
  - right. exists envelope. split; [exact Hemitted|].
    rewrite Hemitted, drop_app_length. cbn. by rewrite Hsid.
Qed.

Lemma handleInboundMessage_no_session sid payload now m :
  sid <> EmptyString -> sessions m !! sid = None ->
  handleInboundMessage' (Some sid) payload now m = emit (session_not_found sid) m.
Proof.
  intros Hsid Hs. unfold handleInboundMessage, truthy.
  destruct (String.eqb_spec sid EmptyString) as [|_]; [done|].
  cbn. destruct (String.eqb_spec sid EmptyString) as [|_]; [done|].
  unfold routeToClient. by rewrite Hs.
Qed.

(** C8 (amended): an inbound envelope that reaches the multiplexer without
    a session id is resolved through the routing table by the id of its
    payload and handled as if it bore the session found there; when the
    payload has no id, or its id is not in the table, the multiplexer only
    emits the error "Unable to route inbound message - no session found"
    and nothing else changes, so nothing is delivered.  The stdio adapter,
    however, puts its own session id on every inbound message it emits, for
    a frame of the WebSocket and for the response of an HTTP request alike:
    a message from the backend is handled for the adapter's session id,
    whatever the routing table holds, and when the multiplexer has no
    session with that id it emits the error "Failed to handle inbound
    message: Session not found" for it and does nothing else. *)
Theorem inbound_dispatch :
  (forall m sessionId payload now,
     truthy sessionId = None ->
     match id payload ≫= fun messageId => truthy (messageRoutes m !! messageId) with
     | Some target =>
         handleInboundMessage' sessionId payload now m
         = handleInboundMessage' (Some target) payload now m
     | None =>
         handleInboundMessage' sessionId payload now m
         = emit (ERROR (SessionError
                          "Unable to route inbound message - no session found"
                          "unknown")) m
     end)
  /\ (forall frame now a,
        exists e,
          StdioTransportAdapter.emitted
            (StdioTransportAdapter.handleBackendMessage JSON_parse frame now a)
          = StdioTransportAdapter.emitted a ++ [e]
          /\ bears_session (StdioTransportAdapter.sessionId a) e)
  /\ (forall now envelope a,
        exists events,
          StdioTransportAdapter.emitted
            (StdioTransportAdapter.sendToBackend fetch_mcp websocket_send now envelope a).1
          = StdioTransportAdapter.emitted a ++ events
          /\ Forall (bears_session (StdioTransportAdapter.sessionId a)) events)
  /\ (forall frame r now m a,
        transportAdapter m = Some a ->
        let a' := StdioTransportAdapter.handleBackendMessage JSON_parse frame now a in
        let m1 := set_transportAdapter (Some a') m in
        (exists err,
           StdioTransportAdapter.emitted a'
           = StdioTransportAdapter.emitted a ++ [StdioTransportAdapter.ERROR err]
           /\ on_backend_message' frame r now m = m1)
        \/ (exists envelope,
              StdioTransportAdapter.emitted a'
              = StdioTransportAdapter.emitted a
                ++ [StdioTransportAdapter.message_inbound envelope]
              /\ on_backend_message' frame r now m
                 = handleInboundMessage' (Some (StdioTransportAdapter.sessionId a))
                     (Gateway.as_MCPMessage r (StdioTransportAdapter.in_payload envelope))
                     now m1
              /\ (StdioTransportAdapter.sessionId a <> EmptyString ->
                  sessions m !! StdioTransportAdapter.sessionId a = None ->
                  on_backend_message' frame r now m
                  = emit (session_not_found (StdioTransportAdapter.sessionId a)) m1))).
Proof.
  split; [|split; [|split]].
  - intros m sid payload now Hsid.
    destruct (id payload ≫= _) as [target|] eqn:Hroute.
    + by apply handleInboundMessage_resolved.
    + by apply handleInboundMessage_unroutable.
  - apply AdapterProofs.handleBackendMessage_emitted.
  - apply AdapterProofs.sendToBackend_emitted.
  - intros frame r now m a Ha.
    destruct (on_backend_message_event frame r now m a Ha)
      as [(err & Hemitted & Hout) | (envelope & Hemitted & Hout)].
    + left. by exists err.
    + right. exists envelope. split; [exact Hemitted|]. split; [exact Hout|].
      intros Hsid Hnone. rewrite Hout. by apply handleInboundMessage_no_session.
Qed.

End Wired.


(** Witness of [sendToClient_own_session_only]: the session ["session-1-a"]
    of the wired multiplexer is not the adapter's. *)
Lemma sendToClient_own_session_only_witness :
  StdioTransportAdapter.sendToClient sample_stringify "session-1-a" notification
    started_adapter
  = (started_adapter,
     Throw (TransportError "Transport not started or session mismatch" "session-1-a"))
  /\ exists text,
       (@routeToClient _ sample_stdio "session-1-a" notification 30 wired).2
       = Throw (SessionError text "session-1-a").
Proof.
  destruct (sendToClient_own_session_only sample_stringify answering_backend
              unused_websocket) as (Hguard & _ & Hroute).
  split.
  - apply Hguard. right. vm_compute. discriminate.
  - apply (Hroute wired). intros a Ha. vm_compute in Ha. injection Ha as <-.
    vm_compute. discriminate.
Defined.

(** Witness of [inbound_dispatch]: an envelope without session whose
    payload bears an id that was never routed; and the bare frame with that
    id, which comes through the adapter. *)
Lemma inbound_dispatch_witness :
  @handleInboundMessage _ socket_stdio None stale_response 40 wired_apart
  = emit (ERROR (SessionError "Unable to route inbound message - no session found"
                   "unknown")) wired_apart
  /\ emitted after_stale_reply
     = emitted wired_apart ++ [session_not_found "session-9-z"].
Proof.
  destruct (inbound_dispatch sample_parse sample_stringify answering_backend
              delivering_websocket) as (Hmux & _ & _ & Hwired).
  split.
  - exact (Hmux wired_apart None stale_response 40 eq_refl).
  - assert (Ha : transportAdapter wired_apart = Some wired_adapter)
      by (vm_compute; reflexivity).
    assert (Hinbound :
              match last (StdioTransportAdapter.emitted
                            (StdioTransportAdapter.handleBackendMessage sample_parse
                               stale_id_text 41 wired_adapter)) with
              | Some (StdioTransportAdapter.message_inbound _) => true
              | _ => false
              end = true) by (vm_compute; reflexivity).
    destruct (Hwired stale_id_text 6%nat 41 wired_apart wired_adapter Ha)
      as [(err & Hemitted & _) | (envelope & _ & _ & Hout)].
    + rewrite Hemitted, last_snoc in Hinbound. discriminate Hinbound.
    + unfold after_stale_reply. rewrite Hout.
      * vm_compute. reflexivity.
      * vm_compute. discriminate.
      * vm_compute. reflexivity.
Defined.

(** C8, as stated, fails for a message that comes from the backend.  The
    adapter drew the id "session-9-z" and createSession drew "session-1-a";
    the request 1 of this session is in the routing table.  The bare reply
    [{"id":1,"result":{}}] is not resolved through the table: the adapter
    emits it under its own id, the multiplexer finds no such session, and
    the reply is dropped with the error "Failed to handle inbound message:
    Session not found" while the request stays pending.  The bare frame
    [{"id":99,"result":1}], whose id was never routed, ends in the same
    error and not in the unroutable-message error. *)
Lemma bare_reply_is_not_looked_up :
  messageRoutes wired_apart !! IdNum 1 = Some "session-1-a"
  /\ emitted after_bare_reply
     = emitted wired_apart ++ [session_not_found "session-9-z"]
  /\ written after_bare_reply = []
  /\ messageRoutes after_bare_reply !! IdNum 1 = Some "session-1-a"
  /\ messageRoutes wired_apart !! IdNum 99 = None
  /\ emitted after_stale_reply
     = emitted wired_apart ++ [session_not_found "session-9-z"]
  /\ ~ unroutable_as_specified wired_apart after_stale_reply.
Proof.
  split; [by vm_compute|]. split; [by vm_compute|]. split; [by vm_compute|].
  split; [by vm_compute|]. split; [by vm_compute|]. split; [by vm_compute|].
  intros [_ Hemitted]. vm_compute in Hemitted. discriminate Hemitted.
Qed.

End GatewayProofs.

(* ===================================================================== *)
(** * Properties of the process supervisor *)
(* ===================================================================== *)

Module SupervisorProofs.

Import MCPProcessManager.
Import SupervisorScenarios.

Section Supervisor.

Variable JSON_parse : string -> Result json.
Variable JSON_stringify : json -> string.
Variable process_pid : Z.
Variable process_kill0 : option json -> bool.
Variable spawn : list string -> Result ChildProcess.
Variable waitForProcessReady : ChildProcess -> Result unit.

#[local] Abbreviation startProcess' :=
  (startProcess JSON_stringify process_pid spawn waitForProcessReady).
#[local] Abbreviation start' :=
  (start JSON_parse JSON_stringify process_pid process_kill0 spawn waitForProcessReady).
#[local] Abbreviation resume' :=
  (attemptRestart_resume JSON_stringify process_pid spawn waitForProcessReady).

(** *** Crash handling (C4) *)

Lemma attemptRestart_allowed pm :
  restart_allowed pm = true ->
  let count := restartCount (processStatus pm) + 1 in
  restartCount (processStatus (attemptRestart pm)) = count
  /\ status (processStatus (attemptRestart pm)) = status (processStatus pm)
  /\ backoff (attemptRestart pm) = backoff pm ++ [2 ^ count * 1000]
  /\ emitted (attemptRestart pm) = emitted pm
  /\ config (attemptRestart pm) = config pm
  /\ spawned (attemptRestart pm) = spawned pm.
Proof.
  unfold restart_allowed, attemptRestart.
  destruct (config pm) as [c|] eqn:Hcfg; [|done].
  intros [Hpolicy Hcount]%andb_true_iff.
  apply bool_decide_eq_true in Hpolicy. apply Z.ltb_lt in Hcount.
  destruct (decide (restartPolicy c = Some NEVER)); [done|].
  destruct (maxRestartAttempts c) as [cap|]; cbn in Hcount.
  - destruct (Z.geb_spec (restartCount (processStatus pm)) cap); [lia|].
    repeat (split; [first [reflexivity | exact Hcfg]|]). reflexivity.
  - destruct (Z.geb_spec (restartCount (processStatus pm)) 0); [lia|].
    repeat (split; [first [reflexivity | exact Hcfg]|]). reflexivity.
Qed.

Lemma attemptRestart_refused pm :
  restart_allowed pm = false -> attemptRestart pm = pm.
Proof.
  unfold restart_allowed, attemptRestart. destruct (config pm) as [c|]; [|done].
  intros Hno. destruct (decide (restartPolicy c = Some NEVER)) as [|Hpolicy]; [done|].
  rewrite bool_decide_eq_true_2 in Hno by done. cbn in Hno. apply Z.ltb_ge in Hno.
  destruct (maxRestartAttempts c) as [cap|]; cbn in Hno.
  - destruct (Z.geb_spec (restartCount (processStatus pm)) cap); [done|lia].
  - destruct (Z.geb_spec (restartCount (processStatus pm)) 0); [done|lia].
Qed.

Lemma startHealthCheck_configured pm c :
  config pm = Some c ->
  exists health idle, startHealthCheck pm = (set_timers health idle pm, Ok tt).
Proof.
  intros Hc. unfold startHealthCheck. rewrite Hc.
  assert (Hid : pm = set_timers (healthCheckTimer pm) (idleTimer pm) pm) by by destruct pm.
  destruct (healthCheckUrl c), (healthCheckInterval c) as [i|];
    try (exists (healthCheckTimer pm), (idleTimer pm); by rewrite <- Hid).
  destruct (i =? 0); [|by eauto].
  exists (healthCheckTimer pm), (idleTimer pm). by rewrite <- Hid.
Qed.

Lemma resetIdleTimer_configured pm c :
  config pm = Some c ->
  exists health idle, resetIdleTimer pm = (set_timers health idle pm, Ok tt).
Proof.
  intros Hc. unfold resetIdleTimer. rewrite Hc. destruct (idleTimeout c); by eauto.
Qed.

Lemma ready_tail {A} (x : State) c (failed : ShimMCPError -> State -> A)
  (started : State -> A) :
  config x = Some c ->
  (let '(pm, checked) := startHealthCheck x in
   match checked with
   | Throw e => failed e pm
   | Ok _ =>
       let '(pm, armed) := resetIdleTimer pm in
       match armed with
       | Throw e => failed e pm
       | Ok _ => started pm
       end
   end) = started (resetIdleTimer (startHealthCheck x).1).1.
Proof.
  intros Hc. destruct (startHealthCheck_configured x c Hc) as (h1 & i1 & ->).
  cbn [fst snd].
  by destruct (resetIdleTimer_configured (set_timers h1 i1 x) c Hc) as (h2 & i2 & ->).
Qed.

(** startProcess when no process is held and the configuration is [c]. *)
Lemma startProcess_configured now pm c :
  process pm = None -> config pm = Some c ->
  let failed (e : ShimMCPError) (pm : State) :=
    (cleanup pm, Throw (ProcessError ("Failed to start process: " +:+ error_message e))) in
  let pm1 :=
    set_spawned (spawned pm ++ [command c])
      (set_lockFile
         (Some (JSON_stringify
                  (JObj [("pid", JNum process_pid); ("startTime", JNum now);
                         ("command", JArr (JStr <$> command c))])))
         (updateStatus STARTING None None pm)) in
  startProcess' now pm
  = match spawn (command c) with
    | Throw e => failed e pm1
    | Ok child =>
        match waitForProcessReady child with
        | Throw e => failed e (set_process (Some child) pm1)
        | Ok _ =>
            let pm2 := updateStatus RUNNING (Some (child_pid child)) (Some now)
                         (set_process (Some child) pm1) in
            (emit (BACKEND_STARTED (child_pid child))
               (resetIdleTimer (startHealthCheck pm2).1).1, Ok tt)
        end
    end.
Proof.
  intros Hp Hc. unfold startProcess, createLockFile. rewrite Hp.
  change (config (updateStatus STARTING None None pm)) with (config pm). rewrite Hc.
  cbv beta iota zeta.
  change (config (set_lockFile _ (updateStatus STARTING None None pm))) with (config pm).
  rewrite Hc.
  destruct (spawn (command c)) as [child|e]; [|done].
  destruct (waitForProcessReady child) as [|e]; [|done].
  refine (ready_tail _ c
            (fun e pm => (cleanup pm,
                          Throw (ProcessError
                                   ("Failed to start process: " +:+ error_message e))))
            (fun pm => (emit (BACKEND_STARTED (child_pid child)) pm, Ok tt)) _).
  exact Hc.
Qed.

Lemma timers_after_ready pm c :
  config pm = Some c ->
  exists health idle,
    (resetIdleTimer (startHealthCheck pm).1).1 = set_timers health idle pm.
Proof.
  intros Hc. destruct (startHealthCheck_configured pm c Hc) as (h1 & i1 & ->).
  cbn [fst snd].
  destruct (resetIdleTimer_configured (set_timers h1 i1 pm) c Hc) as (h2 & i2 & ->).
  by exists h2, i2.
Qed.

(** After cleanup no process is held, so that startProcess gets to spawn. *)
Lemma startProcess_spawns now pm c :
  process pm = None -> config pm = Some c ->
  spawned (startProcess' now pm).1 = spawned pm ++ [command c].
Proof.
  intros Hp Hc. rewrite (startProcess_configured now pm c Hp Hc). cbv zeta.
  destruct (spawn (command c)) as [child|e]; [|done].
  destruct (waitForProcessReady child); [|done]. cbn [fst].
  match goal with
  | |- context [resetIdleTimer (startHealthCheck ?x).1] =>
      destruct (timers_after_ready x c Hc) as (h & i & ->)
  end.
  reflexivity.
Qed.

(** C4: when the exit of the backend is observed while the status is not
    'stopping', the status becomes 'crashed' and one crash event carrying a
    ProcessError is emitted; nothing is spawned yet.  If the restart policy
    is not 'never' and restartCount is below maxRestartAttempts,
    restartCount is incremented and a backoff sleep of 2^restartCount
    seconds is started for the incremented count (2 seconds for the first
    crash); when a sleep has elapsed, attemptRestart goes on: the sleep is
    no longer pending and startProcess spawns the command of the
    configuration again.  Otherwise the counter is left as it is, no
    backoff is started, and with no sleep pending nothing goes on and
    nothing is spawned. *)
Theorem crash_restart_backoff (code : option Z) (signal : option string) (pm : State) :
  status (processStatus pm) <> STOPPING ->
  let pm' := on_exit code signal pm in
  let count := restartCount (processStatus pm) in
  status (processStatus pm') = CRASHED
  /\ emitted pm' = emitted pm ++ [BACKEND_CRASHED (exit_error code signal)]
  /\ spawned pm' = spawned pm
  /\ if restart_allowed pm then
       restartCount (processStatus pm') = count + 1
       /\ backoff pm' = backoff pm ++ [2 ^ (count + 1) * 1000]
       /\ (count = 0 -> backoff pm' = backoff pm ++ [2000])
       /\ exists c,
            config pm = Some c
            /\ forall now,
                 resume' now pm' = (startProcess' now (set_backoff (tail (backoff pm')) pm')).1
                 /\ spawned (resume' now pm') = spawned pm ++ [command c]
                 /\ backoff (resume' now pm') = tail (backoff pm')
                 /\ restartCount (processStatus (resume' now pm')) = count + 1
     else
       restartCount (processStatus pm') = count
       /\ backoff pm' = backoff pm
       /\ (backoff pm = [] ->
           forall now, resume' now pm' = pm' /\ spawned (resume' now pm') = spawned pm).
Proof.
  intros Hstatus pm' count. subst pm' count. unfold on_exit.
  rewrite bool_decide_eq_false_2 by exact Hstatus.
  set (pm1 := emit _ (updateStatus CRASHED None None pm)).
  assert (Hallowed : restart_allowed pm1 = restart_allowed pm) by done.
  destruct (restart_allowed pm) eqn:Hr.
  - destruct (attemptRestart_allowed pm1 Hallowed) as (Hn & Hs & Hb & He & Hc & Hsp).
    split; [exact Hs|]. split; [exact He|]. split; [exact Hsp|].
    split; [exact Hn|]. split; [exact Hb|]. split.
    + intros Hzero. change (backoff (cleanup (attemptRestart pm1)))
        with (backoff (attemptRestart pm1)). rewrite Hb.
      change (restartCount (processStatus pm1)) with (restartCount (processStatus pm)).
      by rewrite Hzero.
    + unfold restart_allowed in Hr. destruct (config pm) as [c|] eqn:Hcfg; [|done].
      exists c. split; [reflexivity|]. intros now.
      set (pm2 := cleanup (attemptRestart pm1)).
      assert (Hb2 : backoff pm2 = backoff pm ++ [2 ^ (restartCount (processStatus pm) + 1) * 1000])
        by exact Hb.
      assert (Hresume : resume' now pm2
                        = (startProcess' now (set_backoff (tail (backoff pm2)) pm2)).1).
      { unfold attemptRestart_resume. rewrite Hb2.
        by destruct (backoff pm) as [|d rest]. }
      assert (Hc2 : config (set_backoff (tail (backoff pm2)) pm2) = Some c).
      { change (config (attemptRestart pm1) = Some c). by rewrite Hc. }
      assert (Hp2 : process (set_backoff (tail (backoff pm2)) pm2) = None) by reflexivity.
      split; [exact Hresume|]. rewrite Hresume.
      rewrite (startProcess_spawns now _ c Hp2 Hc2).
      rewrite (startProcess_configured now _ c Hp2 Hc2). cbv zeta.
      split; [exact (f_equal (fun l => l ++ [command c]) Hsp)|].
      destruct (spawn (command c)) as [child|e]; [|by split].
      destruct (waitForProcessReady child); [|by split]. cbn [fst].
      match goal with
      | |- context [resetIdleTimer (startHealthCheck ?x).1] =>
          destruct (timers_after_ready x c Hc2) as (h & i & ->)
      end.
      by split.
  - rewrite (attemptRestart_refused pm1 Hallowed).
    split; [reflexivity|]. split; [reflexivity|]. split; [reflexivity|].
    split; [reflexivity|]. split; [reflexivity|].
    intros Hempty now. unfold attemptRestart_resume.
    change (backoff (cleanup pm1)) with (backoff pm). by rewrite Hempty.
Qed.

(** *** The lock file (C6) *)

Lemma isAnotherInstanceRunning_spec pm :
  isAnotherInstanceRunning JSON_parse process_kill0 pm
  = if lock_held JSON_parse process_kill0 pm then (pm, true)
    else (set_lockFile None pm, false).
Proof.
  unfold isAnotherInstanceRunning, lock_held.
  destruct (lockFile pm) as [content|] eqn:Hlock.
  - destruct (JSON_parse content) as [lockData|e]; [|done].
    destruct lockData; try done; cbn; by destruct (process_kill0 _).
  - destruct pm. cbn in Hlock. by subst.
Qed.

Lemma startProcess_not_conflict now pm :
  (startProcess' now pm).2 <> Throw conflict.
Proof.
  unfold conflict. destruct (process pm) as [child|] eqn:Hp.
  { unfold startProcess. by rewrite Hp. }
  destruct (config pm) as [c|] eqn:Hc.
  - rewrite (startProcess_configured now pm c Hp Hc). cbv zeta.
    destruct (spawn (command c)) as [child|e]; [|done].
    by destruct (waitForProcessReady child).
  - unfold startProcess, createLockFile. rewrite Hp.
    change (config (updateStatus STARTING None None pm)) with (config pm).
    by rewrite Hc.
Qed.

(** C6: start throws the conflict error exactly when a lock file exists
    whose record holds the pid of a live process; the call then stops before
    startProcess: nothing is spawned and the lock file is left as it is.
    Otherwise a lock file that may exist (dead pid, or content that is not a
    record) is removed and start goes on with startProcess, as it does
    when there is no lock file. *)
Theorem start_lock_conflict (config : ProcessManagerConfig) (now : Z) (pm : State) :
  ((start' config now pm).2 = Throw conflict
   <-> lock_held JSON_parse process_kill0 pm = true)
  /\ (lock_held JSON_parse process_kill0 pm = true ->
      start' config now pm = (set_config (Some (merge_config config)) pm, Throw conflict)
      /\ spawned (start' config now pm).1 = spawned pm
      /\ lockFile (start' config now pm).1 = lockFile pm
      /\ process (start' config now pm).1 = process pm)
  /\ (lock_held JSON_parse process_kill0 pm = false ->
      start' config now pm
      = startProcess' now (set_lockFile None (set_config (Some (merge_config config)) pm))
      /\ start' config now pm = start' config now (set_lockFile None pm)).
Proof.
  assert (Hheld : forall pm0,
            lock_held JSON_parse process_kill0
              (set_config (Some (merge_config config)) pm0)
            = lock_held JSON_parse process_kill0 pm0) by done.
  assert (Hstart : forall pm0,
            start' config now pm0
            = if lock_held JSON_parse process_kill0 pm0
              then (set_config (Some (merge_config config)) pm0, Throw conflict)
              else startProcess' now
                     (set_lockFile None (set_config (Some (merge_config config)) pm0))).
  { intros pm0. unfold start. rewrite isAnotherInstanceRunning_spec, Hheld.
    by destruct (lock_held JSON_parse process_kill0 pm0). }
  split; [|split].
  - rewrite Hstart. destruct (lock_held JSON_parse process_kill0 pm); [done|].
    split; [|done]. intros Hconflict. by apply startProcess_not_conflict in Hconflict.
  - intros Hlock. rewrite Hstart, Hlock. done.
  - intros Hlock. rewrite !Hstart, Hlock. split; [done|].
    assert (Hnone : lock_held JSON_parse process_kill0 (set_lockFile None pm) = false)
      by done.
    by rewrite Hnone.
Qed.

End Supervisor.

(** Witness of [crash_restart_backoff]: the first crash of the running
    sample backend starts a backoff of 2000 milliseconds, after which the
    command is spawned a second time. *)
Lemma crash_restart_backoff_witness :
  status (processStatus crashed_once) = CRASHED
  /\ restartCount (processStatus crashed_once) = 1
  /\ backoff crashed_once = [2000]
  /\ spawned crashed_once = [["node"; "server.js"]]
  /\ spawned (attemptRestart_resume lock_stringify 777 sample_spawn sample_ready 2100
                crashed_once)
     = [["node"; "server.js"]; ["node"; "server.js"]]
  /\ backoff (attemptRestart_resume lock_stringify 777 sample_spawn sample_ready 2100
                crashed_once) = [].
Proof.
  unfold crashed_once.
  destruct (crash_restart_backoff lock_stringify 777 sample_spawn sample_ready
              (Some 1) None running_supervisor)
    as (Hstatus & _ & Hspawned & Hrestart).
  - vm_compute. discriminate.
  - change (restart_allowed running_supervisor) with true in Hrestart.
    destruct Hrestart as (Hcount & _ & Hfirst & c & Hc & Hresume).
    destruct (Hresume 2100) as (_ & Hagain & Hslept & _).
    assert (Hcommand : command c = ["node"; "server.js"]).
    { vm_compute in Hc. by injection Hc as <-. }
    split; [exact Hstatus|]. split; [exact Hcount|].
    split; [by apply Hfirst|]. split; [exact Hspawned|].
    split.
    + rewrite Hagain, Hcommand. reflexivity.
    + rewrite Hslept, (Hfirst eq_refl). reflexivity.
Defined.

(** Witness of [start_lock_conflict]: the lock record of the live pid 4321
    blocks start; the record of the dead pid 1234 does not. *)
Lemma start_lock_conflict_witness :
  (start lock_parse lock_stringify 777 sample_kill0 sample_spawn sample_ready
         sample_config 100 (new (Some live_lock_text) 0)).2 = Throw conflict
  /\ start lock_parse lock_stringify 777 sample_kill0 sample_spawn sample_ready
           sample_config 100 (new (Some stale_lock_text) 0)
     = start lock_parse lock_stringify 777 sample_kill0 sample_spawn sample_ready
             sample_config 100 (new None 0).
Proof.
  split.
  - destruct (start_lock_conflict lock_parse lock_stringify 777 sample_kill0
                sample_spawn sample_ready sample_config 100
                (new (Some live_lock_text) 0)) as (Hiff & _ & _).
    apply Hiff. reflexivity.
  - destruct (start_lock_conflict lock_parse lock_stringify 777 sample_kill0
                sample_spawn sample_ready sample_config 100
                (new (Some stale_lock_text) 0)) as (_ & _ & Hstale).
    apply Hstale. reflexivity.
Defined.

End SupervisorProofs.
(* ===================================================================== *)
(** * The session table over histories *)
(* ===================================================================== *)

Module SessionTableProofs.

Import SessionMultiplexerImpl.
Import MultiplexerScenarios.
Import SessionTable.
Import TableScenarios.
Import MultiplexerProofs.

Section Steady.
Context {T : Type} `{!TransportAdapter T}.
Implicit Types m : State T.

Lemma live_identities sid m :
  is_Some (sessions m !! sid) <-> is_Some (identities m !! sid).
Proof. unfold identities. rewrite lookup_fmap. by rewrite fmap_is_Some. Qed.

Lemma steady_refl m : steady m m.
Proof. repeat split. intros mid sid Hr. by left. Qed.

Lemma steady_trans m1 m2 m3 : steady m1 m2 -> steady m2 m3 -> steady m1 m3.
Proof.
  intros (Hc1 & Hi1 & Hr1) (Hc2 & Hi2 & Hr2). split; [congruence|]. split; [congruence|].
  intros mid sid Hr. destruct (Hr2 _ _ Hr) as [Hin|Hlive]; [by apply Hr1|].
  right. apply live_identities. rewrite <- Hi1. by apply live_identities.
Qed.

(** A write that leaves configuration, sessions and routes alone. *)
Lemma steady_fields m m' :
  config m' = config m -> sessions m' = sessions m -> messageRoutes m' = messageRoutes m ->
  steady m m'.
Proof.
  intros Hc Hs Hr. split; [done|]. split; [unfold identities; by rewrite Hs|].
  intros mid sid. rewrite Hr. by left.
Qed.

Lemma identities_with_session sid f m :
  (forall s, identity (f s) = identity s) ->
  identities (with_session sid f m) = identities m.
Proof.
  intros Hf. unfold identities, with_session. cbn. apply map_eq. intros k.
  rewrite !lookup_fmap, lookup_alter. case_decide as Hk; [|done]. subst k.
  destruct (sessions m !! sid); cbn; [|done]. by rewrite Hf.
Qed.

Lemma steady_with_session sid f m :
  (forall s, identity (f s) = identity s) -> steady m (with_session sid f m).
Proof.
  intros Hf. split; [done|]. split; [by apply identities_with_session|].
  intros mid sid' Hr. by left.
Qed.

Lemma steady_emit e m : steady m (emit e m).
Proof. by apply steady_fields. Qed.

Lemma steady_updateSessionActivity sid now m : steady m (updateSessionActivity sid now m).
Proof. by apply steady_with_session. Qed.

Lemma steady_setupRequestTimeout sid mid now m :
  steady m (setupRequestTimeout sid mid now m).
Proof.
  unfold setupRequestTimeout. destruct (sessions m !! sid); [|apply steady_refl].
  cbn. eapply steady_trans; [|by apply steady_with_session]. by apply steady_fields.
Qed.

Lemma steady_clearRequestTimeout sid mid m : steady m (clearRequestTimeout sid mid m).
Proof.
  unfold clearRequestTimeout. destruct (sessions m !! sid) as [s|]; [|apply steady_refl].
  destruct (pendingRequests s !! mid); [|apply steady_refl].
  eapply steady_trans; [|by apply steady_with_session]. by apply steady_fields.
Qed.

Lemma steady_track_request sid msg now m :
  is_Some (sessions m !! sid) -> steady m (track_request sid msg now m).
Proof.
  intros Hlive. unfold track_request. destruct (id msg) as [mid|]; [|apply steady_refl].
  eapply steady_trans; [|apply steady_setupRequestTimeout].
  split; [done|]. split; [done|]. intros k sid'. cbn.
  rewrite lookup_insert. case_decide.
  - intros [= <-]. by right.
  - by left.
Qed.

Lemma steady_clear_tracking sid msg m : steady m (clear_tracking sid msg m).
Proof.
  unfold clear_tracking. destruct (id msg) as [mid|]; [|apply steady_refl].
  eapply steady_trans; [apply steady_clearRequestTimeout|].
  split; [done|]. split; [done|]. intros k sid'. cbn.
  rewrite lookup_delete. case_decide; [done|]. by left.
Qed.

Lemma steady_apply_flow_control sid m : steady m (apply_flow_control sid m).
Proof.
  unfold apply_flow_control. destruct (enableFlowControl (config m)); [|apply steady_refl].
  by apply steady_with_session.
Qed.

Lemma steady_enqueue sid msg m : steady m (enqueue sid msg m).
Proof. by apply steady_with_session. Qed.

Lemma steady_send_envelope session adapter sid msg now m :
  steady m (send_envelope session adapter sid msg now m).1.
Proof.
  unfold send_envelope. destruct (sendToBackend now _ adapter) as [adapter' r].
  set (m1 := set_transportAdapter _ _).
  assert (H1 : steady m m1).
  { subst m1. eapply steady_trans;
      [by apply (steady_with_session sid (set_lastSequence (lastSequence session + 1)))|].
    by apply steady_fields. }
  destruct r as [|e]; [exact H1|]. cbn [fst].
  destruct (enableFlowControl (config m1)); [|exact H1].
  eapply steady_trans; [exact H1|]. by apply steady_with_session.
Qed.

Lemma steady_routeToBackend sid msg now m : steady m (routeToBackend sid msg now m).1.
Proof.
  unfold routeToBackend.
  destruct (sessions m !! sid) as [session|] eqn:Hs; [|apply steady_refl].
  destruct (transportAdapter m) as [adapter|]; [|apply steady_refl].
  cbv zeta.
  pose proof (steady_updateSessionActivity sid now m) as H1.
  set (m1 := updateSessionActivity sid now m) in *.
  destruct (enableFlowControl (config m1) && backpressure session).
  - eapply steady_trans; [exact H1|apply steady_enqueue].
  - eapply steady_trans; [exact H1|].
    eapply steady_trans; [apply (steady_track_request sid msg now)|].
    { apply live_identities. destruct H1 as (_ & -> & _). apply live_identities. by eexists. }
    eapply steady_trans; [apply steady_apply_flow_control|].
    apply steady_send_envelope.
Qed.

Lemma steady_flush_loop sid now messages rest m :
  steady m (flush_loop sid now messages rest m).
Proof.
  revert m. induction rest as [|message rest IH]; intros m; cbn; [apply steady_refl|].
  destruct (sessions m !! sid) as [session|]; [|apply steady_refl].
  destruct (backpressure session).
  - by apply steady_with_session.
  - pose proof (steady_routeToBackend sid message now m) as Hrtb.
    destruct (routeToBackend sid message now m) as [m' [|e]]; cbn in Hrtb.
    + eapply steady_trans; [exact Hrtb|apply IH].
    + eapply steady_trans; [exact Hrtb|].
      eapply steady_trans; [apply steady_emit|apply IH].
Qed.

Lemma steady_processQueuedMessages sid now m :
  steady m (processQueuedMessages sid now m).
Proof.
  unfold processQueuedMessages.
  destruct (sessions m !! sid) as [session|]; [|apply steady_refl].
  destruct (messageQueue session) as [|message rest]; [apply steady_refl|].
  eapply steady_trans; [|apply steady_flush_loop]. by apply steady_with_session.
Qed.

Lemma steady_update_flow_control session sid now m :
  steady m (update_flow_control session sid now m).
Proof.
  unfold update_flow_control.
  destruct (enableFlowControl (config m)); [|apply steady_refl].
  destruct (backpressure session && (0 <? flowControlWindow session + 1)).
  - eapply steady_trans; [|apply steady_processQueuedMessages].
    by apply steady_with_session.
  - by apply steady_with_session.
Qed.

Lemma steady_deliver sid msg now m : steady m (deliver sid msg now m).1.
Proof.
  unfold deliver. destruct (transportAdapter m); [|apply steady_refl].
  destruct (sendToClient now sid msg t) as [adapter' r].
  assert (steady m (set_transportAdapter (Some adapter') m)) by by apply steady_fields.
  by destruct r.
Qed.

Lemma steady_routeToClient sid msg now m : steady m (routeToClient sid msg now m).1.
Proof.
  unfold routeToClient.
  destruct (sessions m !! sid) as [session|]; [|apply steady_refl].
  destruct (transportAdapter m) as [adapter|]; [|apply steady_refl].
  cbv zeta.
  eapply steady_trans; [apply steady_updateSessionActivity|].
  eapply steady_trans; [apply steady_clear_tracking|].
  eapply steady_trans; [apply steady_update_flow_control|].
  apply steady_deliver.
Qed.

Lemma steady_handleInboundMessage sid payload now m :
  steady m (handleInboundMessage sid payload now m).
Proof.
  unfold handleInboundMessage. destruct (truthy _) as [target|].
  - pose proof (steady_routeToClient target payload now m) as Hrtc.
    destruct (routeToClient target payload now m) as [m' [|e]]; [done|].
    eapply steady_trans; [exact Hrtc|apply steady_emit].
  - apply steady_emit.
Qed.

Lemma steady_handleOutboundMessage sid payload now m :
  steady m (handleOutboundMessage sid payload now m).
Proof.
  unfold handleOutboundMessage.
  pose proof (steady_routeToBackend sid payload now m) as Hrtb.
  destruct (routeToBackend sid payload now m) as [m' [|e]]; [done|].
  eapply steady_trans; [exact Hrtb|apply steady_emit].
Qed.

Lemma steady_fireTimer t m : steady m (fireTimer t m).
Proof.
  unfold fireTimer. destruct (timers m !! t) as [[sid mid]|]; [|apply steady_refl].
  eapply steady_trans; [|apply steady_emit].
  eapply steady_trans; [|apply steady_clearRequestTimeout]. by apply steady_fields.
Qed.

(** *** The invariant of the table *)

Lemma table_invariant_steady m m' : steady m m' -> table_invariant m -> table_invariant m'.
Proof.
  intros (Hc & Hi & Hr) (Hroutes & Hident & Hsize). split; [|split].
  - intros mid sid Hl. apply live_identities. rewrite Hi. apply live_identities.
    destruct (Hr _ _ Hl) as [Hin|Hlive]; [by eapply Hroutes|done].
  - intros sid s Hs.
    assert (Hl : identities m' !! sid = Some (identity s))
      by (unfold identities; by rewrite lookup_fmap, Hs).
    rewrite Hi in Hl. unfold identities in Hl. rewrite lookup_fmap in Hl.
    destruct (sessions m !! sid) as [s0|] eqn:Hs0; [|done].
    cbn in Hl. destruct (Hident _ _ Hs0) as [Hid Hact].
    unfold identity in Hl. injection Hl as H1 _ _ H4. split; congruence.
  - rewrite Hc. replace (size (sessions m')) with (size (sessions m)); [done|].
    rewrite <- (map_size_fmap identity (sessions m)).
    rewrite <- (map_size_fmap identity (sessions m')). unfold identities in Hi.
    by rewrite Hi.
Qed.

Lemma destroySession_messageRoutes sid s m :
  sessions m !! sid = Some s ->
  messageRoutes (destroySession sid m) = filter (fun kv => kv.2 <> sid) (messageRoutes m).
Proof.
  intros Hs. unfold destroySession. rewrite Hs. cbn.
  by destruct (clear_pending_frame (pendingRequests s) m) as (_ & _ & _ & -> & _).
Qed.

Lemma table_invariant_new cfg : table_invariant (@new T cfg).
Proof.
  split; [|split]; cbn.
  - intros mid sid. by rewrite lookup_empty.
  - intros sid s. by rewrite lookup_empty.
  - rewrite map_size_empty. lia.
Qed.

Lemma table_invariant_createSession clientPid sid now m :
  table_invariant m -> table_invariant (createSession clientPid sid now m).1.
Proof.
  intros (Hroutes & Hident & Hsize). unfold createSession.
  destruct (Z.geb_spec (Z.of_nat (size (sessions m))) (maxConcurrentSessions (config m)))
    as [Hfull|Hbelow]; [done|].
  split; [|split]; cbn.
  - intros mid sid' Hl. destruct (decide (sid' = sid)) as [->|Hne].
    + rewrite lookup_insert_eq. by eexists.
    + rewrite lookup_insert_ne by done. by eapply Hroutes.
  - intros sid' s. destruct (decide (sid' = sid)) as [->|Hne].
    + rewrite lookup_insert_eq. by intros [= <-].
    + rewrite lookup_insert_ne by done. apply Hident.
  - pose proof (map_size_insert sid
        {| session_id := sid; clientPid := clientPid; startTime := now;
           lastActivity := now; isActive := true; pendingRequests := ∅;
           messageQueue := []; lastSequence := 0;
           flowControlWindow := flowControlWindowSize (config m);
           backpressure := false |} (sessions m)) as Hins.
    destruct (sessions m !! sid); unfold Datatypes.id in Hins; lia.
Qed.

Lemma table_invariant_destroySession sid m :
  table_invariant m -> table_invariant (destroySession sid m).
Proof.
  intros (Hroutes & Hident & Hsize).
  destruct (sessions m !! sid) as [s|] eqn:Hs.
  - split; [|split].
    + intros mid sid'. rewrite (destroySession_messageRoutes sid s) by done.
      rewrite destroySession_sessions. intros Hl.
      apply map_lookup_filter_Some in Hl as [Hl Hne]. cbn in Hne.
      rewrite lookup_delete_ne by done. by eapply Hroutes.
    + intros sid' s'. rewrite destroySession_sessions. intros Hl.
      apply lookup_delete_Some in Hl as [_ Hl]. by apply Hident.
    + rewrite destroySession_sessions, destroySession_config.
      pose proof (map_size_delete sid (sessions m)) as Hdel. rewrite Hs in Hdel. cbn in Hdel. lia.
  - unfold destroySession. rewrite Hs. exact (conj Hroutes (conj Hident Hsize)).
Qed.

Lemma table_invariant_destroy_each (f : string * ActiveSession -> bool)
  (l : list (string * ActiveSession)) m :
  table_invariant m ->
  table_invariant (foldr (fun kv acc => if f kv then destroySession kv.1 acc else acc) m l).
Proof.
  intros Hinv. induction l as [|kv l IH]; cbn; [done|].
  destruct (f kv); [by apply table_invariant_destroySession|done].
Qed.

Lemma table_invariant_apply m op : table_invariant m -> table_invariant (apply m op).
Proof.
  intros Hinv. destruct op; cbn.
  - eapply table_invariant_steady; [|exact Hinv]. by apply steady_fields.
  - by apply table_invariant_createSession.
  - by apply table_invariant_destroySession.
  - eapply table_invariant_steady; [apply steady_routeToBackend|exact Hinv].
  - eapply table_invariant_steady; [apply steady_routeToClient|exact Hinv].
  - eapply table_invariant_steady; [apply steady_handleInboundMessage|exact Hinv].
  - eapply table_invariant_steady; [apply steady_handleOutboundMessage|exact Hinv].
  - eapply table_invariant_steady; [apply steady_fireTimer|exact Hinv].
  - unfold cleanupIdleSessions. by apply table_invariant_destroy_each.
  - unfold destroy. apply (table_invariant_destroy_each (fun _ => true)).
    eapply table_invariant_steady; [|exact Hinv]. by apply steady_fields.
Qed.

Lemma table_invariant_run ops m : table_invariant m -> table_invariant (run ops m).
Proof.
  revert m. induction ops as [|op ops IH]; intros m Hinv; cbn; [done|].
  apply IH. by apply table_invariant_apply.
Qed.

End Steady.

(** *** Sequence numbers *)

Section Numbering.
Context {T : Type} `{!TransportAdapter T}.
Implicit Types m : State T.

Lemma same_numbering_refl m : same_numbering m m.
Proof. by split. Qed.

Lemma same_numbering_trans m1 m2 m3 :
  same_numbering m1 m2 -> same_numbering m2 m3 -> same_numbering m1 m3.
Proof. intros [? ?] [? ?]. split; congruence. Qed.

Lemma same_numbering_fields m m' :
  sessions m' = sessions m -> outbox m' = outbox m -> same_numbering m m'.
Proof. intros Hs Ho. split; [by rewrite Hs|done]. Qed.

Lemma same_numbering_with_session sid f m :
  (forall s, lastSequence (f s) = lastSequence s) -> same_numbering m (with_session sid f m).
Proof.
  intros Hf. split; [|done]. unfold with_session. cbn. apply map_eq. intros k.
  rewrite !lookup_fmap, lookup_alter. case_decide as Hk; [|done]. subst k.
  destruct (sessions m !! sid); cbn; [|done]. by rewrite Hf.
Qed.

Lemma same_numbering_setupRequestTimeout sid mid now m :
  same_numbering m (setupRequestTimeout sid mid now m).
Proof.
  unfold setupRequestTimeout. destruct (sessions m !! sid); [|apply same_numbering_refl].
  cbn. eapply same_numbering_trans; [|by apply same_numbering_with_session].
  by apply same_numbering_fields.
Qed.

Lemma same_numbering_clearRequestTimeout sid mid m :
  same_numbering m (clearRequestTimeout sid mid m).
Proof.
  unfold clearRequestTimeout.
  destruct (sessions m !! sid) as [s|]; [|apply same_numbering_refl].
  destruct (pendingRequests s !! mid); [|apply same_numbering_refl].
  eapply same_numbering_trans; [|by apply same_numbering_with_session].
  by apply same_numbering_fields.
Qed.

Lemma same_numbering_track_request sid msg now m :
  same_numbering m (track_request sid msg now m).
Proof.
  unfold track_request. destruct (id msg); [|apply same_numbering_refl].
  eapply same_numbering_trans; [|apply same_numbering_setupRequestTimeout].
  by apply same_numbering_fields.
Qed.

Lemma same_numbering_clear_tracking sid msg m :
  same_numbering m (clear_tracking sid msg m).
Proof.
  unfold clear_tracking. destruct (id msg); [|apply same_numbering_refl].
  eapply same_numbering_trans; [apply same_numbering_clearRequestTimeout|].
  by apply same_numbering_fields.
Qed.

Lemma same_numbering_apply_flow_control sid m :
  same_numbering m (apply_flow_control sid m).
Proof.
  unfold apply_flow_control.
  destruct (enableFlowControl (config m)); [|apply same_numbering_refl].
  by apply same_numbering_with_session.
Qed.

Lemma same_numbering_deliver sid msg now m : same_numbering m (deliver sid msg now m).1.
Proof.
  unfold deliver. destruct (transportAdapter m); [|apply same_numbering_refl].
  destruct (sendToClient now sid msg t) as [adapter' r].
  assert (same_numbering m (set_transportAdapter (Some adapter') m))
    by by apply same_numbering_fields.
  by destruct r.
Qed.

Lemma lastSequence_lookup sid m m' s' :
  same_numbering m m' -> sessions m' !! sid = Some s' ->
  exists s, sessions m !! sid = Some s /\ lastSequence s = lastSequence s'.
Proof.
  intros [Hl _] Hs'.
  assert (Hk : (lastSequence <$> sessions m') !! sid = Some (lastSequence s'))
    by by rewrite lookup_fmap, Hs'.
  rewrite Hl, lookup_fmap in Hk. destruct (sessions m !! sid) as [s|]; [|done].
  exists s. split; [done|]. by injection Hk.
Qed.

Lemma same_numbering_sym m m' : same_numbering m m' -> same_numbering m' m.
Proof. intros [? ?]. by split. Qed.

Lemma numbered_same m m' : same_numbering m m' -> numbered_from_one m -> numbered_from_one m'.
Proof.
  intros Hsame Hnum sid s' Hs'.
  destruct (lastSequence_lookup sid m m' s' Hsame Hs') as (s & Hs & <-).
  unfold sequences_of. destruct Hsame as [_ ->]. by apply Hnum.
Qed.

Lemma sequences_of_snoc sid (envelope : SessionEnvelope MCPMessage) m :
  sequences_of sid (set_outbox (outbox m ++ [envelope]) m)
  = sequences_of sid m
    ++ (if decide (sessionId envelope = sid) then [sequence envelope] else []).
Proof.
  unfold sequences_of. cbn. rewrite filter_app, fmap_app. f_equal.
  rewrite filter_cons, filter_nil. by case_decide.
Qed.

Lemma seqZ_snoc (n : Z) : 0 <= n -> seqZ 1 (n + 1) = seqZ 1 n ++ [n + 1].
Proof.
  intros Hn. rewrite seqZ_app by lia. f_equal.
  rewrite seqZ_cons by lia. replace (Z.pred 1) with 0 by lia. rewrite seqZ_nil by lia.
  f_equal. lia.
Qed.

Lemma numbered_send_envelope session current adapter sid msg now m :
  sessions m !! sid = Some current -> lastSequence current = lastSequence session ->
  numbered_from_one m -> numbered_from_one (send_envelope session adapter sid msg now m).1.
Proof.
  intros Hcur Hlast Hnum. unfold send_envelope.
  destruct (sendToBackend now _ adapter) as [adapter' r].
  set (envelope := {| sessionId := sid; sequence := lastSequence session + 1;
                      payload := msg; timestamp := now |}).
  set (m1 := with_session sid (set_lastSequence (lastSequence session + 1)) m).
  set (m2 := set_outbox (outbox m1 ++ [envelope]) m1).
  assert (Hnum2 : numbered_from_one m2).
  { intros k s Hs. subst m2. rewrite sequences_of_snoc. cbn in Hs.
    rewrite lookup_alter in Hs. cbn [sessionId sequence envelope]. case_decide as Hk.
    - subst k. rewrite Hcur in Hs. cbn in Hs. injection Hs as <-. cbn.
      destruct (Hnum sid current Hcur) as [Hpos Hsuf]. rewrite Hlast in Hpos, Hsuf.
      split; [lia|]. rewrite seqZ_snoc by done. by apply suffix_app.
    - rewrite app_nil_r. by apply Hnum. }
  assert (Hnum3 : numbered_from_one (set_transportAdapter (Some adapter') m2))
    by (eapply numbered_same; [|exact Hnum2]; by apply same_numbering_fields).
  destruct r as [|e]; [exact Hnum3|]. cbn [fst].
  destruct (enableFlowControl _); [|exact Hnum3].
  eapply numbered_same; [|exact Hnum3]. by apply same_numbering_with_session.
Qed.

Lemma numbered_routeToBackend sid msg now m :
  numbered_from_one m -> numbered_from_one (routeToBackend sid msg now m).1.
Proof.
  intros Hnum. unfold routeToBackend.
  destruct (sessions m !! sid) as [session|] eqn:Hs; [|done].
  destruct (transportAdapter m) as [adapter|]; [|done].
  cbv zeta.
  pose proof (same_numbering_with_session sid (set_lastActivity now) m
                (fun s => eq_refl)) as H1.
  change (with_session sid (set_lastActivity now) m)
    with (updateSessionActivity sid now m) in H1.
  set (m1 := updateSessionActivity sid now m) in *.
  destruct (enableFlowControl (config m1) && backpressure session).
  - eapply numbered_same; [|exact Hnum].
    eapply same_numbering_trans; [exact H1|]. by apply same_numbering_with_session.
  - pose proof (same_numbering_trans _ _ _ H1
                  (same_numbering_trans _ _ _
                     (same_numbering_track_request sid msg now m1)
                     (same_numbering_apply_flow_control sid
                        (track_request sid msg now m1)))) as H3.
    set (m3 := apply_flow_control sid (track_request sid msg now m1)) in *.
    assert (Hk : (lastSequence <$> sessions m3) !! sid = Some (lastSequence session)).
    { destruct H3 as [-> _]. by rewrite lookup_fmap, Hs. }
    rewrite lookup_fmap in Hk.
    destruct (sessions m3 !! sid) as [current|] eqn:Hcur; [|done].
    apply (numbered_send_envelope session current); [done|by injection Hk|].
    by eapply numbered_same.
Qed.

Lemma numbered_flush_loop sid now messages rest m :
  numbered_from_one m -> numbered_from_one (flush_loop sid now messages rest m).
Proof.
  revert m. induction rest as [|message rest IH]; intros m Hnum; cbn; [done|].
  destruct (sessions m !! sid) as [session|]; [|done].
  destruct (backpressure session).
  - eapply numbered_same; [|exact Hnum]. by apply same_numbering_with_session.
  - pose proof (numbered_routeToBackend sid message now m Hnum) as Hrtb.
    destruct (routeToBackend sid message now m) as [m' [|e]]; cbn in Hrtb; apply IH.
    + exact Hrtb.
    + eapply numbered_same; [|exact Hrtb]. by apply same_numbering_fields.
Qed.

Lemma numbered_processQueuedMessages sid now m :
  numbered_from_one m -> numbered_from_one (processQueuedMessages sid now m).
Proof.
  intros Hnum. unfold processQueuedMessages.
  destruct (sessions m !! sid) as [session|]; [|done].
  destruct (messageQueue session) as [|message rest]; [done|].
  apply numbered_flush_loop. eapply numbered_same; [|exact Hnum].
  by apply same_numbering_with_session.
Qed.

Lemma numbered_update_flow_control session sid now m :
  numbered_from_one m -> numbered_from_one (update_flow_control session sid now m).
Proof.
  intros Hnum. unfold update_flow_control.
  destruct (enableFlowControl (config m)); [|done].
  destruct (backpressure session && (0 <? flowControlWindow session + 1)).
  - apply numbered_processQueuedMessages. eapply numbered_same; [|exact Hnum].
    by apply same_numbering_with_session.
  - eapply numbered_same; [|exact Hnum]. by apply same_numbering_with_session.
Qed.

Lemma numbered_routeToClient sid msg now m :
  numbered_from_one m -> numbered_from_one (routeToClient sid msg now m).1.
Proof.
  intros Hnum. unfold routeToClient.
  destruct (sessions m !! sid) as [session|]; [|done].
  destruct (transportAdapter m) as [adapter|]; [|done].
  cbv zeta.
  eapply numbered_same; [apply same_numbering_deliver|].
  apply numbered_update_flow_control.
  eapply numbered_same; [apply same_numbering_clear_tracking|].
  eapply numbered_same; [|exact Hnum]. by apply same_numbering_with_session.
Qed.

Lemma numbered_createSession clientPid sid now m :
  numbered_from_one m -> numbered_from_one (createSession clientPid sid now m).1.
Proof.
  intros Hnum. unfold createSession. destruct (_ >=? _); [done|].
  intros k s. cbn. rewrite lookup_insert. case_decide.
  - intros [= <-]. cbn. split; [lia|]. rewrite seqZ_nil by lia. apply suffix_nil.
  - apply Hnum.
Qed.

Lemma destroySession_outbox sid m : outbox (destroySession sid m) = outbox m.
Proof.
  unfold destroySession. destruct (sessions m !! sid) as [s|]; [|done]. cbn.
  by destruct (clear_pending_frame (pendingRequests s) m) as (_ & _ & _ & _ & _ & ->).
Qed.

Lemma numbered_destroySession sid m :
  numbered_from_one m -> numbered_from_one (destroySession sid m).
Proof.
  intros Hnum k s. rewrite destroySession_sessions. intros Hl.
  apply lookup_delete_Some in Hl as [_ Hl].
  unfold sequences_of. rewrite destroySession_outbox. by apply Hnum.
Qed.

Lemma numbered_destroy_each (f : string * ActiveSession -> bool)
  (l : list (string * ActiveSession)) m :
  numbered_from_one m ->
  numbered_from_one (foldr (fun kv acc => if f kv then destroySession kv.1 acc else acc) m l).
Proof.
  intros Hnum. induction l as [|kv l IH]; cbn; [done|].
  destruct (f kv); [by apply numbered_destroySession|done].
Qed.

Lemma numbered_apply m op : numbered_from_one m -> numbered_from_one (apply m op).
Proof.
  intros Hnum.
  destruct op as [adapter|pid sid now|sid|sid msg now|sid msg now|sid msg now|sid msg now
                 |t|now|]; cbn.
  - eapply numbered_same; [|exact Hnum]. by apply same_numbering_fields.
  - by apply numbered_createSession.
  - by apply numbered_destroySession.
  - by apply numbered_routeToBackend.
  - by apply numbered_routeToClient.
  - unfold handleInboundMessage. destruct (truthy _) as [target|].
    + pose proof (numbered_routeToClient target msg now m Hnum) as Hrtc.
      destruct (routeToClient target msg now m) as [m' [|e]]; [done|].
      eapply numbered_same; [|exact Hrtc]. by apply same_numbering_fields.
    + eapply numbered_same; [|exact Hnum]. by apply same_numbering_fields.
  - unfold handleOutboundMessage.
    pose proof (numbered_routeToBackend sid msg now m Hnum) as Hrtb.
    destruct (routeToBackend sid msg now m) as [m' [|e]]; [done|].
    eapply numbered_same; [|exact Hrtb]. by apply same_numbering_fields.
  - unfold fireTimer. destruct (timers m !! t) as [[sid mid]|]; [|done].
    eapply numbered_same; [|exact Hnum].
    eapply same_numbering_trans; [|by apply same_numbering_fields].
    eapply same_numbering_trans; [|apply same_numbering_clearRequestTimeout].
    by apply same_numbering_fields.
  - unfold cleanupIdleSessions. by apply numbered_destroy_each.
  - unfold destroy. apply (numbered_destroy_each (fun _ => true)).
    eapply numbered_same; [|exact Hnum]. by apply same_numbering_fields.
Qed.

Lemma numbered_run ops m : numbered_from_one m -> numbered_from_one (run ops m).
Proof.
  revert m. induction ops as [|op ops IH]; intros m Hnum; cbn; [done|].
  apply IH. by apply numbered_apply.
Qed.

End Numbering.

Section Reachable.
Context {T : Type} `{!TransportAdapter T}.
Implicit Types m : State T.

Lemma config_run (cfg : SessionMultiplexerConfig) (ops : list (Op T)) :
  config (run ops (new cfg)) = merge_config cfg.
Proof.
  assert (Hinv : session_invariant (merge_config cfg) (fun _ _ _ => True)
                   (run ops (new cfg))).
  { apply inv_run; try apply new_invariant; done. }
  by destruct Hinv.
Qed.

(** X1: in every state a multiplexer reaches from its construction, by any
    history of public calls, listener calls, timer firings and cleanup
    ticks, an entry of the routing table points to a session that is in the
    session table. *)
Theorem routes_point_to_live_sessions (cfg : SessionMultiplexerConfig)
  (ops : list (Op T)) (messageId : MsgId) (sessionId : string) :
  messageRoutes (run ops (new cfg)) !! messageId = Some sessionId ->
  is_Some (sessions (run ops (new cfg)) !! sessionId).
Proof.
  destruct (table_invariant_run ops (new cfg) (table_invariant_new cfg)) as (Hroutes & _).
  apply Hroutes.
Qed.

(** X2: in every reachable state the session table holds at most
    [maxConcurrentSessions] sessions (none for a cap below zero), every
    session is active, so that getActiveSessionCount is the size of the
    table and the length of getAllSessions, and getSession returns for an
    id the information of a session that bears this id. *)
Theorem sessions_within_cap_and_active (cfg : SessionMultiplexerConfig)
  (ops : list (Op T)) :
  let m := run ops (new cfg) in
  Z.of_nat (size (sessions m)) <= Z.max 0 (maxConcurrentSessions (merge_config cfg))
  /\ getActiveSessionCount m = size (sessions m)
  /\ length (getAllSessions m) = size (sessions m)
  /\ forall sessionId info,
       getSession sessionId m = Some info ->
       info_id info = sessionId /\ info_isActive info = true.
Proof.
  intros m.
  destruct (table_invariant_run ops (new cfg) (table_invariant_new cfg))
    as (_ & Hident & Hsize).
  fold m in Hident, Hsize. split; [|split; [|split]].
  - subst m. by rewrite config_run in Hsize.
  - unfold getActiveSessionCount. f_equal. apply map_filter_id.
    intros sid s Hs. cbn. by destruct (Hident sid s Hs).
  - unfold getAllSessions. rewrite length_fmap. apply length_map_to_list.
  - intros sid info. unfold getSession. destruct (sessions m !! sid) as [s|] eqn:Hs; [|done].
    intros [= <-]. cbn. by apply Hident.
Qed.

(** X3: in every reachable state, the envelopes handed to the transport for
    the id of a session of the table end with envelopes numbered
    1, 2, ..., [lastSequence] in this order: the session's envelopes are
    numbered consecutively from one, a failed send included. *)
Theorem envelope_sequences_from_one (cfg : SessionMultiplexerConfig)
  (ops : list (Op T)) (sessionId : string) (session : ActiveSession) :
  sessions (run ops (new cfg)) !! sessionId = Some session ->
  0 <= lastSequence session
  /\ seqZ 1 (lastSequence session) `suffix_of` sequences_of sessionId (run ops (new cfg)).
Proof.
  apply (numbered_run ops (new cfg)).
  intros sid s. cbn. by rewrite lookup_empty.
Qed.

End Reachable.

Section Steps.
Context {T : Type} `{!TransportAdapter T}.
Implicit Types m : State T.

Lemma sessions_destroy_each (f : string * ActiveSession -> bool)
  (l : list (string * ActiveSession)) m (k : string) :
  sessions (foldr (fun kv acc => if f kv then destroySession kv.1 acc else acc) m l) !! k
  = if existsb (fun kv => bool_decide (kv.1 = k) && f kv) l then None
    else sessions m !! k.
Proof.
  induction l as [|kv l IH]; cbn; [done|].
  destruct (f kv) eqn:Hf.
  - rewrite destroySession_sessions, lookup_delete. case_decide as Hk.
    + by rewrite bool_decide_eq_true_2.
    + rewrite bool_decide_eq_false_2 by done. exact IH.
  - rewrite andb_false_r. exact IH.
Qed.

Lemma existsb_map_to_list (f : string * ActiveSession -> bool)
  (ss : gmap string ActiveSession) (k : string) :
  existsb (fun kv => bool_decide (kv.1 = k) && f kv) (map_to_list ss)
  = match ss !! k with Some s => f (k, s) | None => false end.
Proof.
  destruct (existsb _ _) eqn:E.
  - apply existsb_exists in E as ([k' s] & Hin & Hkv).
    apply andb_true_iff in Hkv as [Hk Hf]. apply bool_decide_eq_true in Hk.
    cbn in Hk. subst k'. apply list_elem_of_In, elem_of_map_to_list in Hin.
    by rewrite Hin.
  - destruct (ss !! k) as [s|] eqn:Hs; [|done].
    destruct (f (k, s)) eqn:Hf; [|done].
    rewrite <- E. apply existsb_exists. exists (k, s). split.
    + apply list_elem_of_In, elem_of_map_to_list. exact Hs.
    + cbn. by rewrite bool_decide_eq_true_2.
Qed.

(** X4: a tick of the cleanup interval removes from the session table
    exactly the sessions whose last activity lies more than
    [sessionIdleTimeout] before [now]; a session idle for exactly the
    timeout stays, and the sessions that stay are unchanged. *)
Theorem cleanupIdleSessions_removes_idle (now : Z) (m : State T) (sessionId : string) :
  sessions (cleanupIdleSessions now m) !! sessionId
  = match sessions m !! sessionId with
    | Some s => if idle (sessionIdleTimeout (config m)) now s then None else Some s
    | None => None
    end.
Proof.
  unfold cleanupIdleSessions.
  rewrite (sessions_destroy_each
             (fun kv => sessionIdleTimeout (config m) <? now - lastActivity kv.2)).
  rewrite existsb_map_to_list. by destruct (sessions m !! sessionId).
Qed.

Lemma cleanupInterval_destroySession sid m :
  cleanupInterval (destroySession sid m) = cleanupInterval m.
Proof.
  unfold destroySession. destruct (sessions m !! sid) as [s|]; [|done]. cbn.
  apply (map_fold_weak_ind (fun acc _ => cleanupInterval acc = cleanupInterval m)); done.
Qed.

Lemma destroy_all_frame (l : list (string * ActiveSession)) m :
  let m' := foldr (fun kv acc => destroySession kv.1 acc) m l in
  cleanupInterval m' = cleanupInterval m /\ outbox m' = outbox m.
Proof.
  induction l as [|kv l [IH1 IH2]]; cbn; [done|].
  by rewrite cleanupInterval_destroySession, destroySession_outbox.
Qed.

(** X5: destroy() on a reachable multiplexer leaves no session and no
    routing entry, and stops the cleanup interval; what was handed to the
    transport stays as it is. *)
Theorem destroy_empties_the_tables (cfg : SessionMultiplexerConfig) (ops : list (Op T)) :
  let m := destroy (run ops (new cfg)) in
  sessions m = ∅ /\ messageRoutes m = ∅ /\ cleanupInterval m = false
  /\ outbox m = outbox (run ops (new cfg)).
Proof.
  intros m.
  assert (Hsessions : sessions m = ∅).
  { apply map_empty. intros k. subst m. unfold destroy.
    rewrite (sessions_destroy_each (fun _ => true)), existsb_map_to_list. cbn.
    by destruct (sessions (run ops (new cfg)) !! k). }
  split; [exact Hsessions|]. split; [|split].
  - apply map_empty. intros mid. destruct (messageRoutes m !! mid) as [sid|] eqn:Hr; [|done].
    destruct (table_invariant_apply (run ops (new cfg)) OpDestroy
                (table_invariant_run ops (new cfg) (table_invariant_new cfg)))
      as (Hroutes & _).
    destruct (Hroutes mid sid Hr) as [s Hlive].
    change (apply (run ops (new cfg)) OpDestroy) with m in Hlive.
    by rewrite Hsessions, lookup_empty in Hlive.
  - subst m. unfold destroy. by rewrite (proj1 (destroy_all_frame _ _)).
  - subst m. unfold destroy. by rewrite (proj2 (destroy_all_frame _ _)).
Qed.

Lemma clear_pending_timers (p : gmap MsgId PendingRequest) m :
  let m' := map_fold (fun _ q acc => clearTimeout (pr_timeout q) acc) m p in
  (forall mid q, p !! mid = Some q -> timers m' !! pr_timeout q = None)
  /\ (forall t, (forall mid q, p !! mid = Some q -> pr_timeout q <> t) ->
                timers m' !! t = timers m !! t).
Proof.
  apply (map_fold_weak_ind (fun acc p' =>
    (forall mid q, p' !! mid = Some q -> timers acc !! pr_timeout q = None)
    /\ (forall t, (forall mid q, p' !! mid = Some q -> pr_timeout q <> t) ->
                  timers acc !! t = timers m !! t))).
  - split; [intros mid q; by rewrite lookup_empty|done].
  - intros i x p' r Hi [IH1 IH2]. split.
    + intros mid q Hl. cbn. destruct (decide (pr_timeout x = pr_timeout q)) as [->|Hne].
      * by rewrite lookup_delete_eq.
      * rewrite lookup_delete_ne by done.
        apply lookup_insert_Some in Hl as [[_ <-]|[_ Hl]]; [done|by eapply IH1].
    + intros t Hfree. cbn. rewrite lookup_delete_ne.
      * apply IH2. intros mid q Hl. apply (Hfree mid).
        rewrite lookup_insert_ne; [done|]. intros <-. by rewrite Hi in Hl.
      * apply (Hfree i). by rewrite lookup_insert_eq.
Qed.

(** X6: destroySession of a session of the table removes it and leaves the
    other sessions alone; removes the routing entries that point to it and
    keeps the others; disarms the timers of its pending requests and keeps
    the other timers; emits one SESSION_DESTROYED event; a second call for
    the same id changes nothing. *)
Theorem destroySession_purges (sessionId : string) (session : ActiveSession) (m : State T) :
  sessions m !! sessionId = Some session ->
  let m' := destroySession sessionId m in
  sessions m' = delete sessionId (sessions m)
  /\ (forall messageId target,
        messageRoutes m' !! messageId = Some target
        <-> messageRoutes m !! messageId = Some target /\ target <> sessionId)
  /\ (forall messageId pending,
        pendingRequests session !! messageId = Some pending ->
        timers m' !! pr_timeout pending = None)
  /\ (forall t,
        (forall messageId pending,
           pendingRequests session !! messageId = Some pending ->
           pr_timeout pending <> t) ->
        timers m' !! t = timers m !! t)
  /\ emitted m' = emitted m ++ [SESSION_DESTROYED sessionId]
  /\ destroySession sessionId m' = m'.
Proof.
  intros Hs m'.
  assert (Hsessions : sessions m' = delete sessionId (sessions m))
    by apply destroySession_sessions.
  split; [exact Hsessions|]. split; [|split; [|split; [|split]]].
  - intros mid target. subst m'. rewrite (destroySession_messageRoutes _ session) by done.
    by rewrite map_lookup_filter_Some.
  - subst m'. unfold destroySession. rewrite Hs. cbn.
    apply (clear_pending_timers (pendingRequests session) m).
  - subst m'. unfold destroySession. rewrite Hs. cbn.
    apply (clear_pending_timers (pendingRequests session) m).
  - subst m'. unfold destroySession. rewrite Hs. cbn.
    by destruct (clear_pending_frame (pendingRequests session) m) as (_ & _ & _ & _ & -> & _).
  - unfold destroySession at 1. by rewrite Hsessions, lookup_delete_eq.
Qed.

Lemma clearRequestTimeout_frame sid mid m :
  messageRoutes (clearRequestTimeout sid mid m) = messageRoutes m
  /\ emitted (clearRequestTimeout sid mid m) = emitted m
  /\ outbox (clearRequestTimeout sid mid m) = outbox m.
Proof.
  unfold clearRequestTimeout. destruct (sessions m !! sid) as [s|]; [|done].
  by destruct (pendingRequests s !! mid).
Qed.

Lemma clearRequestTimeout_pending sid mid s m :
  sessions m !! sid = Some s ->
  exists s', sessions (clearRequestTimeout sid mid m) !! sid = Some s'
             /\ pendingRequests s' !! mid = None
             /\ flow s' = flow s /\ messageQueue s' = messageQueue s.
Proof.
  intros Hs. unfold clearRequestTimeout. rewrite Hs.
  destruct (pendingRequests s !! mid) as [p|] eqn:Hp.
  - eexists. cbn. rewrite lookup_alter_eq, Hs. cbn. split; [reflexivity|]. cbn.
    by rewrite lookup_delete_eq.
  - by exists s.
Qed.

Lemma clearRequestTimeout_timers sid mid t m :
  timers m !! t = None -> timers (clearRequestTimeout sid mid m) !! t = None.
Proof.
  intros Ht. unfold clearRequestTimeout. destruct (sessions m !! sid) as [s|]; [|done].
  destruct (pendingRequests s !! mid) as [p|]; [|done]. cbn.
  rewrite lookup_delete. by case_decide.
Qed.

(** X7: when the timer of a request fires, the pending entry of the request
    is removed and the error "Request timeout for message <id>" is emitted
    for the session; the routing entry of the message stays, and the
    flow-control window and flag of every session are as before: the credit
    the request took is not given back. *)
Theorem request_timeout_keeps_credit (t : TimerId) (sessionId : string)
  (messageId : MsgId) (m : State T) :
  timers m !! t = Some (RequestTimeout sessionId messageId) ->
  let m' := fireTimer t m in
  flows m' = flows m
  /\ messageRoutes m' = messageRoutes m
  /\ outbox m' = outbox m
  /\ emitted m' = emitted m ++ [request_timeout_error sessionId messageId]
  /\ timers m' !! t = None
  /\ (forall session,
        sessions m !! sessionId = Some session ->
        exists session',
          sessions m' !! sessionId = Some session'
          /\ pendingRequests session' !! messageId = None
          /\ messageQueue session' = messageQueue session).
Proof.
  intros Ht m'. subst m'. unfold fireTimer. rewrite Ht.
  set (m1 := set_timers (delete t (timers m)) (nextTimer m) m).
  destruct (clearRequestTimeout_frame sessionId messageId m1) as (Hr & He & Ho).
  split; [|split; [|split; [|split; [|split]]]].
  - destruct (same_flow_clearRequestTimeout sessionId messageId m1) as (_ & _ & Hf).
    cbn. unfold flows in *. cbn in *. exact Hf.
  - cbn. exact Hr.
  - cbn. exact Ho.
  - cbn. rewrite He. by destruct messageId.
  - cbn. apply clearRequestTimeout_timers. subst m1. cbn. by rewrite lookup_delete_eq.
  - intros session Hs.
    destruct (clearRequestTimeout_pending sessionId messageId session m1 Hs)
      as (s' & Hs' & Hp & _ & Hq).
    exists s'. by repeat split.
Qed.

Lemma routeToBackend_sends sid session adapter msg now m :
  sessions m !! sid = Some session -> transportAdapter m = Some adapter ->
  enableFlowControl (config m) && backpressure session = false ->
  routeToBackend sid msg now m
  = send_envelope session adapter sid msg now
      (apply_flow_control sid (track_request sid msg now (updateSessionActivity sid now m))).
Proof.
  intros Hs Ha Hbp. unfold routeToBackend. rewrite Hs, Ha. cbv zeta.
  change (config (updateSessionActivity sid now m)) with (config m). by rewrite Hbp.
Qed.

Lemma track_request_session sid session msg now m :
  sessions m !! sid = Some session ->
  let m' := track_request sid msg now m in
  (exists s', sessions m' !! sid = Some s'
              /\ flow s' = flow session /\ lastSequence s' = lastSequence session
              /\ forall mid, id msg = Some mid ->
                    exists p, pendingRequests s' !! mid = Some p
                              /\ timers m' !! pr_timeout p = Some (RequestTimeout sid mid))
  /\ (forall mid, id msg = Some mid -> messageRoutes m' !! mid = Some sid)
  /\ config m' = config m /\ transportAdapter m' = transportAdapter m
  /\ outbox m' = outbox m.
Proof.
  intros Hs. unfold track_request. destruct (id msg) as [mid|].
  - unfold setupRequestTimeout. cbn. rewrite Hs. cbn. split; [|split; [|done]].
    + eexists. rewrite lookup_alter_eq, Hs. cbn. split; [reflexivity|].
      split; [done|]. split; [done|]. intros ? [= <-]. eexists. cbn.
      rewrite lookup_insert_eq. split; [reflexivity|]. cbn. by rewrite lookup_insert_eq.
    + intros ? [= <-]. by rewrite lookup_insert_eq.
  - cbn. split; [|done]. exists session. by repeat split.
Qed.

(** X8: when the transport rejects the envelope, routeToBackend throws the
    SessionError "Failed to route message to backend: <cause>"; the window
    of the session is what it was before the call, and with flow control
    enabled the flag is recomputed from it; the sequence number is used up,
    and the request stays tracked: its routing entry and its armed timeout
    are kept. *)
Theorem routeToBackend_failed_send (sessionId : string) (session : ActiveSession)
  (adapter adapter' : T) (e : ShimMCPError) (message : MCPMessage) (now : Z)
  (m : State T) :
  sessions m !! sessionId = Some session ->
  transportAdapter m = Some adapter ->
  enableFlowControl (config m) && backpressure session = false ->
  sendToBackend now
    {| Core.sessionId := sessionId; sequence := lastSequence session + 1;
       payload := message; timestamp := now |} adapter = (adapter', Throw e) ->
  let m' := (routeToBackend sessionId message now m).1 in
  (routeToBackend sessionId message now m).2
  = Throw (SessionError ("Failed to route message to backend: " +:+ error_message e)
             sessionId)
  /\ outbox m'
     = outbox m ++ [{| Core.sessionId := sessionId; sequence := lastSequence session + 1;
                       payload := message; timestamp := now |}]
  /\ exists session',
       sessions m' !! sessionId = Some session'
       /\ lastSequence session' = lastSequence session + 1
       /\ flowControlWindow session' = flowControlWindow session
       /\ backpressure session'
          = (if enableFlowControl (config m) then flowControlWindow session <=? 0
             else backpressure session)
       /\ forall messageId,
            id message = Some messageId ->
            messageRoutes m' !! messageId = Some sessionId
            /\ exists pending,
                 pendingRequests session' !! messageId = Some pending
                 /\ timers m' !! pr_timeout pending
                    = Some (RequestTimeout sessionId messageId).
Proof.
  intros Hs Ha Hbp Hsend m'. subst m'.
  rewrite (routeToBackend_sends sessionId session adapter) by done.
  assert (Hs1 : sessions (updateSessionActivity sessionId now m) !! sessionId
                = Some (set_lastActivity now session))
    by (cbn; by rewrite lookup_alter_eq, Hs).
  destruct (track_request_session sessionId _ message now _ Hs1)
    as ((s2 & Hs2 & Hflow2 & Hseq2 & Hpend2) & Hroute2 & Hcfg2 & Hta2 & Hout2).
  set (m2 := track_request sessionId message now (updateSessionActivity sessionId now m)) in *.
  change (config (updateSessionActivity sessionId now m)) with (config m) in Hcfg2.
  unfold send_envelope. rewrite Hsend.
  change (config (set_transportAdapter _ _)) with (config (apply_flow_control sessionId m2)).
  assert (Hcfg3 : config (apply_flow_control sessionId m2) = config m).
  { unfold apply_flow_control. rewrite Hcfg2. by destruct (enableFlowControl (config m)). }
  rewrite Hcfg3. cbn [fst snd]. split; [done|].
  unfold flow in Hflow2. cbn in Hflow2. injection Hflow2 as Hw2 Hb2.
  unfold apply_flow_control. rewrite Hcfg2.
  destruct (enableFlowControl (config m)) eqn:HeFC.
  - cbn in Hbp. split; [cbn; by rewrite Hout2|]. eexists. cbn.
    rewrite !lookup_alter_eq, Hs2. cbn.
    split; [reflexivity|]. cbn. split; [done|]. split; [lia|]. split.
    + rewrite Hw2. f_equal. lia.
    + intros mid Hmid. split; [by apply Hroute2|]. by apply Hpend2.
  - split; [cbn; by rewrite Hout2|]. eexists. cbn. rewrite !lookup_alter_eq, Hs2. cbn.
    split; [reflexivity|]. cbn. split; [done|]. split; [done|]. split; [done|].
    intros mid Hmid. split; [by apply Hroute2|]. by apply Hpend2.
Qed.

Lemma deliver_frame sid msg now m :
  sessions (deliver sid msg now m).1 = sessions m
  /\ outbox (deliver sid msg now m).1 = outbox m.
Proof.
  unfold deliver. destruct (transportAdapter m); [|done].
  destruct (sendToClient now sid msg t) as [adapter' r]. by destruct r.
Qed.

(** The loop of processQueuedMessages goes on until the queue is used up or
    the session is backpressured, and begins with a message when the
    session is not backpressured. *)
Lemma flush_loop_progress sid now (sent_already rest : list MCPMessage) m :
  NoDup (ref <$> (sent_already ++ rest)) ->
  ready m = true ->
  queue_of sid m = Some [] ->
  let m' := flush_loop sid now (sent_already ++ rest) rest m in
  exists k,
    (k <= length rest)%nat
    /\ sent m' = sent m ++ take k rest
    /\ queue_of sid m' = Some (drop k rest)
    /\ (k = length rest
        \/ exists s', sessions m' !! sid = Some s' /\ backpressure s' = true)
    /\ (forall session,
          sessions m !! sid = Some session -> backpressure session = false ->
          rest <> [] -> (1 <= k)%nat).
Proof.
  revert sent_already m.
  induction rest as [|message rest IH]; intros sent_already m Hnodup Hr Hq; cbn.
  { exists O. rewrite app_nil_r. split; [done|]. split; [done|]. split; [done|].
    split; [by left|done]. }
  unfold queue_of in Hq.
  destruct (sessions m !! sid) as [session|] eqn:Hs; [|done].
  cbn in Hq. injection Hq as Hq.
  destruct (backpressure session) eqn:Hbp.
  - exists O. cbn. rewrite app_nil_r. split; [lia|]. split; [done|]. split; [|split].
    + unfold queue_of, with_session. cbn. rewrite lookup_alter_eq, Hs. cbn.
      rewrite Hq, app_nil_r. f_equal.
      rewrite indexOf_fresh; [apply slice_app_length|].
      rewrite fmap_app, fmap_cons in Hnodup.
      apply NoDup_app in Hnodup as (_ & Hdisj & _).
      intros Hin. apply (Hdisj _ Hin). by left.
    + right. unfold with_session. cbn. rewrite lookup_alter_eq, Hs. cbn.
      eexists. split; [reflexivity|]. exact Hbp.
    + intros session' [= <-] Hfalse. congruence.
  - destruct (routeToBackend_traffic sid session message now m Hs Hr Hbp)
      as (Hr' & Hsent' & Hq').
    destruct (routeToBackend sid message now m) as [m1 r]. cbn [fst] in *.
    set (m2 := match r with Ok _ => m1 | Throw e => _ end).
    assert (H2 : ready m2 = true /\ sent m2 = sent m ++ [message]
                 /\ queues m2 = queues m).
    { subst m2. by destruct r. }
    destruct H2 as (Hr2 & Hsent2 & Hq2).
    destruct (IH (sent_already ++ [message]) m2) as (k & Hle & Hk1 & Hk2 & Hstop & _).
    + by rewrite <- app_assoc.
    + exact Hr2.
    + rewrite queue_of_queues, Hq2, <- queue_of_queues.
      unfold queue_of. rewrite Hs. cbn. by rewrite Hq.
    + exists (S k). rewrite <- app_assoc in Hk1, Hk2, Hstop. cbn in Hk1, Hk2, Hstop.
      split; [lia|]. split; [by rewrite Hk1, Hsent2, <- app_assoc|].
      split; [exact Hk2|]. split.
      * destruct Hstop as [-> | Hstop]; [by left|by right].
      * intros _ _ _ _. lia.
Qed.

Lemma processQueuedMessages_progress sid session now m :
  sessions m !! sid = Some session ->
  NoDup (ref <$> messageQueue session) ->
  ready m = true ->
  backpressure session = false ->
  let m' := processQueuedMessages sid now m in
  exists k,
    (k <= length (messageQueue session))%nat
    /\ sent m' = sent m ++ take k (messageQueue session)
    /\ queue_of sid m' = Some (drop k (messageQueue session))
    /\ (k = length (messageQueue session)
        \/ exists s', sessions m' !! sid = Some s' /\ backpressure s' = true)
    /\ (messageQueue session <> [] -> (1 <= k)%nat).
Proof.
  intros Hs Hnodup Hr Hbp. unfold processQueuedMessages. rewrite Hs.
  destruct (messageQueue session) as [|message rest] eqn:Hq.
  { exists O. cbn. rewrite app_nil_r. unfold queue_of. rewrite Hs. cbn. rewrite Hq.
    split; [done|]. split; [done|]. split; [done|]. split; [by left|done]. }
  destruct (flush_loop_progress sid now [] (message :: rest)
              (with_session sid (set_messageQueue []) m))
    as (k & Hle & Hk1 & Hk2 & Hstop & Hfirst); [done|done| |].
  { unfold queue_of, with_session. cbn. by rewrite lookup_alter_eq, Hs. }
  exists k. split; [exact Hle|]. split; [exact Hk1|]. split; [exact Hk2|].
  split; [exact Hstop|]. intros _.
  apply (Hfirst (set_messageQueue [] session)); [|exact Hbp|done].
  unfold with_session. cbn. by rewrite lookup_alter_eq, Hs.
Qed.

(** X9: when a message routed to the client relieves the backpressure of
    its session, routeToClient starts the flush of the queue of the
    session.  Once that flush has run to its end, with nothing else routed
    in between, and provided the queued messages are distinct objects: the
    first [k] messages of the queue were handed to the transport, in queue
    order, and the rest stays queued, in queue order; at least one message
    was handed over when the queue was not empty; and the flush stopped
    short of the whole queue only with the session backpressured again. *)
Theorem response_flushes_queue_in_order (sessionId : string) (session : ActiveSession)
  (message : MCPMessage) (now : Z) (m : State T) :
  sessions m !! sessionId = Some session ->
  ready m = true ->
  enableFlowControl (config m) = true ->
  backpressure session = true ->
  0 <= flowControlWindow session ->
  NoDup (ref <$> messageQueue session) ->
  let m' := (routeToClient sessionId message now m).1 in
  exists k,
    (k <= length (messageQueue session))%nat
    /\ sent m' = sent m ++ take k (messageQueue session)
    /\ queue_of sessionId m' = Some (drop k (messageQueue session))
    /\ (messageQueue session <> [] -> (1 <= k)%nat)
    /\ (k = length (messageQueue session)
        \/ exists s', sessions m' !! sessionId = Some s' /\ backpressure s' = true).
Proof.
  intros Hs Hr HeFC Hbp Hw Hnodup m'. subst m'. unfold routeToClient. rewrite Hs.
  unfold ready in Hr. destruct (transportAdapter m) as [adapter|] eqn:Ha; [|done].
  cbv zeta.
  pose proof (same_traffic_trans _ _ _
                (same_traffic_with_session sessionId (set_lastActivity now) m
                   (fun s => eq_refl))
                (same_traffic_clear_tracking sessionId message
                   (updateSessionActivity sessionId now m))) as (Hr2 & Ho2 & Hq2).
  pose proof (same_flow_trans _ _ _
                (same_flow_updateSessionActivity sessionId now m)
                (same_flow_clear_tracking sessionId message
                   (updateSessionActivity sessionId now m))) as (Hc2 & _ & _).
  set (m2 := clear_tracking sessionId message (updateSessionActivity sessionId now m)) in *.
  unfold update_flow_control. rewrite Hc2, HeFC, Hbp.
  replace (0 <? flowControlWindow session + 1) with true
    by (symmetry; apply Z.ltb_lt; lia).
  cbn [andb].
  set (m3 := with_session sessionId (set_flow (flowControlWindow session + 1) false) m2).
  assert (Hq3 : queues m3 !! sessionId = Some (messageQueue session)).
  { subst m3. rewrite (queues_with_session sessionId _ (fun q => q)) by done.
    rewrite alter_id by done. rewrite Hq2. unfold queues. by rewrite lookup_fmap, Hs. }
  unfold queues in Hq3. rewrite lookup_fmap in Hq3.
  destruct (sessions m3 !! sessionId) as [s3|] eqn:Hs3; [|done].
  cbn in Hq3. injection Hq3 as Hq3.
  assert (Hbp3 : backpressure s3 = false).
  { revert Hs3. subst m3. unfold with_session. cbn. rewrite lookup_alter_eq.
    destruct (sessions m2 !! sessionId) as [s2|]; [|done]. cbn. by intros [= <-]. }
  destruct (processQueuedMessages_progress sessionId s3 now m3 Hs3)
    as (k & Hle & Hsent & Hqueue & Hstop & Hfirst).
  { by rewrite Hq3. }
  { change (ready m3) with (ready m2). rewrite Hr2. unfold ready. by rewrite Ha. }
  { exact Hbp3. }
  destruct (deliver_frame sessionId message now (processQueuedMessages sessionId now m3))
    as (Hds & Hdo).
  exists k. unfold sent, queue_of in *. rewrite Hds, Hdo, Hsent, Hqueue, Hq3.
  rewrite Hq3 in Hle, Hstop, Hfirst.
  split; [exact Hle|]. split; [subst m3; cbn; by rewrite Ho2|]. split; [done|].
  split; [exact Hfirst|exact Hstop].
Qed.

Lemma track_request_timers sid session msg now t m :
  sessions m !! sid = Some session -> t <> nextTimer m ->
  timers (track_request sid msg now m) !! t = timers m !! t.
Proof.
  intros Hs Ht. unfold track_request. destruct (id msg) as [mid|]; [|done].
  unfold setupRequestTimeout. cbn. rewrite Hs. cbn. by rewrite lookup_insert_ne.
Qed.

Lemma send_envelope_tracking session adapter sid msg now m :
  let m' := (send_envelope session adapter sid msg now m).1 in
  timers m' = timers m
  /\ pendingRequests <$> sessions m' = pendingRequests <$> sessions m.
Proof.
  unfold send_envelope. destruct (sendToBackend now _ adapter) as [adapter' r].
  assert (Hp : forall f (m0 : State T),
             (forall s, pendingRequests (f s) = pendingRequests s) ->
             pendingRequests <$> sessions (with_session sid f m0)
             = pendingRequests <$> sessions m0).
  { intros f m0 Hf. unfold with_session. cbn. apply map_eq. intros k.
    rewrite !lookup_fmap, lookup_alter. case_decide as Hk; [|done]. subst k.
    destruct (sessions m0 !! sid); cbn; [|done]. by rewrite Hf. }
  set (m1 := set_transportAdapter (Some adapter') _).
  assert (H1 : timers m1 = timers m
               /\ pendingRequests <$> sessions m1 = pendingRequests <$> sessions m).
  { split; [done|]. subst m1.
    change (sessions (set_transportAdapter _ (set_outbox _ ?x))) with (sessions x).
    by apply Hp. }
  destruct r as [|e]; cbn [fst]; [exact H1|].
  destruct (enableFlowControl (config m1)); [|exact H1].
  destruct H1 as [Ht1 Hp1]. split; [exact Ht1|].
  rewrite (Hp restore_credit m1) by done. exact Hp1.
Qed.

(** X10: a request routed with the id of a request that is still pending,
    whose timer is an earlier handle than the next one, takes over the
    pending entry without disarming the timer of the first request: both
    timers are armed.  When the first timer fires, it removes
    the pending entry of the second request and disarms the timer of the
    second request. *)
Theorem reused_id_keeps_first_timer (sessionId : string) (session : ActiveSession)
  (adapter : T) (message : MCPMessage) (messageId : MsgId) (first : PendingRequest)
  (now : Z) (m : State T) :
  sessions m !! sessionId = Some session ->
  transportAdapter m = Some adapter ->
  enableFlowControl (config m) && backpressure session = false ->
  id message = Some messageId ->
  pendingRequests session !! messageId = Some first ->
  timers m !! pr_timeout first = Some (RequestTimeout sessionId messageId) ->
  pr_timeout first <> nextTimer m ->
  let m' := (routeToBackend sessionId message now m).1 in
  timers m' !! pr_timeout first = Some (RequestTimeout sessionId messageId)
  /\ timers m' !! nextTimer m = Some (RequestTimeout sessionId messageId)
  /\ (exists session',
        sessions m' !! sessionId = Some session'
        /\ pendingRequests session' !! messageId
           = Some {| pr_timestamp := now; pr_timeout := nextTimer m |})
  /\ timers (fireTimer (pr_timeout first) m') !! nextTimer m = None
  /\ (exists session'',
        sessions (fireTimer (pr_timeout first) m') !! sessionId = Some session''
        /\ pendingRequests session'' !! messageId = None).
Proof.
  intros Hs Ha Hbp Hid Hfirst Harmed Hne m'. subst m'.
  rewrite (routeToBackend_sends sessionId session adapter) by done.
  set (m1 := updateSessionActivity sessionId now m).
  assert (Hs1 : sessions m1 !! sessionId = Some (set_lastActivity now session))
    by (subst m1; cbn; by rewrite lookup_alter_eq, Hs).
  set (m2 := track_request sessionId message now m1).
  assert (Ht2 : timers m2 !! pr_timeout first = Some (RequestTimeout sessionId messageId)).
  { subst m2. rewrite (track_request_timers _ _ _ _ _ _ Hs1) by done. exact Harmed. }
  assert (Hnew2 : timers m2 !! nextTimer m = Some (RequestTimeout sessionId messageId)
                  /\ exists s2, sessions m2 !! sessionId = Some s2
                        /\ pendingRequests s2 !! messageId
                           = Some {| pr_timestamp := now; pr_timeout := nextTimer m |}).
  { clear Ht2. subst m2. unfold track_request. rewrite Hid. unfold setupRequestTimeout.
    change (sessions (set_messageRoutes _ m1)) with (sessions m1). rewrite Hs1.
    cbn. rewrite lookup_insert_eq. split; [done|].
    eexists. rewrite !lookup_alter_eq, Hs. cbn. split; [reflexivity|]. cbn. by rewrite lookup_insert_eq. }
  destruct Hnew2 as (Hn2 & s2 & Hs2 & Hp2).
  set (m3 := apply_flow_control sessionId m2).
  assert (Ht3 : timers m3 = timers m2).
  { subst m3. unfold apply_flow_control.
    destruct (enableFlowControl (config m2)); reflexivity. }
  assert (Hp3 : exists s3, sessions m3 !! sessionId = Some s3
                           /\ pendingRequests s3 = pendingRequests s2).
  { subst m3. unfold apply_flow_control. destruct (enableFlowControl (config m2)).
    - eexists. unfold with_session. cbn [sessions set_sessions].
      rewrite lookup_alter_eq, Hs2. by split.
    - by exists s2. }
  destruct Hp3 as (s3 & Hs3 & Hp3).
  destruct (send_envelope_tracking session adapter sessionId message now m3)
    as (Ht4 & Hp4).
  set (m4 := (send_envelope session adapter sessionId message now m3).1) in *.
  assert (Hs4 : exists s4, sessions m4 !! sessionId = Some s4
                           /\ pendingRequests s4 = pendingRequests s2).
  { assert (Hl : (pendingRequests <$> sessions m4) !! sessionId
                 = Some (pendingRequests s3)) by by rewrite Hp4, lookup_fmap, Hs3.
    rewrite lookup_fmap in Hl. destruct (sessions m4 !! sessionId) as [s4|]; [|done].
    exists s4. split; [done|]. cbn in Hl. injection Hl as ->. exact Hp3. }
  destruct Hs4 as (s4 & Hs4 & Hp4').
  split; [by rewrite Ht4, Ht3|]. split; [by rewrite Ht4, Ht3|]. split.
  { exists s4. split; [done|]. by rewrite Hp4'. }
  unfold fireTimer. rewrite Ht4, Ht3, Ht2.
  set (m5 := set_timers (delete (pr_timeout first) (timers m2)) (nextTimer m4) m4).
  assert (Hclear : clearRequestTimeout sessionId messageId m5
                   = with_session sessionId
                       (fun s => set_pendingRequests (delete messageId (pendingRequests s)) s)
                       (clearTimeout (nextTimer m) m5)).
  { unfold clearRequestTimeout. change (sessions m5) with (sessions m4).
    by rewrite Hs4, Hp4', Hp2. }
  cbn [timers sessions emit]. rewrite Hclear. cbn. split.
  - by rewrite lookup_delete_eq.
  - eexists. rewrite lookup_alter_eq, Hs4. cbn. split; [reflexivity|]. cbn.
    by rewrite lookup_delete_eq.
Qed.

End Steps.

(** Witness of [routes_point_to_live_sessions]: the request of
    [same_object_queued_twice] has a routing entry. *)
Lemma routes_point_to_live_sessions_witness :
  messageRoutes backpressured_with_ping !! IdNum 1 = Some "session-1-a"
  /\ is_Some (sessions backpressured_with_ping !! "session-1-a").
Proof.
  assert (Hroute : messageRoutes backpressured_with_ping !! IdNum 1 = Some "session-1-a")
    by (vm_compute; reflexivity).
  split; [exact Hroute|].
  exact (routes_point_to_live_sessions (window_of 1) (take 4 same_object_queued_twice)
           (IdNum 1) "session-1-a" Hroute).
Defined.

(** Witness of [sessions_within_cap_and_active]: two sessions under a cap
    of two. *)
Lemma sessions_within_cap_and_active_witness :
  getActiveSessionCount two_of_two = 2%nat
  /\ (exists info, getSession "session-2-b" two_of_two = Some info
                   /\ info_id info = "session-2-b" /\ info_isActive info = true).
Proof.
  destruct (sessions_within_cap_and_active (T := unit) (cap_of 2)
              [OpCreateSession 4242 "session-1-a" 1; OpCreateSession 4243 "session-2-b" 2])
    as (_ & Hcount & _ & Hget).
  split.
  - etransitivity; [exact Hcount|]. vm_compute. reflexivity.
  - destruct (getSession "session-2-b" two_of_two) as [info|] eqn:Hinfo;
      [|by vm_compute in Hinfo].
    exists info. split; [reflexivity|]. exact (Hget "session-2-b" info Hinfo).
Defined.

(** Witness of [envelope_sequences_from_one]: after the flush of
    [same_object_queued_twice] the session is at sequence 2. *)
Lemma envelope_sequences_from_one_witness :
  exists session,
    sessions after_requeue !! "session-1-a" = Some session
    /\ lastSequence session = 2
    /\ seqZ 1 2 `suffix_of` sequences_of "session-1-a" after_requeue.
Proof.
  destruct (sessions after_requeue !! "session-1-a") as [session|] eqn:Hs;
    [|by vm_compute in Hs].
  exists session. split; [reflexivity|].
  assert (Hlast : lastSequence session = 2)
    by (vm_compute in Hs; by injection Hs as <-).
  split; [exact Hlast|]. rewrite <- Hlast.
  exact (proj2 (envelope_sequences_from_one (window_of 1) same_object_queued_twice
                  "session-1-a" session Hs)).
Defined.

(** Witness of [destroySession_purges]: the session of
    [same_object_queued_twice], with its request pending. *)
Lemma destroySession_purges_witness :
  sessions (destroySession "session-1-a" backpressured_with_ping) !! "session-1-a" = None
  /\ timers backpressured_with_ping !! 0%nat
     = Some (RequestTimeout "session-1-a" (IdNum 1))
  /\ timers (destroySession "session-1-a" backpressured_with_ping) !! 0%nat = None
  /\ emitted (destroySession "session-1-a" backpressured_with_ping)
     = emitted backpressured_with_ping ++ [SESSION_DESTROYED "session-1-a"].
Proof.
  destruct (sessions backpressured_with_ping !! "session-1-a") as [session|] eqn:Hs;
    [|by vm_compute in Hs].
  destruct (destroySession_purges "session-1-a" session backpressured_with_ping Hs)
    as (Hsessions & _ & Htimers & _ & Hemitted & _).
  split; [by rewrite Hsessions, lookup_delete_eq|].
  split; [vm_compute; reflexivity|]. split; [|exact Hemitted].
  apply (Htimers (IdNum 1) {| pr_timestamp := 2; pr_timeout := 0%nat |}).
  vm_compute in Hs. injection Hs as <-. vm_compute. reflexivity.
Defined.

(** Witness of [request_timeout_keeps_credit]: the timer of the request of
    [same_object_queued_twice] fires. *)
Lemma request_timeout_keeps_credit_witness :
  flows (fireTimer 0%nat backpressured_with_ping) = flows backpressured_with_ping
  /\ messageRoutes (fireTimer 0%nat backpressured_with_ping) !! IdNum 1
     = Some "session-1-a"
  /\ emitted (fireTimer 0%nat backpressured_with_ping)
     = emitted backpressured_with_ping
       ++ [request_timeout_error "session-1-a" (IdNum 1)].
Proof.
  assert (Ht : timers backpressured_with_ping !! 0%nat
               = Some (RequestTimeout "session-1-a" (IdNum 1)))
    by (vm_compute; reflexivity).
  destruct (request_timeout_keeps_credit 0%nat "session-1-a" (IdNum 1)
              backpressured_with_ping Ht) as (Hflows & Hroutes & _ & Hemitted & _).
  split; [exact Hflows|]. split; [|exact Hemitted].
  rewrite Hroutes. vm_compute. reflexivity.
Defined.

(** Witness of [routeToBackend_failed_send]: a request is routed while the
    backend is down. *)
Lemma routeToBackend_failed_send_witness :
  (routeToBackend "session-1-a" request1 2 session_without_backend).2
  = Throw (SessionError
             "Failed to route message to backend: Backend not connected" "session-1-a")
  /\ exists session',
       sessions (routeToBackend "session-1-a" request1 2 session_without_backend).1
         !! "session-1-a" = Some session'
       /\ lastSequence session' = 1 /\ flowControlWindow session' = 10.
Proof.
  destruct (sessions session_without_backend !! "session-1-a") as [session|] eqn:Hs;
    [|by vm_compute in Hs].
  assert (Hsession : session
                     = {| session_id := "session-1-a"; clientPid := 4242; startTime := 1;
                          lastActivity := 1; isActive := true; pendingRequests := ∅;
                          messageQueue := []; lastSequence := 0; flowControlWindow := 10;
                          backpressure := false |})
    by (vm_compute in Hs; by injection Hs as <-).
  destruct (routeToBackend_failed_send "session-1-a" session outage outage
              backend_down_error request1 2 session_without_backend Hs)
    as (Hthrow & _ & session' & Hs' & Hseq & Hwindow & _).
  - vm_compute. reflexivity.
  - rewrite Hsession. vm_compute. reflexivity.
  - reflexivity.
  - split; [exact Hthrow|]. exists session'. split; [exact Hs'|].
    rewrite Hseq, Hwindow, Hsession. by split.
Defined.

(** Witness of [response_flushes_queue_in_order]: the response to the
    request of [two_queued] brings the credit back, and at least the ping
    is handed to the transport. *)
Lemma response_flushes_queue_in_order_witness :
  queue_of "session-1-a" two_queued = Some [ping; notification]
  /\ exists k,
       (1 <= k <= 2)%nat
       /\ sent (routeToClient "session-1-a" response1 5 two_queued).1
          = sent two_queued ++ take k [ping; notification]
       /\ queue_of "session-1-a" (routeToClient "session-1-a" response1 5 two_queued).1
          = Some (drop k [ping; notification]).
Proof.
  split; [vm_compute; reflexivity|].
  destruct (sessions two_queued !! "session-1-a") as [session|] eqn:Hs;
    [|by vm_compute in Hs].
  assert (Hqueue : messageQueue session = [ping; notification])
    by (vm_compute in Hs; by injection Hs as <-).
  destruct (response_flushes_queue_in_order "session-1-a" session response1 5 two_queued Hs)
    as (k & Hle & Hsent & Hrest & Hfirst & _).
  - vm_compute. reflexivity.
  - vm_compute. reflexivity.
  - vm_compute in Hs. by injection Hs as <-.
  - vm_compute in Hs. injection Hs as <-. vm_compute. discriminate.
  - rewrite Hqueue. apply (bool_decide_unpack _). vm_compute. exact I.
  - rewrite Hqueue in Hle, Hsent, Hrest, Hfirst. exists k.
    split; [|by split]. split; [by apply Hfirst|exact Hle].
Defined.

(** Witness of [reused_id_keeps_first_timer]: the id 1 is used a second
    time while the first request is pending. *)
Lemma reused_id_keeps_first_timer_witness :
  timers (routeToBackend "session-1-a" request1_again 3 one_pending).1 !! 0%nat
  = Some (RequestTimeout "session-1-a" (IdNum 1))
  /\ timers (routeToBackend "session-1-a" request1_again 3 one_pending).1 !! 1%nat
     = Some (RequestTimeout "session-1-a" (IdNum 1))
  /\ timers (fireTimer 0%nat (routeToBackend "session-1-a" request1_again 3 one_pending).1)
       !! 1%nat = None.
Proof.
  destruct (sessions one_pending !! "session-1-a") as [session|] eqn:Hs;
    [|by vm_compute in Hs].
  assert (Hsession : pendingRequests session !! IdNum 1
                     = Some {| pr_timestamp := 2; pr_timeout := 0%nat |}
                     /\ backpressure session = false)
    by (vm_compute in Hs; injection Hs as <-; by vm_compute).
  destruct Hsession as [Hpending Hbp].
  destruct (reused_id_keeps_first_timer "session-1-a" session tt request1_again (IdNum 1)
              {| pr_timestamp := 2; pr_timeout := 0%nat |} 3 one_pending Hs)
    as (Hfirst & Hsecond & _ & Hfired & _).
  - vm_compute. reflexivity.
  - rewrite Hbp. apply andb_false_r.
  - reflexivity.
  - exact Hpending.
  - vm_compute. reflexivity.
  - vm_compute. discriminate.
  - split; [exact Hfirst|]. split; [exact Hsecond|exact Hfired].
Defined.

End SessionTableProofs.
(* ===================================================================== *)
(** * Life cycle of the stdio transport adapter *)
(* ===================================================================== *)

Module AdapterLifecycleProofs.

Import StdioTransportAdapter.
Import AdapterScenarios.
Import LifecycleScenarios.
Import AdapterProofs.

Lemma stop_timers (pending : gmap Z TimerId) (armed : gmap TimerId Z) :
  let cleared := map_fold (fun _ t acc => delete t acc) armed pending in
  (forall n t, pending !! n = Some t -> cleared !! t = None)
  /\ (forall t, (forall n, pending !! n <> Some t) -> cleared !! t = armed !! t).
Proof.
  apply (map_fold_weak_ind (fun acc p' =>
    (forall n t, p' !! n = Some t -> acc !! t = None)
    /\ (forall t, (forall n, p' !! n <> Some t) -> acc !! t = armed !! t))).
  - split; [intros n t; by rewrite lookup_empty|done].
  - intros i x p' r Hi [IH1 IH2]. split.
    + intros n t Hl. destruct (decide (x = t)) as [->|Hne].
      * by rewrite lookup_delete_eq.
      * rewrite lookup_delete_ne by done.
        apply lookup_insert_Some in Hl as [[_ <-]|[_ Hl]]; [done|by eapply IH1].
    + intros t Hfree. rewrite lookup_delete_ne.
      * apply IH2. intros n Hl. apply (Hfree n).
        rewrite lookup_insert_ne; [done|]. intros <-. by rewrite Hi in Hl.
      * intros ->. apply (Hfree i). by rewrite lookup_insert_eq.
Qed.

Section Lifecycle.

Variable JSON_parse : string -> Result json.
Variable JSON_stringify : MCPMessage -> string.
Variable fetch_mcp : SessionEnvelope MCPMessage -> Result json.
Variable websocket_send : SessionEnvelope MCPMessage -> Result unit.
Variable connect : BackendType -> Result unit.

#[local] Abbreviation sendToBackend' := (sendToBackend fetch_mcp websocket_send).
#[local] Abbreviation sendToClient' := (sendToClient JSON_stringify).
#[local] Abbreviation start' := (start connect).

(** X11: stop() on a started adapter leaves it disconnected, with no pending
    request; the timers of the pending requests are disarmed and the other
    timers are kept; TRANSPORT_DISCONNECTED is emitted once; a second stop
    changes nothing, and both sends are refused without any change. *)
Theorem stop_disconnects (a : State) :
  isStarted a = true ->
  let a' := stop a in
  isConnected a' = false
  /\ pendingRequests a' = ∅
  /\ (forall n t, pendingRequests a !! n = Some t -> timers a' !! t = None)
  /\ (forall t, (forall n, pendingRequests a !! n <> Some t) ->
                timers a' !! t = timers a !! t)
  /\ emitted a' = emitted a ++ [TRANSPORT_DISCONNECTED]
  /\ stop a' = a'
  /\ (forall now envelope,
        sendToBackend' now envelope a'
        = (a', Throw (TransportError "Backend not connected" (Core.sessionId envelope))))
  /\ (forall to data,
        sendToClient' to data a'
        = (a', Throw (TransportError "Transport not started or session mismatch" to))).
Proof.
  intros Hstarted a'. subst a'. unfold stop. rewrite Hstarted. cbn.
  destruct (stop_timers (pendingRequests a) (timers a)) as [Hcleared Hkept].
  repeat split; try done.
Qed.

(** X12: sendToBackend either succeeds, and then a response timer for the
    sequence of the envelope is armed and recorded as pending, or throws a
    TransportError that bears the session id of the envelope, and then the
    adapter is unchanged: no timer is armed and no event emitted. *)
Theorem sendToBackend_outcome (now : Z) (envelope : SessionEnvelope MCPMessage)
  (a : State) :
  let a' := (sendToBackend' now envelope a).1 in
  match (sendToBackend' now envelope a).2 with
  | Ok _ =>
      pendingRequests a' !! sequence envelope = Some (nextTimer a)
      /\ timers a' !! nextTimer a = Some (sequence envelope)
      /\ nextTimer a' = S (nextTimer a)
  | Throw e =>
      a' = a /\ exists message, e = TransportError message (Core.sessionId envelope)
  end.
Proof.
  unfold sendToBackend, sendViaHttp, sendViaWebSocket, handleBackendResponse,
    setResponseTimeout.
  destruct (backendConnected a); cbn; [|split; [done|by eexists]].
  destruct (backendType (config a)), (websocket a) as [[|]|],
    (fetch_mcp envelope) as [response|e1], (websocket_send envelope) as [|e2];
    cbn; try (split; [done|by eexists]).
  all: destruct (pendingRequests a !! sequence envelope); cbn;
    by rewrite !lookup_insert_eq.
Qed.

(** X13: the [close] of the WebSocket leaves a started adapter started but
    disconnected: sends to the backend are refused, and start() returns at
    once without connecting again; only stop() followed by start()
    reconnects. *)
Theorem websocket_close_needs_restart (a : State) :
  isStarted a = true ->
  let a' := on_websocket_close a in
  isStarted a' = true
  /\ isConnected a' = false
  /\ emitted a' = emitted a ++ [TRANSPORT_DISCONNECTED]
  /\ start' a' = (a', Ok tt)
  /\ (forall now envelope,
        sendToBackend' now envelope a'
        = (a', Throw (TransportError "Backend not connected" (Core.sessionId envelope))))
  /\ (connect (backendType (config a)) = Ok tt ->
      isConnected (start' (stop a')).1 = true).
Proof.
  intros Hstarted a'. subst a'. unfold on_websocket_close, isConnected, start, stop.
  cbn. rewrite Hstarted. cbn. repeat split; try done.
  intros Hconnect. by rewrite Hconnect.
Qed.

(** X14: when a response timer fires, the pending entry of its sequence is
    removed and the error "Request timeout for sequence <n>" is emitted; a
    response that arrives afterwards for this sequence is still forwarded
    as a [message.inbound] event. *)
Theorem response_after_timeout_is_forwarded (t : TimerId) (n : Z) (a : State) :
  timers a !! t = Some n ->
  let a1 := fireTimer t a in
  pendingRequests a1 !! n = None
  /\ timers a1 !! t = None
  /\ emitted a1
     = emitted a
       ++ [ERROR (TransportError ("Request timeout for sequence " +:+ pretty n)
                    (sessionId a))]
  /\ forall payload now,
       emitted (handleBackendResponse (Some (JNum n)) payload now a1)
       = emitted a1
         ++ [message_inbound {| in_sessionId := sessionId a;
                                in_sequence := Some (JNum n);
                                in_payload := payload; in_timestamp := now |}].
Proof.
  intros Ht a1. subst a1. unfold fireTimer. rewrite Ht. cbn.
  rewrite !lookup_delete_eq. repeat split; try done.
Qed.

(** *** The stdin buffer *)

Lemma processIncomingMessage_messageBuffer message now a :
  messageBuffer (processIncomingMessage JSON_parse message now a) = messageBuffer a.
Proof.
  unfold processIncomingMessage. destruct (JSON_parse message) as [j|e]; [|done].
  by destruct (Utils.isValidMCPMessage j) as [[|]|e].
Qed.

Lemma process_line_messageBuffer now a line :
  messageBuffer (process_line JSON_parse now a line) = messageBuffer a.
Proof.
  unfold process_line. destruct (trim line); [done|].
  apply processIncomingMessage_messageBuffer.
Qed.

Lemma process_lines_messageBuffer now lines a :
  messageBuffer (foldl (process_line JSON_parse now) a lines) = messageBuffer a.
Proof.
  revert a. induction lines as [|line lines IH]; intros a; cbn; [done|].
  by rewrite IH, process_line_messageBuffer.
Qed.

Lemma complete_lines_cons_nil (c : ascii) (s : string) :
  complete_lines (String c s) = [] ->
  Ascii.eqb c newline = false /\ complete_lines s = [].
Proof.
  unfold complete_lines. cbn. destruct (Ascii.eqb c newline).
  - pose proof (split_lines_nonempty s). by destruct (split_lines s).
  - intros H. split; [done|].
    pose proof (split_lines_nonempty s). destruct (split_lines s) as [|x [|y l]]; try done.
Qed.

Lemma complete_lines_nil_single (s : string) :
  complete_lines s = [] -> split_lines s = [s].
Proof.
  intros H. pose proof (complete_lines_nil_partial s H) as Hp.
  unfold complete_lines, partial_line in *.
  destruct (single_of_removelast (split_lines s) (split_lines_nonempty s) H) as [x Hx].
  rewrite Hx in Hp. cbn in Hp. by rewrite Hx, Hp.
Qed.

Lemma complete_lines_nil_app (s1 s2 : string) :
  complete_lines s1 = [] -> complete_lines s2 = [] -> complete_lines (s1 +:+ s2) = [].
Proof.
  intros H1 H2. induction s1 as [|c s1 IH].
  - by rewrite append_empty_l.
  - apply complete_lines_cons_nil in H1 as [Hc H1]. specialize (IH H1).
    rewrite append_cons. unfold complete_lines.
    by rewrite (split_lines_cons_single c _ _ Hc (complete_lines_nil_single _ IH)).
Qed.

Lemma handleStdinData_messageBuffer chunk now a :
  messageBuffer (handleStdinData JSON_parse chunk now a)
  = partial_line (messageBuffer a +:+ chunk).
Proof. unfold handleStdinData. by rewrite process_lines_messageBuffer. Qed.

(** X15: after handleStdinData the buffer holds no complete line: it is the
    text after the last newline of buffer and chunk.  A chunk without
    newline, on a buffer without newline, is appended to the buffer and
    nothing else happens: no event, no sequence number. *)
Theorem stdin_buffer_keeps_partial_line (chunk : string) (now : Z) (a : State) :
  let a' := handleStdinData JSON_parse chunk now a in
  messageBuffer a' = partial_line (messageBuffer a +:+ chunk)
  /\ complete_lines (messageBuffer a') = []
  /\ (complete_lines (messageBuffer a) = [] -> complete_lines chunk = [] ->
      a' = set_messageBuffer (messageBuffer a +:+ chunk) a).
Proof.
  intros a'. subst a'.
  pose proof (handleStdinData_messageBuffer chunk now a) as Hbuffer.
  split; [exact Hbuffer|]. split.
  - rewrite Hbuffer. apply complete_lines_partial_line.
  - intros Ha Hchunk. pose proof (complete_lines_nil_app _ _ Ha Hchunk) as Hnone.
    unfold handleStdinData.
    fold (complete_lines (messageBuffer a +:+ chunk)). rewrite Hnone. cbn.
    fold (partial_line (messageBuffer a +:+ chunk)).
    by rewrite (complete_lines_nil_partial _ Hnone).
Qed.

(** *** stdin and the state of the connection *)

Lemma processIncomingMessage_same message now a b :
  outboundSequence a = outboundSequence b -> sessionId a = sessionId b ->
  exists e,
    emitted (processIncomingMessage JSON_parse message now a) = emitted a ++ [e]
    /\ emitted (processIncomingMessage JSON_parse message now b) = emitted b ++ [e]
    /\ outboundSequence (processIncomingMessage JSON_parse message now a)
       = outboundSequence (processIncomingMessage JSON_parse message now b)
    /\ sessionId (processIncomingMessage JSON_parse message now a) = sessionId a
    /\ sessionId (processIncomingMessage JSON_parse message now b) = sessionId b.
Proof.
  intros Hseq Hsid. unfold processIncomingMessage. rewrite Hseq, Hsid.
  destruct (JSON_parse message) as [j|e]; [|by eexists].
  destruct (Utils.isValidMCPMessage j) as [[|]|e]; eexists; cbn; by rewrite ?Hseq, ?Hsid.
Qed.

Lemma process_line_same now line a b :
  outboundSequence a = outboundSequence b -> sessionId a = sessionId b ->
  exists events,
    emitted (process_line JSON_parse now a line) = emitted a ++ events
    /\ emitted (process_line JSON_parse now b line) = emitted b ++ events
    /\ outboundSequence (process_line JSON_parse now a line)
       = outboundSequence (process_line JSON_parse now b line)
    /\ sessionId (process_line JSON_parse now a line)
       = sessionId (process_line JSON_parse now b line).
Proof.
  intros Hseq Hsid. unfold process_line. destruct (trim line) as [|c trimmed].
  - exists []. by rewrite !app_nil_r.
  - destruct (processIncomingMessage_same (String c trimmed) now a b Hseq Hsid)
      as (e & Ha & Hb & Hseq1 & Hsa & Hsb).
    exists [e]. repeat split; try done. congruence.
Qed.

Lemma process_lines_same now lines a b :
  outboundSequence a = outboundSequence b -> sessionId a = sessionId b ->
  let a' := foldl (process_line JSON_parse now) a lines in
  let b' := foldl (process_line JSON_parse now) b lines in
  exists events,
    emitted a' = emitted a ++ events /\ emitted b' = emitted b ++ events
    /\ outboundSequence a' = outboundSequence b' /\ sessionId a' = sessionId b'.
Proof.
  revert a b. induction lines as [|line lines IH]; intros a b Hseq Hsid; cbn.
  - exists []. by rewrite !app_nil_r.
  - destruct (process_line_same now line a b Hseq Hsid)
      as (events1 & Ha & Hb & Hseq1 & Hsid1).
    destruct (IH _ _ Hseq1 Hsid1) as (events & Ha' & Hb' & Hseq' & Hsid').
    exists (events1 ++ events). rewrite Ha', Hb', Ha, Hb, <- !app_assoc. by repeat split.
Qed.

(** X16: handleStdinData reads the buffer, the sequence counter and the
    session id of the adapter and nothing else.  In particular it does not
    look at whether the adapter is started or connected: after stop() a
    chunk from stdin is framed, validated, numbered and emitted as before
    stop(). *)
Theorem stdin_is_processed_when_stopped (chunk : string) (now : Z) (a b : State) :
  (stdin_state a = stdin_state b ->
   stdin_events JSON_parse chunk now a = stdin_events JSON_parse chunk now b
   /\ stdin_state (handleStdinData JSON_parse chunk now a)
      = stdin_state (handleStdinData JSON_parse chunk now b))
  /\ stdin_state (stop a) = stdin_state a
  /\ stdin_events JSON_parse chunk now (stop a) = stdin_events JSON_parse chunk now a.
Proof.
  assert (Hsame : forall a b, stdin_state a = stdin_state b ->
            stdin_events JSON_parse chunk now a = stdin_events JSON_parse chunk now b
            /\ stdin_state (handleStdinData JSON_parse chunk now a)
               = stdin_state (handleStdinData JSON_parse chunk now b)).
  { clear a b. intros a b [= Hbuf Hseq Hsid]. unfold stdin_events, stdin_state.
    pose proof (handleStdinData_messageBuffer chunk now a) as Hba.
    pose proof (handleStdinData_messageBuffer chunk now b) as Hbb.
    rewrite Hba, Hbb. unfold handleStdinData. rewrite Hbuf.
    destruct (process_lines_same now (removelast (split_lines (messageBuffer b +:+ chunk)))
                (set_messageBuffer
                   (List.last (split_lines (messageBuffer b +:+ chunk)) EmptyString) a)
                (set_messageBuffer
                   (List.last (split_lines (messageBuffer b +:+ chunk)) EmptyString) b)
                Hseq Hsid) as (events & Ha & Hb & Hseq' & Hsid').
    cbv zeta in *. rewrite Ha, Hb, Hseq', Hsid'. cbn [emitted set_messageBuffer].
    by rewrite !drop_app_length. }
  assert (Hstop : stdin_state (stop a) = stdin_state a)
    by (unfold stop; by destruct (isStarted a)).
  split; [apply Hsame|]. split; [exact Hstop|]. by apply Hsame.
Qed.

End Lifecycle.

(** Witness of [stop_disconnects]: the adapter of [answered], whose
    response timer 0 is still armed, is stopped. *)
Lemma stop_disconnects_witness :
  isStarted answered.1 = true
  /\ timers answered.1 !! 0%nat = Some 1
  /\ isConnected (stop answered.1) = false
  /\ timers (stop answered.1) !! 0%nat = None
  /\ fireTimer 0%nat (stop answered.1) = stop answered.1.
Proof.
  assert (Hstarted : isStarted answered.1 = true) by (vm_compute; reflexivity).
  destruct (stop_disconnects sample_stringify answering_backend unused_websocket
              answered.1 Hstarted) as (Hconnected & _ & Hcleared & _).
  assert (Hnone : timers (stop answered.1) !! 0%nat = None)
    by (apply (Hcleared 1); vm_compute; reflexivity).
  split; [exact Hstarted|]. split; [vm_compute; reflexivity|].
  split; [exact Hconnected|]. split; [exact Hnone|].
  unfold fireTimer.
  destruct (timers (stop answered.1) !! 0%nat) as [n|] eqn:Ht; [discriminate Hnone|].
  reflexivity.
Defined.

(** Witness of [websocket_close_needs_restart]: the socket of a started
    adapter closes. *)
Lemma websocket_close_needs_restart_witness :
  isConnected (on_websocket_close started_socket_adapter) = false
  /\ start reachable_backend (on_websocket_close started_socket_adapter)
     = (on_websocket_close started_socket_adapter, Ok tt)
  /\ isConnected
       (start reachable_backend (stop (on_websocket_close started_socket_adapter))).1
     = true.
Proof.
  assert (Hstarted : isStarted started_socket_adapter = true) by (vm_compute; reflexivity).
  destruct (websocket_close_needs_restart answering_backend unused_websocket
              reachable_backend started_socket_adapter Hstarted)
    as (_ & Hconnected & _ & Hstart & _ & Hrestart).
  split; [exact Hconnected|]. split; [exact Hstart|]. apply Hrestart. reflexivity.
Defined.

(** Witness of [response_after_timeout_is_forwarded]: the response timer
    of [answered] fires. *)
Lemma response_after_timeout_is_forwarded_witness :
  pendingRequests (fireTimer 0%nat answered.1) !! 1 = None
  /\ emitted (fireTimer 0%nat answered.1)
     = emitted answered.1
       ++ [ERROR (TransportError "Request timeout for sequence 1" "session-9-z")].
Proof.
  assert (Ht : timers answered.1 !! 0%nat = Some 1) by (vm_compute; reflexivity).
  destruct (response_after_timeout_is_forwarded 0%nat 1 answered.1 Ht)
    as (Hpending & _ & Hemitted & _).
  split; [exact Hpending|]. rewrite Hemitted. vm_compute. reflexivity.
Defined.

(** Witness of [stdin_buffer_keeps_partial_line]: the beginning of a line
    arrives at a new adapter. *)
Lemma stdin_buffer_keeps_partial_line_witness :
  handleStdinData sample_parse partial_chunk 10 fresh_adapter
  = set_messageBuffer partial_chunk fresh_adapter.
Proof.
  destruct (stdin_buffer_keeps_partial_line sample_parse partial_chunk 10 fresh_adapter)
    as (_ & _ & Honly).
  rewrite Honly; [reflexivity|vm_compute; reflexivity|vm_compute; reflexivity].
Defined.

(** Witness of [stdin_is_processed_when_stopped]: a ping arrives after
    the adapter of [answered] was stopped. *)
Lemma stdin_is_processed_when_stopped_witness :
  stdin_events sample_parse (ping_text +:+ nl) 30 (stop answered.1)
  = [message_outbound {| Core.sessionId := "session-9-z"; sequence := 1;
                         payload := ping_value; timestamp := 30 |}].
Proof.
  destruct (stdin_is_processed_when_stopped sample_parse (ping_text +:+ nl) 30
              answered.1 answered.1) as (_ & _ & ->).
  vm_compute. reflexivity.
Defined.

End AdapterLifecycleProofs.
(* ===================================================================== *)
(** * Life cycle of the process supervisor *)
(* ===================================================================== *)

Module SupervisorLifecycleProofs.

Import MCPProcessManager.
Import SupervisorScenarios.
Import SupervisorHistories.
Import SupervisorProofs.

Section Lifecycle.

Variable JSON_parse : string -> Result json.
Variable JSON_stringify : json -> string.
Variable process_pid : Z.
Variable process_kill0 : option json -> bool.
Variable spawn : list string -> Result ChildProcess.
Variable waitForProcessReady : ChildProcess -> Result unit.
Variable kill : ChildProcess -> Signal -> Result unit.

#[local] Abbreviation startProcess' :=
  (startProcess JSON_stringify process_pid spawn waitForProcessReady).
#[local] Abbreviation start' :=
  (start JSON_parse JSON_stringify process_pid process_kill0 spawn waitForProcessReady).
#[local] Abbreviation resume' :=
  (attemptRestart_resume JSON_stringify process_pid spawn waitForProcessReady).
#[local] Abbreviation stop' := (stop kill).
#[local] Abbreviation run' :=
  (run JSON_stringify process_pid spawn waitForProcessReady kill).
#[local] Abbreviation apply' :=
  (apply JSON_stringify process_pid spawn waitForProcessReady kill).

(** Whether it throws or not, resetIdleTimer only touches the timers. *)
Lemma resetIdleTimer_timers_only pm :
  exists health idle, (resetIdleTimer pm).1 = set_timers health idle pm.
Proof.
  unfold resetIdleTimer. destruct (config pm) as [c|]; [|by eauto].
  destruct (idleTimeout c); by eauto.
Qed.

(** X17: startProcess when no process is held.  On success the status is
    'running' with the pid of the child, the lock file holds the record of
    the supervisor's own pid, and BACKEND_STARTED is emitted.  When spawn
    or the readiness wait fails it throws the ProcessError "Failed to start
    process: <cause>", no process is held, the lock file is removed and the
    timers are cleared, and the status stays 'starting'; an exit of the
    child is an event of its own, which the exit listener handles. *)
Theorem startProcess_outcome (now : Z) (c : ProcessManagerConfig) (pm : State) :
  process pm = None -> config pm = Some c ->
  let pm' := (startProcess' now pm).1 in
  match (startProcess' now pm).2 with
  | Ok _ =>
      exists child,
        spawn (command c) = Ok child
        /\ process pm' = Some child
        /\ status (processStatus pm') = RUNNING
        /\ pid (processStatus pm') = Some (child_pid child)
        /\ lockFile pm'
           = Some (JSON_stringify (lock_record process_pid now (command c)))
        /\ emitted pm' = emitted pm ++ [BACKEND_STARTED (child_pid child)]
  | Throw e =>
      (exists cause, e = ProcessError ("Failed to start process: " +:+ cause))
      /\ status (processStatus pm') = STARTING
      /\ process pm' = None /\ lockFile pm' = None
      /\ healthCheckTimer pm' = false /\ idleTimer pm' = false
      /\ emitted pm' = emitted pm
  end.
Proof.
  intros Hp Hc. rewrite (startProcess_configured _ _ _ _ now pm c Hp Hc). cbv zeta.
  destruct (spawn (command c)) as [child|e] eqn:Hspawn.
  - destruct (waitForProcessReady child) as [|e].
    + cbn [fst snd].
      match goal with
      | |- context [resetIdleTimer (startHealthCheck ?x).1] =>
          destruct (timers_after_ready x c Hc) as (h & i & ->)
      end.
      exists child. by repeat split.
    + cbn. repeat split; try done. by eexists.
  - cbn. repeat split; try done. by eexists.
Qed.

Lemma startProcess_frame now pm :
  let pm' := (startProcess' now pm).1 in
  config pm' = config pm
  /\ restartCount (processStatus pm') = restartCount (processStatus pm)
  /\ backoff pm' = backoff pm
  /\ (length (spawned pm') <= S (length (spawned pm)))%nat.
Proof.
  destruct (process pm) as [held|] eqn:Hp.
  { unfold startProcess. rewrite Hp. cbn. repeat split; lia. }
  destruct (config pm) as [c|] eqn:Hc.
  2:{ unfold startProcess, createLockFile. rewrite Hp.
      change (config (updateStatus STARTING None None pm)) with (config pm).
      rewrite Hc. cbn. repeat split; try done. lia. }
  rewrite (startProcess_configured _ _ _ _ now pm c Hp Hc). cbv zeta.
  destruct (spawn (command c)) as [child|e];
    [|cbn; rewrite ?length_app; cbn; repeat split; try done; lia].
  destruct (waitForProcessReady child) as [|e];
    [|cbn; rewrite ?length_app; cbn; repeat split; try done; lia].
  cbn [fst].
  match goal with
  | |- context [resetIdleTimer (startHealthCheck ?x).1] =>
      destruct (timers_after_ready x c Hc) as (h & i & ->)
  end.
  cbn. rewrite length_app. cbn. repeat split; try done. lia.
Qed.

(** *** stop *)

Lemma on_exit_stopping code signal pm :
  status (processStatus pm) = STOPPING ->
  on_exit code signal pm
  = cleanup (emit BACKEND_STOPPED (updateStatus STOPPED None None pm)).
Proof. intros Hst. unfold on_exit. by rewrite bool_decide_eq_true_2. Qed.

Lemma stop_settles (force : bool) (exit : option (option Z * option string))
  (child : ChildProcess) (pm pm' : State) (r : Completion unit) :
  process pm = Some child ->
  stop' force exit pm = (pm', r) ->
  let stopping := updateStatus STOPPING None None (clearTimers pm) in
  match r with
  | Settled _ =>
      pm' = cleanup stopping
      \/ (exists code signal, pm' = cleanup (on_exit code signal stopping))
  | Uncaught _ => force = false /\ exit = None /\ pm' = stopping
  end.
Proof.
  intros Hp. unfold stop.
  change (process (clearTimers pm)) with (process pm). rewrite Hp. cbv zeta.
  destruct force.
  - destruct (kill child SIGKILL); intros [= <- <-]; by left.
  - destruct (kill child SIGTERM); [|intros [= <- <-]; by left].
    destruct exit as [[code signal]|].
    + intros [= <- <-]. right. by exists code, signal.
    + destruct (kill child SIGKILL); intros [= <- <-]; [by left|done].
Qed.

(** X18: stop() while a process is held.  Whenever the call settles, by
    returning or by throwing, no process is held afterwards, the lock file
    is removed and both timers are cleared; nothing is spawned and no
    restart is scheduled.  The status is 'stopped' when the exit was
    observed during the graceful wait and 'stopping' otherwise, and then
    the exit that follows sets 'stopped', emits BACKEND_STOPPED and
    schedules no restart either.  Only an exception of the SIGKILL sent
    after the graceful wait leaves the call unsettled, with the process
    still held. *)
Theorem stop_releases_the_backend (force : bool)
  (exit : option (option Z * option string)) (child : ChildProcess) (pm : State) :
  process pm = Some child ->
  let pm' := (stop' force exit pm).1 in
  match (stop' force exit pm).2 with
  | Settled _ =>
      process pm' = None /\ lockFile pm' = None
      /\ healthCheckTimer pm' = false /\ idleTimer pm' = false
      /\ spawned pm' = spawned pm /\ backoff pm' = backoff pm
      /\ restartCount (processStatus pm') = restartCount (processStatus pm)
      /\ (status (processStatus pm') = STOPPED
          \/ (status (processStatus pm') = STOPPING
              /\ forall code signal,
                   let pm'' := on_exit code signal pm' in
                   status (processStatus pm'') = STOPPED
                   /\ emitted pm'' = emitted pm' ++ [BACKEND_STOPPED]
                   /\ backoff pm'' = backoff pm
                   /\ restartCount (processStatus pm'')
                      = restartCount (processStatus pm)))
  | Uncaught _ =>
      force = false /\ exit = None
      /\ process pm' = Some child /\ lockFile pm' = lockFile pm
      /\ status (processStatus pm') = STOPPING
  end.
Proof.
  intros Hp pm'. subst pm'.
  pose proof (stop_settles force exit child pm (stop' force exit pm).1
                (stop' force exit pm).2 Hp) as Hcases.
  destruct (stop' force exit pm) as [pm' r]. specialize (Hcases eq_refl).
  cbv zeta in Hcases. cbn [fst snd] in *. destruct r as [r|e].
  - destruct Hcases as [->|(code & signal & ->)].
    + repeat split; try done. right. split; [done|]. intros code signal.
      rewrite on_exit_stopping by done. by repeat split.
    + rewrite on_exit_stopping by done. repeat split; try done. by left.
  - destruct Hcases as (-> & -> & ->). by repeat split.
Qed.

(** X19: stop() while no process is held only clears the timers and sets
    'stopped': the lock file is left as it is, and a restart that is
    waiting for its backoff is not cancelled: when the backoff has elapsed,
    the command is spawned again. *)
Theorem stop_does_not_cancel_restart (force : bool)
  (exit : option (option Z * option string)) (c : ProcessManagerConfig)
  (delay : Z) (rest : list Z) (now : Z) (pm : State) :
  process pm = None -> config pm = Some c -> backoff pm = delay :: rest ->
  let pm' := (stop' force exit pm).1 in
  (stop' force exit pm).2 = Settled (Ok tt)
  /\ status (processStatus pm') = STOPPED
  /\ lockFile pm' = lockFile pm
  /\ backoff pm' = delay :: rest
  /\ spawned (resume' now pm') = spawned pm ++ [command c].
Proof.
  intros Hp Hc Hb. unfold stop.
  change (process (clearTimers pm)) with (process pm). rewrite Hp. cbn [fst snd].
  repeat split; try done.
  unfold attemptRestart_resume. cbn [backoff updateStatus set_processStatus clearTimers
                                       set_timers].
  rewrite Hb. by rewrite (startProcess_spawns _ _ _ _ now _ c).
Qed.

(** *** The restart budget *)

Lemma attemptRestart_budget c cap pm :
  cap = Z.max 0 (default 0 (maxRestartAttempts c)) ->
  within_budget c cap pm -> within_budget c cap (attemptRestart pm).
Proof.
  intros Hcap (Hc & Hcount & Hspawned).
  destruct (restart_allowed pm) eqn:Hallowed.
  - destruct (attemptRestart_allowed pm Hallowed) as (Hn & _ & Hb & _ & Hc' & Hs).
    unfold within_budget. rewrite Hn, Hb, Hc', Hs, length_app. cbn.
    unfold restart_allowed in Hallowed. rewrite Hc in Hallowed.
    apply andb_true_iff in Hallowed as [_ Hlt]. apply Z.ltb_lt in Hlt.
    repeat split; try done; lia.
  - by rewrite attemptRestart_refused.
Qed.

Lemma within_budget_same c cap pm pm' :
  config pm' = config pm ->
  restartCount (processStatus pm') = restartCount (processStatus pm) ->
  spawned pm' = spawned pm -> backoff pm' = backoff pm ->
  within_budget c cap pm -> within_budget c cap pm'.
Proof. unfold within_budget. by intros -> -> -> ->. Qed.

Lemma on_exit_budget c cap code signal pm :
  cap = Z.max 0 (default 0 (maxRestartAttempts c)) ->
  within_budget c cap pm -> within_budget c cap (on_exit code signal pm).
Proof.
  intros Hcap Hinv. unfold on_exit.
  destruct (bool_decide (status (processStatus pm) = STOPPING)).
  - by eapply within_budget_same; [..|exact Hinv].
  - eapply within_budget_same; [..|apply (attemptRestart_budget c cap); [exact Hcap|]];
      try reflexivity.
    by eapply within_budget_same; [..|exact Hinv].
Qed.

Lemma resume_budget c cap now pm :
  within_budget c cap pm -> within_budget c cap (resume' now pm).
Proof.
  intros Hinv. unfold attemptRestart_resume.
  destruct (backoff pm) as [|delay rest] eqn:Hb; [exact Hinv|].
  destruct Hinv as (Hc & Hcount & Hspawned). rewrite Hb in Hspawned.
  destruct (startProcess_frame now (set_backoff rest pm)) as (Hc' & Hn & Hb' & Hs).
  unfold within_budget. rewrite Hc', Hn, Hb'. cbn in *. repeat split; try done; lia.
Qed.

Lemma stop_budget c cap force exit pm :
  within_budget c cap pm -> within_budget c cap (stop' force exit pm).1.
Proof.
  intros Hinv. unfold stop. change (process (clearTimers pm)) with (process pm).
  destruct (process pm) as [child|]; [|by eapply within_budget_same; [..|exact Hinv]].
  cbv zeta. destruct force.
  - destruct (kill child SIGKILL); by eapply within_budget_same; [..|exact Hinv].
  - destruct (kill child SIGTERM); [|by eapply within_budget_same; [..|exact Hinv]].
    destruct exit as [[code signal]|].
    + cbn [fst]. rewrite on_exit_stopping by done.
      by eapply within_budget_same; [..|exact Hinv].
    + destruct (kill child SIGKILL); by eapply within_budget_same; [..|exact Hinv].
Qed.

Lemma updateActivity_budget c cap now pm :
  within_budget c cap pm -> within_budget c cap (updateActivity now pm).1.
Proof.
  intros Hinv. unfold updateActivity.
  destruct (resetIdleTimer_timers_only (set_lastActivity now pm)) as (h & i & ->).
  by eapply within_budget_same; [..|exact Hinv].
Qed.

Lemma run_budget c cap ops pm :
  cap = Z.max 0 (default 0 (maxRestartAttempts c)) ->
  within_budget c cap pm -> within_budget c cap (run' ops pm).
Proof.
  intros Hcap. revert pm. induction ops as [|op ops IH]; intros pm Hinv; cbn; [done|].
  apply IH. destruct op; cbn.
  - by apply on_exit_budget.
  - by eapply within_budget_same; [..|exact Hinv].
  - by apply resume_budget.
  - by apply stop_budget.
  - by apply updateActivity_budget.
Qed.

Lemma start_cases cfg now pm :
  start' cfg now pm = (set_config (Some (merge_config cfg)) pm, Throw conflict)
  \/ start' cfg now pm
     = startProcess' now (set_lockFile None (set_config (Some (merge_config cfg)) pm)).
Proof.
  unfold start. rewrite isAnotherInstanceRunning_spec.
  destruct (lock_held _ _ _); [by left|by right].
Qed.

Lemma start_budget cfg now lock created :
  within_budget (merge_config cfg) (restart_cap cfg) (start' cfg now (new lock created)).1.
Proof.
  destruct (start_cases cfg now (new lock created)) as [-> | ->].
  - unfold within_budget, restart_cap. cbn. repeat split; try done; lia.
  - set (pm := set_lockFile None (set_config (Some (merge_config cfg)) (new lock created))).
    destruct (startProcess_frame now pm) as (Hc & Hn & Hb & Hs).
    unfold within_budget. rewrite Hc, Hn, Hb.
    change (config pm) with (Some (merge_config cfg)).
    change (restartCount (processStatus pm)) with 0.
    change (backoff pm) with (@nil Z).
    change (length (spawned pm)) with 0%nat in Hs.
    unfold restart_cap. split; [reflexivity|]. split; [lia|].
    rewrite Nat2Z.inj_add. change (Z.of_nat (length (@nil Z))) with 0. lia.
Qed.

(** X20: after start(config) on a new supervisor, whatever follows of
    child exits and errors, elapsed backoffs, stop and updateActivity
    calls: the restart counter stays within the configured
    maxRestartAttempts (3 by default), and the command is spawned at most
    once more than that. *)
Theorem restarts_are_bounded (cfg : ProcessManagerConfig) (now created : Z)
  (lock : option string) (ops : list Op) :
  let pm := run' ops (start' cfg now (new lock created)).1 in
  0 <= restartCount (processStatus pm) <= restart_cap cfg
  /\ Z.of_nat (length (spawned pm)) <= 1 + restart_cap cfg.
Proof.
  intros pm.
  assert (Hinv : within_budget (merge_config cfg) (restart_cap cfg) pm).
  { apply run_budget; [|apply start_budget]. unfold restart_cap. cbn.
    by destruct (maxRestartAttempts cfg). }
  destruct Hinv as (_ & Hcount & Hspawned). split; [done|].
  rewrite Nat2Z.inj_add in Hspawned. lia.
Qed.

(** *** The lock file *)

Lemma startProcess_writes_lock now c pm :
  process pm = None -> config pm = Some c ->
  (startProcess' now pm).2 = Ok tt ->
  lockFile (startProcess' now pm).1
  = Some (JSON_stringify (lock_record process_pid now (command c))).
Proof.
  intros Hp Hc. rewrite (startProcess_configured _ _ _ _ now pm c Hp Hc). cbv zeta.
  destruct (spawn (command c)) as [child|e]; [|done].
  destruct (waitForProcessReady child) as [|e]; [|done]. intros _. cbn [fst].
  match goal with
  | |- context [resetIdleTimer (startHealthCheck ?x).1] =>
      destruct (timers_after_ready x c Hc) as (h & i & ->)
  end.
  reflexivity.
Qed.

(** X21: the lock file does its work.  On a platform where the record that
    createLockFile writes is read back with the supervisor's pid, and where
    this pid is alive, a supervisor whose start succeeded holds the lock:
    start() of any supervisor that finds this lock file throws the conflict
    error and spawns nothing. *)
Theorem started_supervisor_holds_the_lock (cfg cfg' : ProcessManagerConfig)
  (now now' : Z) (pm other : State) :
  (forall record,
     recorded_pid record = Some (JNum process_pid) ->
     exists parsed,
       JSON_parse (JSON_stringify record) = Ok parsed
       /\ recorded_pid parsed = Some (JNum process_pid)) ->
  process_kill0 (Some (JNum process_pid)) = true ->
  process pm = None ->
  (start' cfg now pm).2 = Ok tt ->
  lockFile other = lockFile (start' cfg now pm).1 ->
  (start' cfg' now' other).2 = Throw conflict
  /\ spawned (start' cfg' now' other).1 = spawned other.
Proof.
  intros Hround Halive Hp Hok Hlock.
  assert (Hheld : lock_held JSON_parse process_kill0 other = true).
  { unfold lock_held. rewrite Hlock. revert Hok. unfold start.
    rewrite isAnotherInstanceRunning_spec.
    destruct (lock_held _ _ _); [done|].
    match goal with
    | |- context [startProcess' now ?x] =>
        pose proof (startProcess_writes_lock now (merge_config cfg) x Hp eq_refl) as Hout
    end.
    intros Hok. rewrite (Hout Hok).
    destruct (Hround (lock_record process_pid now (command (merge_config cfg))) eq_refl)
      as (parsed & -> & Hpid).
    destruct parsed; try done. unfold recorded_pid in *. by rewrite Hpid. }
  unfold start. rewrite isAnotherInstanceRunning_spec.
  change (lock_held JSON_parse process_kill0 (set_config _ other))
    with (lock_held JSON_parse process_kill0 other).
  by rewrite Hheld.
Qed.

End Lifecycle.

(** Witness of [startProcess_outcome]: spawn fails. *)
Lemma startProcess_outcome_witness :
  failed_start.2
  = Throw (ProcessError "Failed to start process: spawn node ENOENT")
  /\ status (processStatus failed_start.1) = STARTING
  /\ lockFile failed_start.1 = None.
Proof.
  assert (Hthrow : failed_start.2
                   = Throw (ProcessError "Failed to start process: spawn node ENOENT"))
    by (vm_compute; reflexivity).
  pose proof (startProcess_outcome lock_stringify 777 spawn_fails sample_ready 100
                (merge_config sample_config) configured_supervisor eq_refl eq_refl)
    as Hout.
  cbv zeta in Hout.
  change (startProcess lock_stringify 777 spawn_fails sample_ready 100
            configured_supervisor) with failed_start in Hout.
  rewrite Hthrow in Hout. destruct Hout as (_ & Hstatus & _ & Hlock & _).
  split; [exact Hthrow|]. split; [exact Hstatus|exact Hlock].
Defined.

(** Witness of [stop_releases_the_backend]: the running supervisor is
    stopped by force. *)
Lemma stop_releases_the_backend_witness :
  forced_stop.2 = Settled (Ok tt)
  /\ process forced_stop.1 = None /\ lockFile forced_stop.1 = None
  /\ backoff forced_stop.1 = [].
Proof.
  assert (Hsettled : forced_stop.2 = Settled (Ok tt)) by (vm_compute; reflexivity).
  assert (Hchild : process running_supervisor = Some sample_child)
    by (vm_compute; reflexivity).
  pose proof (stop_releases_the_backend kill_delivered true None sample_child
                running_supervisor Hchild) as Hout.
  cbv zeta in Hout.
  change (stop kill_delivered true None running_supervisor) with forced_stop in Hout.
  rewrite Hsettled in Hout. destruct Hout as (Hprocess & Hlock & _ & _ & _ & Hbackoff & _).
  split; [exact Hsettled|]. split; [exact Hprocess|]. split; [exact Hlock|].
  rewrite Hbackoff. vm_compute. reflexivity.
Defined.

(** Witness of [stop_does_not_cancel_restart]: stop() after the first
    crash, then the backoff of two seconds elapses. *)
Lemma stop_does_not_cancel_restart_witness :
  status (processStatus stopped_while_waiting.1) = STOPPED
  /\ spawned stopped_while_waiting.1 = [["node"; "server.js"]]
  /\ spawned (attemptRestart_resume lock_stringify 777 sample_spawn sample_ready 2200
                stopped_while_waiting.1)
     = [["node"; "server.js"]; ["node"; "server.js"]].
Proof.
  destruct (stop_does_not_cancel_restart lock_stringify 777 sample_spawn sample_ready
              kill_delivered false None (merge_config sample_config) 2000 [] 2200
              crashed_once)
    as (_ & Hstatus & _ & _ & Hspawned).
  - vm_compute. reflexivity.
  - vm_compute. reflexivity.
  - vm_compute. reflexivity.
  - split; [exact Hstatus|]. split; [vm_compute; reflexivity|].
    etransitivity; [exact Hspawned|]. vm_compute. reflexivity.
Defined.

(** Witness of [started_supervisor_holds_the_lock]: supervisor 777 has
    started; a second supervisor finds its lock file. *)
Lemma started_supervisor_holds_the_lock_witness :
  (start own_lock_parse lock_stringify 777 own_kill0 sample_spawn sample_ready
         sample_config 200 second_supervisor).2 = Throw conflict
  /\ spawned (start own_lock_parse lock_stringify 777 own_kill0 sample_spawn sample_ready
                sample_config 200 second_supervisor).1 = [].
Proof.
  apply (started_supervisor_holds_the_lock own_lock_parse lock_stringify 777 own_kill0
           sample_spawn sample_ready sample_config sample_config 100 200
           (new None 0) second_supervisor).
  - intros record _. eexists. split; vm_compute; reflexivity.
  - reflexivity.
  - reflexivity.
  - vm_compute. reflexivity.
  - vm_compute. reflexivity.
Defined.

End SupervisorLifecycleProofs.
(* ===================================================================== *)
(** * Utilities, configuration and wiring of the server *)
(* ===================================================================== *)

Module ServerProofs.

Import SessionMultiplexerImpl.
Import AdapterScenarios.
Import ServerScenarios.

(** *** retryWithBackoff *)

Lemma backoff_delays_from (base factor a k : Z) :
  a < k ->
  (fun i => base * factor ^ i) <$> seqZ (a - 1) (k - a)
  = base * factor ^ (a - 1) :: ((fun i => base * factor ^ i) <$> seqZ a (k - (a + 1))).
Proof.
  intros Hlt. rewrite seqZ_cons by lia. cbn. do 3 f_equal; lia.
Qed.

Lemma retry_from_success {A} (fn : Z -> Result A) (iterations : nat)
  (attempt maxAttempts base factor k : Z) (result : A) :
  Z.of_nat iterations = maxAttempts - attempt + 1 ->
  attempt <= k <= maxAttempts ->
  (forall j, attempt <= j < k -> exists e, fn j = Throw e) ->
  fn k = Ok result ->
  Utils.retry_from fn iterations attempt maxAttempts base factor
  = (Utils.Resolved result, Z.to_nat (k - attempt + 1),
     (fun i => base * factor ^ i) <$> seqZ (attempt - 1) (k - attempt)).
Proof.
  revert attempt. induction iterations as [|n IH]; intros attempt Hn Hk Hfail Hok; [lia|].
  cbn. destruct (decide (attempt = k)) as [->|Hne].
  - rewrite Hok. replace (k - k + 1) with 1 by lia. replace (k - k) with 0 by lia.
    by rewrite seqZ_nil.
  - destruct (Hfail attempt) as [e ->]; [lia|].
    destruct (Z.eqb_spec attempt maxAttempts); [lia|].
    rewrite (IH (attempt + 1)) by (try done; try lia; intros j Hj; apply Hfail; lia).
    rewrite (backoff_delays_from base factor attempt k) by lia.
    replace (attempt + 1 - 1) with attempt by lia.
    replace (k - attempt + 1) with (Z.succ (k - (attempt + 1) + 1)) by lia.
    rewrite Z2Nat.inj_succ by lia. reflexivity.
Qed.

Lemma retry_from_exhausted {A} (fn : Z -> Result A) (iterations : nat)
  (attempt maxAttempts base factor : Z) (last : ShimMCPError) :
  Z.of_nat iterations = maxAttempts - attempt + 1 ->
  attempt <= maxAttempts ->
  (forall j, attempt <= j < maxAttempts -> exists e, fn j = Throw e) ->
  fn maxAttempts = Throw last ->
  Utils.retry_from fn iterations attempt maxAttempts base factor
  = (Utils.Rejected last, Z.to_nat (maxAttempts - attempt + 1),
     (fun i => base * factor ^ i) <$> seqZ (attempt - 1) (maxAttempts - attempt)).
Proof.
  revert attempt. induction iterations as [|n IH]; intros attempt Hn Hk Hfail Hlast; [lia|].
  cbn. destruct (decide (attempt = maxAttempts)) as [->|Hne].
  - rewrite Hlast, Z.eqb_refl. replace (maxAttempts - maxAttempts + 1) with 1 by lia.
    replace (maxAttempts - maxAttempts) with 0 by lia. by rewrite seqZ_nil.
  - destruct (Hfail attempt) as [e ->]; [lia|].
    destruct (Z.eqb_spec attempt maxAttempts); [lia|].
    rewrite (IH (attempt + 1)) by (try done; try lia; intros j Hj; apply Hfail; lia).
    rewrite (backoff_delays_from base factor attempt maxAttempts) by lia.
    replace (attempt + 1 - 1) with attempt by lia.
    replace (maxAttempts - attempt + 1) with (Z.succ (maxAttempts - (attempt + 1) + 1))
      by lia.
    rewrite Z2Nat.inj_succ by lia. reflexivity.
Qed.

(** X22: retryWithBackoff resolves with the result of the first call that
    succeeds, if this is one of the first [maxAttempts] calls: the function
    is called up to this attempt [k] and no further, and before the
    attempts 2, ..., k the delays baseDelayMs * backoffFactor^0, ...,
    baseDelayMs * backoffFactor^(k-2) are slept. *)
Theorem retryWithBackoff_first_success {A} (fn : Z -> Result A)
  (maxAttempts baseDelayMs backoffFactor k : Z) (result : A) :
  1 <= k <= maxAttempts ->
  (forall j, 1 <= j < k -> exists e, fn j = Throw e) ->
  fn k = Ok result ->
  Utils.retryWithBackoff fn maxAttempts baseDelayMs backoffFactor
  = (Utils.Resolved result, Z.to_nat k, backoff_delays baseDelayMs backoffFactor k).
Proof.
  intros Hk Hfail Hok. unfold Utils.retryWithBackoff, backoff_delays.
  rewrite (retry_from_success fn _ 1 maxAttempts baseDelayMs backoffFactor k result)
    by (try done; lia).
  do 2 f_equal. f_equal. lia.
Qed.

(** X23: when all of the [maxAttempts] calls fail, retryWithBackoff rejects
    with the error of the last call, after [maxAttempts] calls and
    [maxAttempts - 1] delays: no delay follows the last failure.  With
    [maxAttempts] below one the function is never called and the promise
    never settles. *)
Theorem retryWithBackoff_exhausted {A} (fn : Z -> Result A)
  (maxAttempts baseDelayMs backoffFactor : Z) :
  (maxAttempts <= 0 ->
   Utils.retryWithBackoff fn maxAttempts baseDelayMs backoffFactor
   = (Utils.Pending, 0%nat, []))
  /\ (forall last,
        1 <= maxAttempts ->
        (forall j, 1 <= j < maxAttempts -> exists e, fn j = Throw e) ->
        fn maxAttempts = Throw last ->
        Utils.retryWithBackoff fn maxAttempts baseDelayMs backoffFactor
        = (Utils.Rejected last, Z.to_nat maxAttempts,
           backoff_delays baseDelayMs backoffFactor maxAttempts)).
Proof.
  split.
  - intros Hle. unfold Utils.retryWithBackoff.
    replace (Z.to_nat maxAttempts) with 0%nat by lia. reflexivity.
  - intros last Hk Hfail Hlast. unfold Utils.retryWithBackoff, backoff_delays.
    rewrite (retry_from_exhausted fn _ 1 maxAttempts baseDelayMs backoffFactor last)
      by (try done; lia).
    do 2 f_equal. f_equal. lia.
Qed.

(** *** Configuration *)

Import ShimMCPServer.

Lemma number_or_idempotent (fallback : Z) (value : option Z) :
  fallback <> 0 ->
  number_or fallback (Some (number_or fallback value)) = number_or fallback value
  /\ number_or fallback value <> 0.
Proof.
  intros Hd. unfold number_or. destruct value as [n|].
  - destruct (Z.eqb_spec n 0).
    + by destruct (Z.eqb_spec fallback 0).
    + by destruct (Z.eqb_spec n 0).
  - by destruct (Z.eqb_spec fallback 0).
Qed.

Lemma string_or_idempotent (fallback : string) (value : option string) :
  fallback <> EmptyString ->
  string_or fallback (Some (string_or fallback value)) = string_or fallback value
  /\ string_or fallback value <> EmptyString.
Proof.
  intros Hd. unfold string_or. destruct value as [s|].
  - destruct (String.eqb_spec s EmptyString).
    + by destruct (String.eqb_spec fallback EmptyString).
    + by destruct (String.eqb_spec s EmptyString).
  - by destruct (String.eqb_spec fallback EmptyString).
Qed.

Lemma merge_config_idempotent (c : MCPProcessManager.ProcessManagerConfig) :
  MCPProcessManager.merge_config (MCPProcessManager.merge_config c)
  = MCPProcessManager.merge_config c.
Proof. reflexivity. Qed.

Lemma number_or_setting (fallback : Z) (given : option Z) :
  number_setting fallback given (Some (number_or fallback given)).
Proof.
  unfold number_setting, number_or. split.
  - intros n -> Hn. by destruct (Z.eqb_spec n 0).
  - by intros [-> | ->].
Qed.

Lemma string_or_setting (fallback : string) (given : option string) :
  text_setting fallback given (Some (string_or fallback given)).
Proof.
  unfold text_setting, string_or. split.
  - intros text -> Htext. by destruct (String.eqb_spec text EmptyString).
  - by intros [-> | ->].
Qed.

Lemma default_kept {A} (fallback : A) (given : option A) :
  kept_or fallback given (Some (default fallback given)).
Proof. unfold kept_or. split; [by intros value ->|by intros ->]. Qed.

(** X24: validateAndNormalizeConfig rejects every configuration without
    backend command, with the error "Backend command is required", and
    accepts every other one.  In the result the buffer size, the port, the
    idle timeout and the session cap are the given numbers, or 8192, 3000,
    600000 and 50 where the number is missing or 0; the host is the given
    one, or 127.0.0.1 where it is missing or empty; the log level is the
    given one, or 'info'; backendAdapter and logFile are copied as they
    are, defined or not; and the backend keeps its command, working
    directory and health check URL and each of restartPolicy,
    maxRestartAttempts, healthCheckInterval and idleTimeout that is given,
    a 0 included, the missing ones being 'on-failure', 3, 5000 and 600000.
    Normalizing the result again changes nothing. *)
Theorem validateAndNormalizeConfig_normalizes (config : ShimMCPConfig) :
  match backend config, validateAndNormalizeConfig config with
  | None, outcome => outcome = INVALID_CONFIG "Backend command is required"
  | Some _, INVALID_CONFIG _ => False
  | Some b, Normalized normalized =>
      number_setting 8192 (stdioBufferSize config) (stdioBufferSize normalized)
      /\ number_setting 3000 (httpPort config) (httpPort normalized)
      /\ text_setting "127.0.0.1" (httpHost config) (httpHost normalized)
      /\ number_setting 600000 (sessionIdleTimeout config) (sessionIdleTimeout normalized)
      /\ number_setting 50 (maxConcurrentSessions config) (maxConcurrentSessions normalized)
      /\ kept_or info (logLevel config) (logLevel normalized)
      /\ backendAdapter normalized = backendAdapter config
      /\ logFile normalized = logFile config
      /\ (exists nb,
            backend normalized = Some nb
            /\ MCPProcessManager.command nb = MCPProcessManager.command b
            /\ MCPProcessManager.workingDirectory nb = MCPProcessManager.workingDirectory b
            /\ MCPProcessManager.healthCheckUrl nb = MCPProcessManager.healthCheckUrl b
            /\ kept_or MCPProcessManager.ON_FAILURE (MCPProcessManager.restartPolicy b)
                 (MCPProcessManager.restartPolicy nb)
            /\ kept_or 3 (MCPProcessManager.maxRestartAttempts b)
                 (MCPProcessManager.maxRestartAttempts nb)
            /\ kept_or 5000 (MCPProcessManager.healthCheckInterval b)
                 (MCPProcessManager.healthCheckInterval nb)
            /\ kept_or 600000 (MCPProcessManager.idleTimeout b)
                 (MCPProcessManager.idleTimeout nb))
      /\ validateAndNormalizeConfig normalized = Normalized normalized
  end.
Proof.
  unfold validateAndNormalizeConfig. destruct (backend config) as [b|]; [|done].
  destruct (number_or_idempotent DEFAULT_STDIO_BUFFER_SIZE (stdioBufferSize config))
    as [Hsize Hsize0]; [done|].
  destruct (number_or_idempotent DEFAULT_HTTP_PORT (httpPort config))
    as [Hport Hport0]; [done|].
  destruct (string_or_idempotent DEFAULT_HTTP_HOST (httpHost config))
    as [Hhost Hhost0]; [done|].
  destruct (number_or_idempotent DEFAULT_SESSION_IDLE_TIMEOUT (sessionIdleTimeout config))
    as [Htimeout Htimeout0]; [done|].
  destruct (number_or_idempotent DEFAULT_MAX_CONCURRENT_SESSIONS
              (maxConcurrentSessions config)) as [Hcap Hcap0]; [done|].
  split; [apply number_or_setting|]. split; [apply number_or_setting|].
  split; [apply string_or_setting|]. split; [apply number_or_setting|].
  split; [apply number_or_setting|]. split; [apply default_kept|].
  split; [reflexivity|]. split; [reflexivity|]. split.
  - eexists. split; [reflexivity|]. split; [reflexivity|]. split; [reflexivity|].
    split; [reflexivity|]. repeat split; apply default_kept.
  - cbn [backend stdioBufferSize httpPort httpHost sessionIdleTimeout
           maxConcurrentSessions backendAdapter logLevel logFile].
    rewrite Hsize, Hport, Hhost, Htimeout, Hcap, merge_config_idempotent.
    by destruct (logLevel config).
Qed.

(** *** Wiring *)

Lemma updateActivity_unconfigured now pm :
  MCPProcessManager.config pm = None ->
  (MCPProcessManager.updateActivity now pm).2 = Throw no_configuration
  /\ MCPProcessManager.lastActivity (MCPProcessManager.updateActivity now pm).1 = now
  /\ MCPProcessManager.config (MCPProcessManager.updateActivity now pm).1 = None
  /\ MCPProcessManager.idleTimer (MCPProcessManager.updateActivity now pm).1 = false.
Proof.
  intros Hc. unfold MCPProcessManager.updateActivity, MCPProcessManager.resetIdleTimer.
  change (MCPProcessManager.config (MCPProcessManager.set_lastActivity now pm))
    with (MCPProcessManager.config pm).
  by rewrite Hc.
Qed.

(** X25: wireComponents, run on the components as start has just created
    them, throws whatever the configuration, the adapter and the ids are.
    When the session cap is 0 or less, createSession refuses the session
    with "Maximum concurrent sessions exceeded".  Otherwise createSession
    stores the session and emits SESSION_CREATED; the listener of the
    server then calls updateActivity on the supervisor, which has no
    configuration before processManager.start, and resetIdleTimer throws
    the TypeError of reading idleTimeout of undefined: the session stays
    in the table, the activity time is updated, and wireComponents does
    not return. *)
Theorem wireComponents_throws (config : ShimMCPConfig)
  (adapter : StdioTransportAdapter.State) (clientPid now created : Z)
  (sessionId : string) (lock : option string) :
  let s := initialized config lock created in
  let cap := SessionMultiplexerImpl.maxConcurrentSessions
               (SessionMultiplexerImpl.config (sessionMultiplexer s)) in
  let out := wireComponents adapter clientPid sessionId now s in
  transportAdapter (sessionMultiplexer out.1) = Some adapter
  /\ if 0 >=? cap then
       out.2 = Throw (SessionError "Maximum concurrent sessions exceeded" EmptyString)
       /\ sessions (sessionMultiplexer out.1) = ∅
       /\ emitted (sessionMultiplexer out.1) = []
       /\ processManager out.1 = processManager s
     else
       out.2 = Throw no_configuration
       /\ (exists session,
             sessions (sessionMultiplexer out.1) = {[ sessionId := session ]}
             /\ SessionMultiplexerImpl.clientPid session = clientPid)
       /\ emitted (sessionMultiplexer out.1) = [SESSION_CREATED sessionId]
       /\ MCPProcessManager.lastActivity (processManager out.1) = now
       /\ MCPProcessManager.config (processManager out.1) = None.
Proof.
  intros s cap out. subst out. unfold wireComponents, createSession.
  change (Z.of_nat (size (sessions (setTransportAdapter adapter (sessionMultiplexer s)))))
    with 0.
  change (SessionMultiplexerImpl.maxConcurrentSessions
            (SessionMultiplexerImpl.config
               (setTransportAdapter adapter (sessionMultiplexer s)))) with cap.
  destruct (0 >=? cap).
  - by repeat split.
  - unfold on_session_created.
    destruct (updateActivity_unconfigured now (processManager s) eq_refl)
      as (Hthrow & Hactivity & Hconfig & _).
    destruct (MCPProcessManager.updateActivity now (processManager s)) as [pm told].
    cbn in Hthrow, Hactivity, Hconfig. cbn. subst told.
    split; [done|]. split; [done|]. split; [by eexists|]. by repeat split.
Qed.

(** Witness of [retryWithBackoff_first_success]: the third attempt
    succeeds, after delays of one and two seconds. *)
Lemma retryWithBackoff_first_success_witness :
  Utils.retryWithBackoff third_time_lucky 3 1000 2
  = (Utils.Resolved "done", 3%nat, [1000; 2000]).
Proof.
  etransitivity;
    [apply (retryWithBackoff_first_success third_time_lucky 3 1000 2 3 "done")|].
  - lia.
  - intros j Hj. unfold third_time_lucky. destruct (Z.ltb_spec j 3); [by eexists|lia].
  - reflexivity.
  - vm_compute. reflexivity.
Defined.

(** Witness of [retryWithBackoff_exhausted]: three failures; and no
    attempt at all. *)
Lemma retryWithBackoff_exhausted_witness :
  Utils.retryWithBackoff never_lucky 3 1000 2
  = (Utils.Rejected (NativeError "attempt 3"), 3%nat, [1000; 2000])
  /\ Utils.retryWithBackoff never_lucky 0 1000 2 = (Utils.Pending, 0%nat, []).
Proof.
  split.
  - etransitivity;
      [apply (proj2 (retryWithBackoff_exhausted never_lucky 3 1000 2)
                (NativeError "attempt 3"))|].
    + lia.
    + intros j Hj. by eexists.
    + reflexivity.
    + vm_compute. reflexivity.
  - apply (proj1 (retryWithBackoff_exhausted never_lucky 0 1000 2)). lia.
Defined.

(** Witness of [validateAndNormalizeConfig_normalizes]: zeros everywhere. *)
Lemma validateAndNormalizeConfig_normalizes_witness :
  validateAndNormalizeConfig zeros = Normalized normalized_zeros
  /\ validateAndNormalizeConfig normalized_zeros = Normalized normalized_zeros
  /\ httpPort normalized_zeros = Some 3000
  /\ maxConcurrentSessions normalized_zeros = Some 50.
Proof.
  assert (Hnormalized : validateAndNormalizeConfig zeros = Normalized normalized_zeros)
    by reflexivity.
  pose proof (validateAndNormalizeConfig_normalizes zeros) as Hout.
  rewrite Hnormalized in Hout. cbn [backend zeros] in Hout.
  destruct Hout as (_ & Hport & _ & _ & Hcap & _ & _ & _ & _ & Hidem).
  split; [exact Hnormalized|]. split; [exact Hidem|].
  split; [apply Hport; by right|apply Hcap; by right].
Defined.

(** Witness of [wireComponents_throws]: the sample configuration, with the
    default cap of 50 sessions. *)
Lemma wireComponents_throws_witness :
  wired_server.2 = Throw no_configuration
  /\ emitted (sessionMultiplexer wired_server.1) = [SESSION_CREATED "session-9-y"].
Proof.
  destruct (wireComponents_throws normalized_backend_only
              (initializeTransportAdapter normalized_backend_only "session-9-z" 77)
              77 9 8 "session-9-y" None) as (_ & Hout).
  change (0 >=? _) with false in Hout.
  destruct Hout as (Hthrow & _ & Hemitted & _).
  split; [exact Hthrow|exact Hemitted].
Defined.

End ServerProofs.
